(** * fastkml.geometry: coordinate codec, geometry decoders and encoders

    A shallow embedding of [fastkml/geometry.py].  Python [str] values are
    Rocq strings whose characters stand for the code points below 256,
    exceptions are values of [exn], and a computation that may log through
    [logger.error] and may raise is a value of the monad [M].  The
    libraries the module calls ([float] and the format mini-language,
    [etree.tostring] and the default namespace of [fastkml.config], the
    constructors of [pygeoif]) are interfaces ([PyFloat], [Config],
    [Pygeoif]); every general statement below holds for each of their
    implementations, and the examples run on the implementations given
    after the model. *)

From Stdlib Require Import ZArith QArith Ascii String List Lia.
From Stdlib Require Import DecimalString.
From stdpp Require Import base option gmap strings list.
Import ListNotations.
Open Scope string_scope.
Open Scope list_scope.

(** ** Python string primitives *)

Module PyStr.

(** [str.isspace] on one character (code points below 256). *)
Definition isspace (c : ascii) : bool :=
  let n := nat_of_ascii c in
  ((9 <=? n)%nat && (n <=? 13)%nat) || ((28 <=? n)%nat && (n <=? 32)%nat)
  || (n =? 133)%nat || (n =? 160)%nat.

Fixpoint lstrip (s : string) : string :=
  match s with
  | String c s' => if isspace c then lstrip s' else s
  | EmptyString => EmptyString
  end.

Fixpoint rstrip (s : string) : string :=
  match s with
  | EmptyString => EmptyString
  | String c s' =>
      match rstrip s' with
      | EmptyString => if isspace c then EmptyString else String c EmptyString
      | r => String c r
      end
  end.

(** [s.strip()] *)
Definition strip (s : string) : string := rstrip (lstrip s).

(** [s.split()]: the maximal runs of characters that are not whitespace. *)
Fixpoint split (s : string) : list string :=
  match s with
  | EmptyString => []
  | String c s' =>
      if isspace c then split s'
      else match s' with
           | EmptyString => [String c EmptyString]
           | String c' _ =>
               if isspace c' then String c EmptyString :: split s'
               else match split s' with
                    | t :: ts => String c t :: ts
                    | [] => [String c EmptyString]
                    end
           end
  end.

(** [s.split(sep)] for a separator of one character. *)
Fixpoint split_on (sep : ascii) (s : string) : list string :=
  match s with
  | EmptyString => [EmptyString]
  | String c s' =>
      if Ascii.eqb c sep then EmptyString :: split_on sep s'
      else match split_on sep s' with
           | t :: ts => String c t :: ts
           | [] => [String c EmptyString]
           end
  end.

(** [re.sub(r", +", ",", s)]: scanning left to right, the spaces that
    directly follow a comma are dropped ([after_comma] holds while the
    scan is inside such a match). *)
Fixpoint re_sub_go (after_comma : bool) (s : string) : string :=
  match s with
  | EmptyString => EmptyString
  | String c s' =>
      if after_comma && Ascii.eqb c " " then re_sub_go true s'
      else String c (re_sub_go (Ascii.eqb c ",") s')
  end.

Definition re_sub_comma_spaces (s : string) : string := re_sub_go false s.

(** [sep.join(l)] *)
Definition join (sep : string) (l : list string) : string := String.concat sep l.

End PyStr.

(** ** Exceptions, logging and the computation monad *)

Inductive exn_class :=
| ValueError | AttributeError | IndexError | TypeError | DimensionError
| AssertionError | KMLParseError | KMLWriteError.

#[global] Instance exn_class_eq_dec : EqDecision exn_class.
Proof. solve_decision. Defined.

(** An exception: its class and [str(error)]. *)
Record exn := Exn { exn_type : exn_class; exn_str : string }.

(** A computation yields the messages it passed to [logger.error], in
    order, and either the exception it raised or its value. *)
Definition M (A : Type) : Type := (list string * (exn + A))%type.

Definition raise {A} (e : exn) : M A := ([], inl e).

Definition logger_error (msg : string) : M unit := ([msg], inr tt).

#[global] Instance M_ret : MRet M := fun A x => ([], inr x).

#[global] Instance M_bind : MBind M := fun A B f m =>
  match m with
  | (l, inl e) => (l, inl e)
  | (l, inr x) => match f x with (l', r) => (l ++ l', r) end
  end.

(** [try: body except (classes) as error: handler error] *)
Definition try_except {A} (body : M A) (classes : list exn_class)
    (handler : exn -> M A) : M A :=
  match body with
  | (l, inl e) =>
      if bool_decide (exn_type e ∈ classes)
      then match handler e with (l', r) => (l ++ l', r) end
      else (l, inl e)
  | (l, inr x) => (l, inr x)
  end.

(** [try: x = body except (classes) as error: return handler error],
    followed by the rest [k x] of the function. *)
Definition try_except_else {A B} (body : M A) (classes : list exn_class)
    (handler : exn -> M B) (k : A -> M B) : M B :=
  match body with
  | (l, inl e) =>
      if bool_decide (exn_type e ∈ classes)
      then match handler e with (l', r) => (l ++ l', r) end
      else (l, inl e)
  | (l, inr x) => match k x with (l', r) => (l ++ l', r) end
  end.

Fixpoint mapM_M {A B} (f : A -> M B) (l : list A) : M (list B) :=
  match l with
  | [] => mret []
  | x :: l' => y ← f x; ys ← mapM_M f l'; mret (y :: ys)
  end.

(** [for x in l: acc = f acc x] *)
Fixpoint foldlM {A B} (f : B -> A -> M B) (acc : B) (l : list A) : M B :=
  match l with
  | [] => mret acc
  | x :: l' => acc' ← f acc x; foldlM f acc' l'
  end.

Definition logged {A} (m : M A) : list string := fst m.
Definition outcome {A} (m : M A) : exn + A := snd m.

(** ** Element trees *)

(** An [Element] of the element tree: its (namespace-qualified) tag, its
    text ([None] when the element has no text) and its children. *)
#[local] Unset Elimination Schemes.
Inductive Element := Elem {
  tag : string;
  text : option string;
  children : list Element
}.
#[local] Set Elimination Schemes.

(** [element.findall(path)] for a path that is one tag: the children with
    that tag, in document order. *)
Definition findall (path : string) (element : Element) : list Element :=
  filter (fun e => tag e = path) (children element).

(** [element.find(path)]: the first such child, if any. *)
Definition find (path : string) (element : Element) : option Element :=
  head (findall path element).

(** [etree.SubElement(parent, tag)] followed by [sub.append(child)]. *)
Definition append (element child : Element) : Element :=
  Elem (tag element) (text element) (children element ++ [child]).

(** ** The geometry values of [pygeoif] *)

Module geo.

(** A coordinate tuple is the list of its fields; a [Point] holds one
    tuple, a [Polygon] the coordinates of its exterior ring and of its
    interior rings, a multi-geometry its members. *)
#[local] Unset Elimination Schemes.
Inductive Geometry (F : Type) :=
  | Point (c : list F)
  | LineString (cs : list (list F))
  | LinearRing (cs : list (list F))
  | Polygon (exterior : list (list F)) (interiors : list (list (list F)))
  | MultiPoint (geoms : list (Geometry F))
  | MultiLineString (geoms : list (Geometry F))
  | MultiPolygon (geoms : list (Geometry F))
  | GeometryCollection (geoms : list (Geometry F)).
#[local] Set Elimination Schemes.

Arguments Point {F} c.
Arguments LineString {F} cs.
Arguments LinearRing {F} cs.
Arguments Polygon {F} exterior interiors.
Arguments MultiPoint {F} geoms.
Arguments MultiLineString {F} geoms.
Arguments MultiPolygon {F} geoms.
Arguments GeometryCollection {F} geoms.

(** [geom.geom_type]: the name of the value's class. *)
Definition geom_type {F} (g : Geometry F) : string :=
  match g with
  | Point _ => "Point"
  | LineString _ => "LineString"
  | LinearRing _ => "LinearRing"
  | Polygon _ _ => "Polygon"
  | MultiPoint _ => "MultiPoint"
  | MultiLineString _ => "MultiLineString"
  | MultiPolygon _ => "MultiPolygon"
  | GeometryCollection _ => "GeometryCollection"
  end.

(** [geom.coords] of a Point, LineString or LinearRing. *)
Definition coords {F} (g : Geometry F) : list (list F) :=
  match g with
  | Point c => [c]
  | LineString cs | LinearRing cs => cs
  | _ => []
  end.

(** The members a multi-geometry was constructed from, in order: its
    [geom.geoms] when none of them is empty ([pygeoif] keeps no empty
    member in a GeometryCollection). *)
Definition geoms {F} (g : Geometry F) : list (Geometry F) :=
  match g with
  | MultiPoint gs | MultiLineString gs | MultiPolygon gs
  | GeometryCollection gs => gs
  | _ => []
  end.

(** [Polygon.from_linear_rings(shell, *holes)] *)
Definition from_linear_rings {F} (shell : Geometry F)
    (holes : list (Geometry F)) : Geometry F :=
  Polygon (coords shell) (map coords holes).

End geo.

(** ** Interfaces of the libraries the module calls *)

(** Python floats: [py_float s] is [float(s)], [inl msg] standing for
    [ValueError(msg)]; [format_f p x] is the format [x:.{p}f], [inl msg]
    standing for the [ValueError] of a refused precision; [isnan] is
    [math.isnan]; [py_repr coords] is [str(coords)] of a sequence of
    tuples. *)
Class PyFloat (F : Type) := {
  py_float : string -> string + F;
  format_f : Z -> F -> string + string;
  isnan : F -> bool;
  py_repr : list (list F) -> string
}.

(** [fastkml.config]: [tostring e] is
    [config.etree.tostring(e, encoding="UTF-8").decode("UTF-8")], [KMLNS]
    the default namespace, in braces. *)
Class Config := {
  tostring : Element -> string;
  KMLNS : string
}.

(** The constructors of [pygeoif] that validate coordinates: each yields
    the coordinates the new value holds, or the exception it raises. *)
Class Pygeoif (F : Type) := {
  Point_from_coordinates : list (list F) -> exn + list F;
  LineString_from_coordinates : list (list F) -> exn + list (list F);
  LinearRing_from_coordinates : list (list F) -> exn + list (list F)
}.

Definition lift {A} (r : exn + A) : M A := ([], r).

Module geo_bool.

(** [bool(geom)], that is [not geom.is_empty]: a Point is empty when it
    has no fields or a field that is not a number, a line or ring when it
    has no points, a Polygon when its exterior is, a multi-geometry when
    it has no members. *)
Definition truthy {F} `{!PyFloat F} (g : geo.Geometry F) : bool :=
  match g with
  | geo.Point c =>
      negb (match c with [] => true | _ => existsb isnan c end)
  | geo.LineString cs | geo.LinearRing cs =>
      negb (match cs with [] => true | _ => false end)
  | geo.Polygon ext _ => negb (match ext with [] => true | _ => false end)
  | geo.MultiPoint gs | geo.MultiLineString gs | geo.MultiPolygon gs
  | geo.GeometryCollection gs =>
      negb (match gs with [] => true | _ => false end)
  end.

End geo_bool.

(** ** The coordinate codec *)

Section Codec.
Context {F : Type} `{!PyFloat F} `{!Config}.

(** [handle_invalid_geometry_error(error=, element=, strict=)] *)
Definition handle_invalid_geometry_error (error : exn) (element : Element)
    (strict : bool) : M unit :=
  let error_in_xml := tostring element in
  let msg := "Invalid coordinates in '" +:+ error_in_xml +:+
             "' caused by '" +:+ exn_str error +:+ "'" in
  _ ← logger_error msg;
  if strict then raise (Exn KMLParseError msg) else mret tt.

(** [c[i]] on a tuple *)
Definition getitem (c : list F) (i : nat) : M F :=
  match c !! i with
  | Some x => mret x
  | None => raise (Exn IndexError "tuple index out of range")
  end.

(** The replacement field [c[i]:.{p}f] of an f-string. *)
Definition format_field (p : Z) (c : list F) (i : nat) : M string :=
  x ← getitem c i;
  match format_f p x with
  | inl msg => raise (Exn ValueError msg)
  | inr s => mret s
  end.

(** [f"{c[0]:.{p}f},{c[1]:.{p}f}"] *)
Definition format_2d (p : Z) (c : list F) : M string :=
  a ← format_field p c 0; b ← format_field p c 1;
  mret (a +:+ "," +:+ b).

(** [f"{c[0]:.{p}f},{c[1]:.{p}f},{c[2]:.{p}f}"] *)
Definition format_3d (p : Z) (c : list F) : M string :=
  a ← format_field p c 0; b ← format_field p c 1; d ← format_field p c 2;
  mret (a +:+ "," +:+ b +:+ "," +:+ d).

(** The statements [coordinates_subelement] and [xx_etree_coordinates]
    share, from [p = ...] to the right-hand side of [element.text = ...]:
    the text of a sequence that is not empty. *)
Definition coordinates_text (coords : list (list F)) (precision : option Z)
    : M string :=
  let p := default 6%Z precision in
  match coords with
  | [] => raise (Exn IndexError "list index out of range")
  | c0 :: _ =>
      if (length c0 =? 2)%nat then
        tuples ← mapM_M (format_2d p) coords; mret (PyStr.join " " tuples)
      else if (length c0 =? 3)%nat then
        tuples ← mapM_M (format_3d p) coords; mret (PyStr.join " " tuples)
      else
        raise (Exn KMLWriteError
                 ("Invalid dimensions in coordinates '" +:+
                  py_repr coords +:+ "'"))
  end.

(** The [Coordinates] object: its namespace and its [coords]. *)
Record Coordinates := mkCoordinates {
  coordinates_ns : string;
  coords : list (list F)
}.

(** [Coordinates(ns=ns, coords=coords)]: the base initialiser puts the
    class's [_default_ns], [config.KMLNS], for a missing [ns];
    [self.coords = coords or []]. *)
Definition Coordinates__init__ (ns : option string)
    (coords : option (list (list F))) : Coordinates :=
  mkCoordinates (default KMLNS ns) (default [] coords).

(** [Coordinates.__bool__] *)
Definition Coordinates__bool__ (obj : Coordinates) : bool :=
  match coords obj with [] => false | _ => true end.

(** [coordinates_subelement(obj, element=, attr_name="coords", ...)]:
    the element after the call. *)
Definition coordinates_subelement (obj : Coordinates) (element : Element)
    (precision : option Z) : M Element :=
  if Coordinates__bool__ obj then
    t ← coordinates_text (coords obj) precision;
    mret (Elem (tag element) (Some t) (children element))
  else mret element.

(** [xx_etree_coordinates(self, coordinates, precision)] of an object
    whose namespace is [ns]. *)
Definition xx_etree_coordinates (ns : string) (coordinates : list (list F))
    (precision : option Z) : M Element :=
  let element := Elem (ns +:+ "coordinates") None [] in
  match coordinates with
  | [] => mret element
  | _ =>
      t ← coordinates_text coordinates precision;
      mret (Elem (tag element) (Some t) (children element))
  end.

(** [element.text.strip()]; a missing text has no [strip]. *)
Definition text_strip (t : option string) : M string :=
  match t with
  | Some s => mret (PyStr.strip s)
  | None =>
      raise (Exn AttributeError
               "'NoneType' object has no attribute 'strip'")
  end.

(** [tuple(float(c) for c in latlon.split(","))] *)
Definition parse_tuple (latlon : string) : M (list F) :=
  mapM_M (fun c => match py_float c with
                   | inl msg => raise (Exn ValueError msg)
                   | inr x => mret x
                   end)
         (PyStr.split_on "," latlon).

(** [re.sub(r", +", ",", text.strip()).split()] *)
Definition latlons_of (t : option string) : M (list string) :=
  s ← text_strip t;
  mret (PyStr.split (PyStr.re_sub_comma_spaces s)).

(** [subelement_coordinates_kwarg(element=, kwarg=, strict=, ...)]: the
    dict it returns has the one key [kwarg] or none. *)
Definition subelement_coordinates_kwarg (element : Element)
    (kwarg : string) (strict : bool) : M (gmap string (list (list F))) :=
  try_except_else (latlons_of (text element)) [AttributeError]
    (fun _ => mret ∅)
    (fun latlons =>
       try_except
         (cs ← mapM_M parse_tuple latlons; mret {[ kwarg := cs ]})
         [ValueError]
         (fun error =>
            _ ← handle_invalid_geometry_error error element strict;
            mret ∅)).

(** [_Geometry._get_coordinates(ns=, element=, strict=)] *)
Definition _get_coordinates (ns : string) (element : Element)
    (strict : bool) : M (list (list F)) :=
  match find (ns +:+ "coordinates") element with
  | Some coordinates =>
      try_except_else (latlons_of (text coordinates)) [AttributeError]
        (fun _ => mret [])
        (fun latlons =>
           try_except (mapM_M parse_tuple latlons) [ValueError]
             (fun error =>
                _ ← handle_invalid_geometry_error error element strict;
                mret []))
  | None => mret []
  end.

End Codec.

(** ** The markup wrappers *)

(** Modelled from the spec: the altitude-interpretation mode of a wrapper,
    declared in [fastkml.enums], "one of: clamp-to-ground,
    relative-to-ground, absolute". *)
Inductive AltitudeMode := clamp_to_ground | relative_to_ground | absolute.

(** The classes of wrappers; [__name__] is the class's name, the tag of
    its element. *)
Inductive kml_class :=
| KPoint | KLineString | KLinearRing | KPolygon | KMultiGeometry.

#[global] Instance kml_class_eq_dec : EqDecision kml_class.
Proof. solve_decision. Defined.

Definition __name__ (cls : kml_class) : string :=
  match cls with
  | KPoint => "Point"
  | KLineString => "LineString"
  | KLinearRing => "LinearRing"
  | KPolygon => "Polygon"
  | KMultiGeometry => "MultiGeometry"
  end.

(** An instance of a subclass of [_Geometry]: its class, the fields
    [_Geometry.__init__] sets and, for Point, LineString and LinearRing,
    [kml_coordinates]. *)
Record KmlGeometry (F : Type) := mkGeometry {
  cls : kml_class;
  ns : string;
  extrude : option bool;
  tessellate : option bool;
  altitude_mode : option AltitudeMode;
  _geometry : option (geo.Geometry F);
  kml_coordinates : option (@Coordinates F)
}.
Arguments mkGeometry {F}.
Arguments cls {F}.
Arguments ns {F}.
Arguments extrude {F}.
Arguments tessellate {F}.
Arguments altitude_mode {F}.
Arguments _geometry {F}.
Arguments kml_coordinates {F}.

Module _Geometry.

(** [_Geometry.__init__]; modelled from the spec: the base initialiser it
    calls keeps the namespace, [config.KMLNS] when none is given (the
    identity fields are left out, nothing here reads them). *)
Definition __init__ {F} `{!Config} (cls : kml_class) (ns : option string)
    (extrude tessellate : option bool)
    (altitude_mode : option AltitudeMode)
    (geometry : option (geo.Geometry F))
    (kml_coordinates : option (@Coordinates F)) : KmlGeometry F :=
  mkGeometry cls (default KMLNS ns) extrude tessellate altitude_mode
    geometry kml_coordinates.

(** [_Geometry._get_geometry], inherited by Point and LineString. *)
Definition _get_geometry {F} (ns : string) (element : Element)
    (strict : bool) : M (option (geo.Geometry F)) :=
  mret None.

(** [_Geometry.__bool__], inherited by Polygon and MultiGeometry. *)
Definition __bool__ {F} `{!PyFloat F} (self : KmlGeometry F) : bool :=
  match _geometry self with
  | Some g => geo_bool.truthy g
  | None => false
  end.

(** The property [_Geometry.geometry], inherited by Polygon and
    MultiGeometry. *)
Definition geometry {F} (self : KmlGeometry F) : option (geo.Geometry F) :=
  _geometry self.

(** Modelled from the spec: the sub-element a set rendering hint writes
    ([bool_subelement] and [enum_subelement] of [fastkml.helpers], under
    the node names this module registers). *)
Definition bool_subelement (ns node_name : string) (v : option bool)
    : list Element :=
  match v with
  | Some b => [Elem (ns +:+ node_name) (Some (if b then "1" else "0")) []]
  | None => []
  end.

Definition enum_subelement (ns node_name : string)
    (v : option AltitudeMode) : list Element :=
  match v with
  | Some clamp_to_ground => [Elem (ns +:+ node_name) (Some "clampToGround") []]
  | Some relative_to_ground =>
      [Elem (ns +:+ node_name) (Some "relativeToGround") []]
  | Some absolute => [Elem (ns +:+ node_name) (Some "absolute") []]
  | None => []
  end.

(** Modelled from the spec: [Coordinates.etree_element], the base
    encoder on a [Coordinates] object: an element named by
    [get_tag_name], filled by the registered [coordinates_subelement]. *)
Definition Coordinates_etree_element {F} `{!PyFloat F}
    (obj : @Coordinates F) (precision : option Z) : M Element :=
  coordinates_subelement obj
    (Elem (coordinates_ns obj +:+ "coordinates") None []) precision.

(** Modelled from the spec: [_BaseObject.etree_element], the base
    encoder [super().etree_element] reaches: an element named after the
    class, to which every registered attribute that is set adds itself,
    in the order of registration: [extrude], [tessellate],
    [altitudeMode], then [kml_coordinates] through [xml_subelement], "a
    single coordinates element whose text is produced by the Codec". *)
Definition etree_element {F} `{!PyFloat F} (self : KmlGeometry F)
    (precision : option Z) : M Element :=
  let element :=
    Elem (ns self +:+ __name__ (cls self)) None
      (bool_subelement (ns self) "extrude" (extrude self) ++
       bool_subelement (ns self) "tessellate" (tessellate self) ++
       enum_subelement (ns self) "altitudeMode" (altitude_mode self)) in
  match kml_coordinates self with
  | Some obj =>
      if Coordinates__bool__ obj then
        c ← Coordinates_etree_element obj precision;
        mret (append element c)
      else mret element
  | None => mret element
  end.

End _Geometry.

Module Point.

(** [Point.__init__] *)
Definition __init__ {F} `{!PyFloat F} `{!Config} (ns : option string)
    (extrude tessellate : option bool)
    (altitude_mode : option AltitudeMode)
    (geometry : option (geo.Geometry F))
    (kml_coordinates : option (@Coordinates F)) : M (KmlGeometry F) :=
  if bool_decide (is_Some geometry ∧ is_Some kml_coordinates) then
    raise (Exn ValueError
             "geometry and kml_coordinates are mutually exclusive")
  else
    let kml_coordinates :=
      match kml_coordinates with
      | None =>
          match geometry with
          | Some g =>
              if geo_bool.truthy g
              then Some (Coordinates__init__ None (Some (geo.coords g)))
              else None
          | None => None
          end
      | Some obj => Some obj
      end in
    mret (_Geometry.__init__ KPoint ns extrude tessellate altitude_mode
            None kml_coordinates).

(** [Point.__bool__] *)
Definition __bool__ {F} (self : KmlGeometry F) : bool :=
  match kml_coordinates self with
  | Some obj => Coordinates__bool__ obj
  | None => false
  end.

(** The property [Point.geometry] *)
Definition geometry {F} `{!Pygeoif F} (self : KmlGeometry F)
    : M (option (geo.Geometry F)) :=
  match kml_coordinates self with
  | Some obj =>
      if Coordinates__bool__ obj then
        c ← lift (Point_from_coordinates (coords obj));
        mret (Some (geo.Point c))
      else mret None
  | None => mret None
  end.

End Point.

Module LineString.

(** [LineString.__init__], run for the class [cls] (LineString itself
    or its subclass LinearRing). *)
Definition __init__ {F} `{!PyFloat F} `{!Config} (cls : kml_class)
    (ns : option string) (extrude tessellate : option bool)
    (altitude_mode : option AltitudeMode)
    (geometry : option (geo.Geometry F))
    (kml_coordinates : option (@Coordinates F)) : M (KmlGeometry F) :=
  if bool_decide (is_Some geometry ∧ is_Some kml_coordinates) then
    raise (Exn ValueError
             "geometry and kml_coordinates are mutually exclusive")
  else
    let kml_coordinates :=
      match kml_coordinates with
      | None =>
          match geometry with
          | Some g =>
              if geo_bool.truthy g
              then Some (Coordinates__init__ None (Some (geo.coords g)))
              else None
          | None => None
          end
      | Some obj => Some obj
      end in
    mret (_Geometry.__init__ cls ns extrude tessellate altitude_mode
            None kml_coordinates).

(** [LineString.__bool__], inherited by LinearRing. *)
Definition __bool__ {F} (self : KmlGeometry F) : bool :=
  match kml_coordinates self with
  | Some obj => Coordinates__bool__ obj
  | None => false
  end.

(** The property [LineString.geometry] *)
Definition geometry {F} `{!Pygeoif F} (self : KmlGeometry F)
    : M (option (geo.Geometry F)) :=
  match kml_coordinates self with
  | Some obj =>
      if Coordinates__bool__ obj then
        cs ← lift (LineString_from_coordinates (coords obj));
        mret (Some (geo.LineString cs))
      else mret None
  | None => mret None
  end.

End LineString.

Module LinearRing.

(** [LinearRing.__init__]: the call of [super().__init__]. *)
Definition __init__ {F} `{!PyFloat F} `{!Config} (ns : option string)
    (extrude tessellate : option bool)
    (altitude_mode : option AltitudeMode)
    (geometry : option (geo.Geometry F))
    (kml_coordinates : option (@Coordinates F)) : M (KmlGeometry F) :=
  LineString.__init__ KLinearRing ns extrude tessellate altitude_mode
    geometry kml_coordinates.

(** The property [LinearRing.geometry] *)
Definition geometry {F} `{!Pygeoif F} (self : KmlGeometry F)
    : M (option (geo.Geometry F)) :=
  match kml_coordinates self with
  | Some obj =>
      if Coordinates__bool__ obj then
        cs ← lift (LinearRing_from_coordinates (coords obj));
        mret (Some (geo.LinearRing cs))
      else mret None
  | None => mret None
  end.

(** [LinearRing._get_geometry(ns=, element=, strict=)] *)
Definition _get_geometry {F} `{!PyFloat F} `{!Config} `{!Pygeoif F}
    (ns : string) (element : Element) (strict : bool)
    : M (option (geo.Geometry F)) :=
  coords ← _get_coordinates ns element strict;
  try_except
    (cs ← lift (LinearRing_from_coordinates coords);
     mret (Some (geo.LinearRing cs)))
    [IndexError; TypeError; DimensionError]
    (fun e =>
       _ ← handle_invalid_geometry_error e element strict;
       mret None).

End LinearRing.

Module Polygon.

(** [Polygon.__init__] *)
Definition __init__ {F} `{!Config} (ns : option string)
    (extrude tessellate : option bool)
    (altitude_mode : option AltitudeMode) (geometry : geo.Geometry F)
    : KmlGeometry F :=
  _Geometry.__init__ KPolygon ns extrude tessellate altitude_mode
    (Some geometry) None.

(** [linear_ring(geometry=ring).etree_element(precision=, verbosity=)]
    with [linear_ring = partial(LinearRing, ns=self.ns, extrude=None,
    tessellate=None)]. *)
Definition ring_element {F} `{!PyFloat F} `{!Config} (ns : string)
    (ring : geo.Geometry F) (precision : option Z) : M Element :=
  w ← LinearRing.__init__ (Some ns) None None None (Some ring) None;
  _Geometry.etree_element w precision.

(** [Polygon.etree_element(self, precision, verbosity)] *)
Definition etree_element {F} `{!PyFloat F} `{!Config}
    (self : KmlGeometry F) (precision : option Z) : M Element :=
  element ← _Geometry.etree_element self precision;
  match _geometry self with
  | None => mret element
  | Some g =>
      if negb (geo_bool.truthy g) then mret element
      else
        match g with
        | geo.Polygon exterior interiors =>
            r ← ring_element (ns self) (geo.LinearRing exterior) precision;
            let outer_boundary :=
              Elem (ns self +:+ "outerBoundaryIs") None [r] in
            foldlM
              (fun element interior =>
                 r ← ring_element (ns self) (geo.LinearRing interior)
                       precision;
                 mret (append element
                         (Elem (ns self +:+ "innerBoundaryIs") None [r])))
              (append element outer_boundary) interiors
        | _ => raise (Exn AssertionError "")
        end
  end.

(** The serialised element of the messages of [_get_geometry]. *)
Definition missing {A} `{!Config} (what : string) (element : Element)
    : M A :=
  let error := tostring element in
  raise (Exn KMLParseError ("Missing " +:+ what +:+ " in " +:+ error)).

(** The body of the loop of [_get_geometry] over the inner boundaries:
    [interiors] after the pass for [inner_boundary]. *)
Definition collect_hole {F} `{!PyFloat F} `{!Config} `{!Pygeoif F}
    (ns : string) (element : Element) (strict : bool)
    (interiors : list (geo.Geometry F)) (inner_boundary : Element)
    : M (list (geo.Geometry F)) :=
  match find (ns +:+ "LinearRing") inner_boundary with
  | None => missing "LinearRing" element
  | Some inner_ring =>
      hole ← LinearRing._get_geometry ns inner_ring strict;
      match hole with
      | Some h =>
          if geo_bool.truthy h then mret (interiors ++ [h])
          else mret interiors
      | None => mret interiors
      end
  end.

(** [Polygon._get_geometry(ns=, element=, strict=)] *)
Definition _get_geometry {F} `{!PyFloat F} `{!Config} `{!Pygeoif F}
    (ns : string) (element : Element) (strict : bool)
    : M (option (geo.Geometry F)) :=
  match find (ns +:+ "outerBoundaryIs") element with
  | None => missing "outerBoundaryIs" element
  | Some outer_boundary =>
      match find (ns +:+ "LinearRing") outer_boundary with
      | None => missing "LinearRing" element
      | Some outer_ring =>
          exterior ← LinearRing._get_geometry ns outer_ring strict;
          interiors ←
            foldlM (collect_hole ns element strict) []
              (findall (ns +:+ "innerBoundaryIs") element);
          match exterior with
          | Some ext =>
              if geo_bool.truthy ext
              then mret (Some (geo.from_linear_rings ext interiors))
              else mret None
          | None => mret None
          end
      end
  end.

End Polygon.

(** [create_multigeometry(geometries)] *)
Definition create_multigeometry {F} (geometries : list (geo.Geometry F))
    : option (geo.Geometry F) :=
  let geom_types : gset string :=
    list_to_set (geo.geom_type <$> geometries) in
  if bool_decide (geom_types = ∅) then None
  else
    let map_to_geometries :=
      [("Point", geo.MultiPoint); ("LineString", geo.MultiLineString);
       ("Polygon", @geo.MultiPolygon F)] in
    let found :=
      if bool_decide (size geom_types = 1%nat) then
        match elements geom_types with
        | geom_type :: _ =>
            snd <$> head (filter (fun item => geom_type = fst item)
                            map_to_geometries)
        | [] => None
        end
      else None in
    match found with
    | Some constructor => Some (constructor geometries)
    | None => Some (geo.GeometryCollection geometries)
    end.

Module MultiGeometry.

(** [MultiGeometry.__init__] *)
Definition __init__ {F} `{!Config} (ns : option string)
    (extrude tessellate : option bool)
    (altitude_mode : option AltitudeMode) (geometry : geo.Geometry F)
    : KmlGeometry F :=
  _Geometry.__init__ KMultiGeometry ns extrude tessellate altitude_mode
    (Some geometry) None.

(** [_map_to_kml[type(geometry)]] in [etree_element]: the four
    multi-geometry classes map to the class itself, the others as
    [map_to_kml] says. *)
Definition _map_to_kml {F} (geometry : geo.Geometry F) : kml_class :=
  match geometry with
  | geo.Point _ => KPoint
  | geo.LineString _ => KLineString
  | geo.Polygon _ _ => KPolygon
  | geo.LinearRing _ => KLinearRing
  | geo.MultiPoint _ | geo.MultiLineString _ | geo.MultiPolygon _
  | geo.GeometryCollection _ => KMultiGeometry
  end.

(** [(cls, *tuple(cls.map_to_kml.values()))] *)
Definition allowed_geometries : list kml_class :=
  [KMultiGeometry; KPoint; KLineString; KPolygon; KLinearRing].

(** The loop of [etree_element] over [self.geometry.geoms]: [element]
    after the members [geoms] are appended; [encode_multi geometry] stands
    for the encoding of a member whose class is MultiGeometry itself. *)
Fixpoint members {F} `{!PyFloat F} `{!Config}
    (encode_multi : geo.Geometry F → M Element) (ns : string)
    (precision : option Z) (element : Element)
    (geoms : list (geo.Geometry F)) : M Element :=
  match geoms with
  | [] => mret element
  | geometry :: geoms' =>
      child ←
        match _map_to_kml geometry with
        | KMultiGeometry => encode_multi geometry
        | KPoint =>
            w ← Point.__init__ (Some ns) None None None (Some geometry) None;
            _Geometry.etree_element w precision
        | KLineString =>
            w ← LineString.__init__ KLineString (Some ns) None None None
                  (Some geometry) None;
            _Geometry.etree_element w precision
        | KLinearRing =>
            w ← LinearRing.__init__ (Some ns) None None None (Some geometry)
                  None;
            _Geometry.etree_element w precision
        | KPolygon =>
            Polygon.etree_element
              (Polygon.__init__ (Some ns) None None None geometry) precision
        end;
      members encode_multi ns precision (append element child) geoms'
  end.

(** [MultiGeometry.etree_element] of the wrapper
    [MultiGeometry(ns=ns, extrude=, tessellate=, altitude_mode=,
    geometry=geometry)]; the members that are multi-geometries are
    encoded by the same method, on a wrapper without hints. *)
Fixpoint etree_element_of {F} `{!PyFloat F} `{!Config} (ns : string)
    (extrude tessellate : option bool)
    (altitude_mode : option AltitudeMode) (geometry : geo.Geometry F)
    (precision : option Z) {struct geometry} : M Element :=
  element ← _Geometry.etree_element
              (__init__ (Some ns) extrude tessellate altitude_mode geometry)
              precision;
  match geometry with
  | geo.MultiPoint geoms | geo.MultiLineString geoms
  | geo.MultiPolygon geoms | geo.GeometryCollection geoms =>
      members (fun g => etree_element_of ns None None None g precision) ns
        precision element geoms
  | _ => raise (Exn AssertionError "")
  end.

(** [MultiGeometry.etree_element(self, precision, verbosity)] *)
Definition etree_element {F} `{!PyFloat F} `{!Config}
    (self : KmlGeometry F) (precision : option Z) : M Element :=
  match _geometry self with
  | None => _Geometry.etree_element self precision
  | Some geometry =>
      etree_element_of (ns self) (extrude self) (tessellate self)
        (altitude_mode self) geometry precision
  end.

(** The inner loop of [_get_geometry],
    [for e in element.findall(ns + g.__name__)], as a pass over the
    children [es] of the element that keeps those [findall] selects;
    [decode g e] stands for [g._get_geometry(ns=ns, element=e,
    strict=strict)]. *)
Fixpoint each_child {F}
    (decode : kml_class → Element → M (option (geo.Geometry F)))
    (ns : string) (g : kml_class) (geometries : list (geo.Geometry F))
    (es : list Element) : M (list (geo.Geometry F)) :=
  match es with
  | [] => mret geometries
  | e :: es' =>
      if decide (tag e = ns +:+ __name__ g) then
        geometry ← decode g e;
        match geometry with
        | Some x => each_child decode ns g (geometries ++ [x]) es'
        | None => each_child decode ns g geometries es'
        end
      else each_child decode ns g geometries es'
  end.

(** [MultiGeometry._get_geometry(ns=, element=, strict=)] *)
Fixpoint _get_geometry {F} `{!PyFloat F} `{!Config} `{!Pygeoif F}
    (ns : string) (element : Element) (strict : bool) {struct element}
    : M (option (geo.Geometry F)) :=
  let decode (g : kml_class) (e : Element) : M (option (geo.Geometry F)) :=
    match g with
    | KMultiGeometry => _get_geometry ns e strict
    | KPoint | KLineString => _Geometry._get_geometry ns e strict
    | KPolygon => Polygon._get_geometry ns e strict
    | KLinearRing => LinearRing._get_geometry ns e strict
    end in
  geometries ←
    foldlM (fun geometries g =>
              each_child decode ns g geometries (children element))
      [] allowed_geometries;
  mret (create_multigeometry geometries).

End MultiGeometry.

(** [create_kml_geometry(geometry, ns=, extrude=, tessellate=,
    altitude_mode=)]: the first class of [_map_to_kml] the value is an
    instance of (every value is an instance of one). *)
Definition create_kml_geometry {F} `{!PyFloat F} `{!Config}
    (geometry : geo.Geometry F) (ns : option string)
    (extrude tessellate : option bool) (altitude_mode : option AltitudeMode)
    : M (KmlGeometry F) :=
  match geometry with
  | geo.Point _ =>
      Point.__init__ ns extrude tessellate altitude_mode (Some geometry) None
  | geo.Polygon _ _ =>
      mret (Polygon.__init__ ns extrude tessellate altitude_mode geometry)
  | geo.LinearRing _ =>
      LinearRing.__init__ ns extrude tessellate altitude_mode
        (Some geometry) None
  | geo.LineString _ =>
      LineString.__init__ KLineString ns extrude tessellate altitude_mode
        (Some geometry) None
  | geo.MultiPoint _ | geo.MultiLineString _ | geo.MultiPolygon _
  | geo.GeometryCollection _ =>
      mret (MultiGeometry.__init__ ns extrude tessellate altitude_mode
              geometry)
  end.

(** [self.etree_element(precision=precision)] on a wrapper of any class. *)
Definition etree_element {F} `{!PyFloat F} `{!Config} (self : KmlGeometry F)
    (precision : option Z) : M Element :=
  match cls self with
  | KPolygon => Polygon.etree_element self precision
  | KMultiGeometry => MultiGeometry.etree_element self precision
  | _ => _Geometry.etree_element self precision
  end.

(** ** A decimal implementation of the float interface

    Exact decimal numbers, used to run the codec on examples: [py_float]
    reads the plain decimal literals (sign, digits, optional point; the
    other spellings [float] accepts are refused), [format_f] rounds half
    to even at the given number of digits.  It agrees with binary floats
    wherever those represent the value and its rounding exactly. *)

Module DecFloat.

Definition is_digit (c : ascii) : bool :=
  let n := nat_of_ascii c in (48 <=? n)%nat && (n <=? 57)%nat.

Fixpoint all_digits (s : string) : bool :=
  match s with
  | EmptyString => true
  | String c s' => is_digit c && all_digits s'
  end.

Fixpoint digits_value (acc : Z) (s : string) : Z :=
  match s with
  | EmptyString => acc
  | String c s' =>
      digits_value (10 * acc + (Z.of_nat (nat_of_ascii c) - 48)) s'
  end.

Definition nonempty (s : string) : bool :=
  match s with EmptyString => false | _ => true end.

Definition parse_unsigned (s : string) : option Q :=
  match PyStr.split_on "." s with
  | [i] =>
      if nonempty i && all_digits i
      then Some (Qred (digits_value 0 i # 1)) else None
  | [i; f] =>
      if all_digits i && all_digits f && (nonempty i || nonempty f)
      then Some (Qred (Qmake (digits_value 0 (i +:+ f))
                             (Z.to_pos (10 ^ Z.of_nat (String.length f)))))
      else None
  | _ => None
  end.

Definition parse (s : string) : option Q :=
  match s with
  | String "-" s' => Qopp <$> parse_unsigned s'
  | String "+" s' => parse_unsigned s'
  | _ => parse_unsigned s
  end.

Definition float (s : string) : string + Q :=
  match parse s with
  | Some q => inr q
  | None => inl ("could not convert string to float: '" +:+ s +:+ "'")
  end.

Definition string_of_Z (z : Z) : string :=
  NilZero.string_of_uint (N.to_uint (Z.to_N z)).

Fixpoint zeros (n : nat) : string :=
  match n with O => EmptyString | S n' => String "0" (zeros n') end.

(** The digits of [|x|] rounded half to even at [p] decimal digits, as
    the integer [|x| * 10^p]. *)
Definition scaled (p : Z) (x : Q) : Z :=
  let n := (Z.abs (Qnum x) * 10 ^ p)%Z in
  let d := Zpos (Qden x) in
  let q := (n / d)%Z in
  let r := (n mod d)%Z in
  if (d <? 2 * r)%Z then (q + 1)%Z
  else if (2 * r =? d)%Z && Z.odd q then (q + 1)%Z else q.

Definition fixed (p : Z) (x : Q) : string :=
  let m := scaled p x in
  let i := string_of_Z (m / 10 ^ p) in
  let f := string_of_Z (m mod 10 ^ p) in
  let sign := if (Qnum x <? 0)%Z then "-" else "" in
  if (p =? 0)%Z then sign +:+ i
  else sign +:+ i +:+ "." +:+
       zeros (Z.to_nat p - String.length f) +:+ f.

Definition format (p : Z) (x : Q) : string + string :=
  if (p <? 0)%Z then inl "Format specifier missing precision"
  else inr (fixed p x).

(** The least number of decimal digits, at least one and at most
    [fuel], that writes [x] exactly. *)
Fixpoint digits_needed (fuel : nat) (p : Z) (x : Q) : Z :=
  match fuel with
  | O => p
  | S fuel' =>
      if ((Qnum x * 10 ^ p) mod Zpos (Qden x) =? 0)%Z then p
      else digits_needed fuel' (p + 1) x
  end.

Definition repr_float (x : Q) : string := fixed (digits_needed 17 1 x) x.

Definition repr_tuple (c : list Q) : string :=
  match c with
  | [x] => "(" +:+ repr_float x +:+ ",)"
  | _ => "(" +:+ PyStr.join ", " (map repr_float c) +:+ ")"
  end.

Definition repr (cs : list (list Q)) : string :=
  "[" +:+ PyStr.join ", " (map repr_tuple cs) +:+ "]".

#[global] Instance dec_float : PyFloat Q := {
  py_float := float;
  format_f := format;
  isnan := fun _ => false;
  py_repr := repr
  }.

End DecFloat.


(** ** An implementation of the [pygeoif] constructors

    What the constructors of pygeoif 1.x do with a coordinate sequence:
    the first tuple fixes the dimension, repeated consecutive tuples are
    dropped, a tuple of another length is a [DimensionError], a tuple that
    is not of 2 or 3 fields a [TypeError]; an empty sequence gives an
    empty line or ring, and for a Point an [IndexError]; a ring is closed
    by repeating its first point. *)

Module PygeoifModel.

Section Model.
Context {F : Type} `{!EqDecision F} `{!PyFloat F}.

Fixpoint dedupe (cs : list (list F)) : list (list F) :=
  match cs with
  | c :: ((c' :: _) as cs') =>
    if decide (c = c') then dedupe cs' else c :: dedupe cs'
  | _ => cs
  end.

Fixpoint set_geoms_from (l2 : nat) (cs : list (list F))
  : exn + list (list F) :=
  match cs with
  | [] => inr []
  | c :: cs' =>
    if negb (length c =? l2)%nat then
      inl (Exn DimensionError
             "All coordinates must have the same dimension")
    else if negb ((length c =? 2)%nat || (length c =? 3)%nat) then
      inl (Exn TypeError "Point.__init__() got unexpected arguments")
    else
      match set_geoms_from l2 cs' with
      | inl e => inl e
      | inr r => inr (if existsb isnan c then r else c :: r)
      end
  end.

Definition line_string (cs : list (list F)) : exn + list (list F) :=
  match cs with
  | [] => inr []
  | c0 :: _ => set_geoms_from (length c0) (dedupe cs)
  end.

Definition linear_ring (cs : list (list F)) : exn + list (list F) :=
  match line_string cs with
  | inl e => inl e
  | inr [] => inr []
  | inr (c0 :: r) =>
    if decide (last (c0 :: r) = Some c0) then inr (c0 :: r)
    else inr (c0 :: r ++ [c0])
  end.

Definition point (cs : list (list F)) : exn + list F :=
  match cs with
  | [] => inl (Exn IndexError "tuple index out of range")
  | c :: _ =>
    if (length c =? 2)%nat || (length c =? 3)%nat then inr c
    else inl (Exn TypeError "Point.__init__() got unexpected arguments")
  end.

#[global] Instance pygeoif_model : Pygeoif F := {
  Point_from_coordinates := point;
  LineString_from_coordinates := line_string;
  LinearRing_from_coordinates := linear_ring
  }.
End Model.

#[global] Instance Q_eq_dec : EqDecision Q.
Proof. solve_decision. Defined.

End PygeoifModel.

(** The serialiser used to run the decoders on examples. *)
Module XmlText.

Fixpoint tostring (e : Element) : string :=
  match e with
  | Elem tag text children =>
      "<" +:+ tag +:+ ">" +:+ default "" text +:+
      String.concat "" (map tostring children) +:+ "</" +:+ tag +:+ ">"
  end.

#[global] Instance config : Config := {
  tostring := tostring;
  KMLNS := "{http://www.opengis.net/kml/2.2}"
  }.

End XmlText.

(** ** Clean coordinate text *)

(** A field as the encoder writes it: not empty, without whitespace and
    without a comma. *)
Fixpoint no_space_no_comma (s : string) : bool :=
  match s with
  | EmptyString => true
  | String c s' =>
      negb (PyStr.isspace c) && negb (Ascii.eqb c ",") && no_space_no_comma s'
  end.

Definition clean_field (s : string) : bool :=
  match s with
  | EmptyString => false
  | _ => no_space_no_comma s
  end.

(** A token of coordinate text: not empty, without whitespace, not ending
    in a comma. *)
Fixpoint token_ok (s : string) : bool :=
  match s with
  | EmptyString => false
  | String c EmptyString => negb (PyStr.isspace c) && negb (Ascii.eqb c ",")
  | String c s' => negb (PyStr.isspace c) && token_ok s'
  end.

(** ** Statements of the specification that the code is compared with *)

Section SpecStatements.
Context {F : Type} `{!PyFloat F} `{!Config} `{!Pygeoif F}.

(** The tokens of a coordinate text: the comma-space runs normalised,
    then the split on whitespace. *)
Definition tokens (t : string) : list string :=
  PyStr.split (PyStr.re_sub_comma_spaces (PyStr.strip t)).

(** A field of the coordinate text [t] that [float] refuses. *)
Definition has_non_numeric_field (t : string) : Prop :=
  ∃ latlon c msg,
    latlon ∈ tokens t ∧ c ∈ PyStr.split_on "," latlon ∧
    py_float c = inl msg.

(** Every field of every token of [t] is numeric, and [cs] holds their
    values, tuple by tuple. *)
Definition fields_parse_to (t : string) (cs : list (list F)) : Prop :=
  Forall2 (fun latlon c =>
             Forall2 (fun fld x => py_float fld = inr x)
               (PyStr.split_on "," latlon) c) (tokens t) cs.

(** The message of [handle_invalid_geometry_error]. *)
Definition invalid_coordinates_msg (element : Element) (cause : string)
    : string :=
  "Invalid coordinates in '" +:+ tostring element +:+ "' caused by '" +:+
  cause +:+ "'".

(** The spec's sentence on the arity of parsed tuples: "every tuple of a
    parsed coordinate sequence has arity 2 or 3". *)
Definition spec_parsed_tuples_have_arity_2_or_3 : Prop :=
  ∀ element kwarg strict log d cs,
    subelement_coordinates_kwarg element kwarg strict = (log, inr d) →
    d !! kwarg = Some cs →
    Forall (fun c => length c = 2%nat ∨ length c = 3%nat) cs.

(** The ring constructor raises only the exceptions that
    [LinearRing._get_geometry] handles. *)
Definition ring_errors_are_handled : Prop :=
  ∀ cs e, LinearRing_from_coordinates (F:=F) cs = inl e →
          exn_type e ∈ [IndexError; TypeError; DimensionError].

(** A decoded ring that is there and is not empty. *)
Definition usable (r : option (geo.Geometry F)) : option (geo.Geometry F) :=
  match r with
  | Some g => if geo_bool.truthy g then Some g else None
  | None => None
  end.

(** The usable ring a LinearRing element decodes to when not strict. *)
Definition usable_ring (ns : string) (ring : Element) : option (geo.Geometry F) :=
  match outcome (LinearRing._get_geometry ns ring false) with
  | inr r => usable r
  | inl _ => None
  end.

(** The usable rings of the inner boundaries, in document order. *)
Definition usable_holes (ns : string) (element : Element) : list (geo.Geometry F) :=
  omap (fun inner_boundary =>
          find (ns +:+ "LinearRing") inner_boundary ≫= usable_ring ns)
       (findall (ns +:+ "innerBoundaryIs") element).

(** The exception of [_get_geometry] for a missing piece. *)
Definition missing_exn (what : string) (element : Element) : exn :=
  Exn KMLParseError ("Missing " +:+ what +:+ " in " +:+ tostring element).

(** The exception strict decoding raises for the coordinates of a ring. *)
Definition is_invalid_coordinates (e : exn) : Prop :=
  ∃ ring cause, e = Exn KMLParseError (invalid_coordinates_msg ring cause).

(** An inner or outer boundary without a LinearRing child. *)
Definition lacks_ring (ns : string) (boundary : Element) : Prop :=
  find (ns +:+ "LinearRing") boundary = None.

(** The LinearRing elements of the inner boundaries that come before the
    first inner boundary without one, in document order: the inner rings
    decoded before the missing one is found. *)
Fixpoint rings_before_missing (ns : string) (inner_boundaries : list Element)
    : list Element :=
  match inner_boundaries with
  | [] => []
  | inner_boundary :: rest =>
      match find (ns +:+ "LinearRing") inner_boundary with
      | Some inner_ring => inner_ring :: rings_before_missing ns rest
      | None => []
      end
  end.

(** Strict decoding of a ring element returns. *)
Definition decodes_strictly (ns : string) (ring : Element) : Prop :=
  ∃ r, outcome (LinearRing._get_geometry (F:=F) ns ring true) = inr r.

(** The spec's sentence on an inner boundary without a LinearRing: the
    error that names the missing piece, "in both strict and non-strict
    mode". *)
Definition spec_missing_inner_ring_is_named : Prop :=
  ∀ ns element strict outer_boundary outer_ring,
    find (ns +:+ "outerBoundaryIs") element = Some outer_boundary →
    find (ns +:+ "LinearRing") outer_boundary = Some outer_ring →
    Exists (lacks_ring ns) (findall (ns +:+ "innerBoundaryIs") element) →
    outcome (Polygon._get_geometry (F:=F) ns element strict)
    = inl (missing_exn "LinearRing" element).

(** [g._get_geometry(ns=ns, element=e, strict=strict)] for a class [g]
    of [allowed_geometries]. *)
Definition class_get_geometry (ns : string) (strict : bool) (g : kml_class)
    (e : Element) : M (option (geo.Geometry F)) :=
  match g with
  | KMultiGeometry => MultiGeometry._get_geometry ns e strict
  | KPoint | KLineString => _Geometry._get_geometry ns e strict
  | KPolygon => Polygon._get_geometry ns e strict
  | KLinearRing => LinearRing._get_geometry ns e strict
  end.

(** The group of one tag: the children with the tag of [g], decoded in
    document order, the results that are not null kept. *)
Definition decode_group (ns : string) (strict : bool) (element : Element)
    (g : kml_class) : M (list (geo.Geometry F)) :=
  rs ← mapM_M (class_get_geometry ns strict g)
        (findall (ns +:+ __name__ g) element);
  mret (omap id rs).

(** The groups of the tags of [order], concatenated in that order and
    handed to [create_multigeometry]. *)
Definition grouped_decode (order : list kml_class) (ns : string)
    (element : Element) (strict : bool) : M (option (geo.Geometry F)) :=
  groups ← mapM_M (decode_group ns strict element) order;
  mret (create_multigeometry (concat groups)).

(** The preference order as the spec gives it. *)
Definition spec_preference_order : list kml_class :=
  [KMultiGeometry; KPoint; KLineString; KPolygon].
(** [geom_types] of [create_multigeometry]: the set of the members'
    kinds. *)
Definition geom_types_of (geometries : list (geo.Geometry F)) : gset string :=
  list_to_set (geo.geom_type <$> geometries).

(** The exception of the encoder for a first tuple that has neither 2 nor
    3 fields. *)
Definition dimension_error (coords : list (list F)) : exn :=
  Exn KMLWriteError
    ("Invalid dimensions in coordinates '" +:+ py_repr coords +:+ "'").

(** The spec's sentence on mixed sequences: a sequence that holds a
    2-tuple and a 3-tuple "always fails" with the dimension error. *)
Definition spec_mixed_arity_is_rejected : Prop :=
  ∀ (obj : @Coordinates F) element precision c2 c3,
    c2 ∈ coords obj → c3 ∈ coords obj →
    length c2 = 2%nat → length c3 = 3%nat →
    ∃ lg msg, coordinates_subelement obj element precision
                = (lg, inl (Exn KMLWriteError msg)).

(** The exception of the two construction paths used at once. *)
Definition mutually_exclusive : exn :=
  Exn ValueError "geometry and kml_coordinates are mutually exclusive".

(** [y] is the number [float] reads from the text the encoder writes for
    [x] at precision [p], a text that is a clean field. *)
Definition rounds_to (p : Z) (x y : F) : Prop :=
  ∃ s, format_f p x = inr s ∧ clean_field s = true ∧ py_float s = inr y.

Definition coords_round_to (p : Z) (cs cs' : list (list F)) : Prop :=
  Forall2 (Forall2 (rounds_to p)) cs cs'.

(** A sequence that is not empty and whose tuples all have 2 fields, or
    all have 3. *)
Definition uniform (cs : list (list F)) : Prop :=
  cs ≠ [] ∧ ∃ n, (n = 2 ∨ n = 3)%nat ∧ Forall (fun c => length c = n) cs.

(** The format of one tuple of a sequence whose first tuple has [n]
    fields. *)
Definition format_nd (n : nat) (p : Z) (c : list F) : M string :=
  if (n =? 2)%nat then format_2d p c else format_3d p c.
(** A ring that encodes, and whose rounded coordinates the ring
    constructor accepts as they are. *)
Definition ring_round_trips (p : Z) (cs cs' : list (list F)) : Prop :=
  uniform cs ∧ coords_round_to p cs cs' ∧
  LinearRing_from_coordinates cs' = inr cs'.

Definition polygon_round_trips (p : Z) (g g' : geo.Geometry F) : Prop :=
  match g, g' with
  | geo.Polygon exterior interiors, geo.Polygon exterior' interiors' =>
      ring_round_trips p exterior exterior' ∧
      Forall2 (ring_round_trips p) interiors interiors'
  | _, _ => False
  end.

(** The values the round trip is proved for, with what they decode to. *)
Inductive round_trips (p : Z) : geo.Geometry F → geo.Geometry F → Prop :=
  | round_trips_ring cs cs' :
    ring_round_trips p cs cs' →
    round_trips p (geo.LinearRing cs) (geo.LinearRing cs')
  | round_trips_polygon g g' :
    polygon_round_trips p g g' → round_trips p g g'
  | round_trips_multi_polygon gs gs' :
    gs ≠ [] → Forall2 (polygon_round_trips p) gs gs' →
    round_trips p (geo.MultiPolygon gs) (geo.MultiPolygon gs').

(** [create_kml_geometry(geometry).etree_element(precision=precision)] *)
Definition encode (geometry : geo.Geometry F) (precision : option Z)
    : M Element :=
  w ← create_kml_geometry geometry None None None None;
  etree_element w precision.

(** The decoder of the class of the wrapper of [geometry], applied to
    [element] in the default namespace. *)
Definition decode_as (geometry : geo.Geometry F) (element : Element)
    (strict : bool) : M (option (geo.Geometry F)) :=
  class_get_geometry KMLNS strict (MultiGeometry._map_to_kml geometry) element.
(** The elements the encoder builds, in the default namespace: of a ring
    with coordinate text [t], of a boundary, of a polygon and of a
    multi-geometry. *)
Definition ring_markup (t : string) : Element :=
  Elem (KMLNS +:+ "LinearRing") None
    [Elem (KMLNS +:+ "coordinates") (Some t) []].

Definition boundary_markup (name t : string) : Element :=
  Elem (KMLNS +:+ name) None [ring_markup t].

Definition polygon_markup (t : string) (ts : list string) : Element :=
  Elem (KMLNS +:+ "Polygon") None
    (boundary_markup "outerBoundaryIs" t ::
     (boundary_markup "innerBoundaryIs" <$> ts)).

Definition multi_markup (ms : list Element) : Element :=
  Elem (KMLNS +:+ "MultiGeometry") None ms.


(** Two values of one kind, each coordinate field of the second the
    rounding of the field of the first: "equal up to rounding". *)
#[local] Unset Elimination Schemes.
Inductive same_up_to_rounding (p : Z)
    : geo.Geometry F → geo.Geometry F → Prop :=
  | same_point c c' :
    Forall2 (rounds_to p) c c' →
    same_up_to_rounding p (geo.Point c) (geo.Point c')
  | same_line_string cs cs' :
    coords_round_to p cs cs' →
    same_up_to_rounding p (geo.LineString cs) (geo.LineString cs')
  | same_linear_ring cs cs' :
    coords_round_to p cs cs' →
    same_up_to_rounding p (geo.LinearRing cs) (geo.LinearRing cs')
  | same_polygon exterior exterior' interiors interiors' :
    coords_round_to p exterior exterior' →
    Forall2 (coords_round_to p) interiors interiors' →
    same_up_to_rounding p (geo.Polygon exterior interiors)
      (geo.Polygon exterior' interiors')
  | same_multi_point gs gs' :
    Forall2 (same_up_to_rounding p) gs gs' →
    same_up_to_rounding p (geo.MultiPoint gs) (geo.MultiPoint gs')
  | same_multi_line_string gs gs' :
    Forall2 (same_up_to_rounding p) gs gs' →
    same_up_to_rounding p (geo.MultiLineString gs) (geo.MultiLineString gs')
  | same_multi_polygon gs gs' :
    Forall2 (same_up_to_rounding p) gs gs' →
    same_up_to_rounding p (geo.MultiPolygon gs) (geo.MultiPolygon gs')
  | same_geometry_collection gs gs' :
    Forall2 (same_up_to_rounding p) gs gs' →
    same_up_to_rounding p (geo.GeometryCollection gs)
      (geo.GeometryCollection gs').
#[local] Set Elimination Schemes.

(** Modelled from the spec: the valid Geometry Values of its data model.
    A tuple has 2 or 3 fields and the tuples of a sequence the same
    number; a LineString has at least 2 tuples, a LinearRing at least 4,
    the first equal to the last; the rings of a Polygon are valid; the
    members of a multi-geometry are valid, and of the kind of the
    container when it is homogeneous. *)
Definition valid_sequence (least : nat) (cs : list (list F)) : Prop :=
  (least ≤ length cs)%nat ∧
  (Forall (fun c => length c = 2%nat) cs ∨
   Forall (fun c => length c = 3%nat) cs).

Definition valid_ring (cs : list (list F)) : Prop :=
  valid_sequence 4 cs ∧ head cs = last cs.

Fixpoint valid_value (g : geo.Geometry F) : Prop :=
  let all_valid :=
    fix all_valid (kind : option string) (gs : list (geo.Geometry F)) : Prop :=
      match gs with
      | [] => True
      | g :: gs' =>
          valid_value g ∧
          (match kind with
           | Some k => geo.geom_type g = k
           | None => True
           end) ∧ all_valid kind gs'
      end in
  match g with
  | geo.Point c => length c = 2%nat ∨ length c = 3%nat
  | geo.LineString cs => valid_sequence 2 cs
  | geo.LinearRing cs => valid_ring cs
  | geo.Polygon exterior interiors =>
      valid_ring exterior ∧ Forall valid_ring interiors
  | geo.MultiPoint gs => all_valid (Some "Point") gs
  | geo.MultiLineString gs => all_valid (Some "LineString") gs
  | geo.MultiPolygon gs => all_valid (Some "Polygon") gs
  | geo.GeometryCollection gs => all_valid None gs
  end.

(** The spec's round trip, for the values whose wrapper [_get_geometry]
    decodes: decoding the encoding of a valid value yields a value equal
    to it up to rounding. *)
Definition spec_round_trip : Prop :=
  ∀ precision strict g,
    valid_value g →
    ∃ g', outcome (e ← encode g precision; decode_as g e strict)
            = inr (Some g') ∧
          same_up_to_rounding (default 6%Z precision) g g'.

End SpecStatements.

(** ** Notions used to state further properties *)

(** A text of nothing but whitespace, the empty text included. *)
Fixpoint blank (s : string) : bool :=
  match s with
  | EmptyString => true
  | String c s' => PyStr.isspace c && blank s'
  end.

(** The classes of exceptions that [LinearRing._get_geometry] handles. *)
Definition ring_decoder_handles (e : exn) : Prop :=
  exn_type e ∈ [IndexError; TypeError; DimensionError].

(** The pieces whose absence [Polygon._get_geometry] reports. *)
Definition required_pieces : list string := ["outerBoundaryIs"; "LinearRing"].

(** A decoded ring that is a LinearRing with at least one point. *)
Definition nonempty_ring {F} (h : geo.Geometry F) : Prop :=
  ∃ r, h = geo.LinearRing r ∧ r ≠ [].

(** Whenever [m] returns a value, it has logged nothing and [m'] returns
    the same value, silently. *)
Definition succeeds_alike {A} (m m' : M A) : Prop :=
  ∀ lg v, m = (lg, inr v) → lg = [] ∧ m' = ([], inr v).

(** Every exception [m] raises satisfies [P]. *)
Definition raises_only {A} (P : exn → Prop) (m : M A) : Prop :=
  ∀ lg e, m = (lg, inl e) → P e.

(** The exceptions of the geometry decoders: a [KMLParseError], which when
    decoding is not strict reports a missing piece of a Polygon. *)
Definition decode_error `{!Config} (strict : bool) (e : exn) : Prop :=
  exn_type e = KMLParseError ∧
  (strict = false →
   ∃ what polygon, what ∈ required_pieces ∧ e = missing_exn what polygon).

(** The boundary element that [Polygon.etree_element] appends for the
    element [r] of a ring. *)
Definition boundary (ns name : string) (r : Element) : Element :=
  Elem (ns +:+ name) None [r].

(** The element [MultiGeometry.etree_element] appends for a member: that
    of the wrapper of the class [_map_to_kml] gives for the member, built
    in the namespace of the container and without rendering hints. *)
Definition member_element {F} `{!PyFloat F} `{!Config} (ns : string)
    (precision : option Z) (g : geo.Geometry F) : M Element :=
  match MultiGeometry._map_to_kml g with
  | KMultiGeometry =>
      MultiGeometry.etree_element
        (MultiGeometry.__init__ (Some ns) None None None g) precision
  | KPoint =>
      w ← Point.__init__ (Some ns) None None None (Some g) None;
      _Geometry.etree_element w precision
  | KLineString =>
      w ← LineString.__init__ KLineString (Some ns) None None None (Some g)
            None;
      _Geometry.etree_element w precision
  | KLinearRing =>
      w ← LinearRing.__init__ (Some ns) None None None (Some g) None;
      _Geometry.etree_element w precision
  | KPolygon =>
      Polygon.etree_element (Polygon.__init__ (Some ns) None None None g)
        precision
  end.

(** ** Example data

    The values and elements the claims are run on, with the decimal
    floats, the model of the constructors and the sample serialiser. *)

(** A tag in the default namespace. *)
Definition kml (name : string) : string :=
  "{http://www.opengis.net/kml/2.2}" +:+ name.

(** The sloppy coordinate text of the spec. *)
Definition sloppy : Element :=
  Elem (kml "coordinates") (Some "1.0, 2.0 3.0,4.0") [].

(** Sequences that mix a 2-tuple and a 3-tuple. *)
Definition mixed_2_then_3 : @Coordinates Q :=
  mkCoordinates KMLNS [[1; 2]; [3; 4; 5]]%Q.

Definition mixed_3_then_2 : @Coordinates Q :=
  mkCoordinates KMLNS [[1; 2; 3]; [4; 5]]%Q.

(** A LinearRing element with the given coordinate text, and a Polygon
    element with the given boundaries. *)
Definition ring_element (t : string) : Element :=
  Elem (kml "LinearRing") None [Elem (kml "coordinates") (Some t) []].

Definition polygon_element (outer : list Element) (inner : list (list Element))
    : Element :=
  Elem (kml "Polygon") None
    (Elem (kml "outerBoundaryIs") None outer ::
     map (Elem (kml "innerBoundaryIs") None) inner).

(** Two closed rings and the polygon of the first with the second as a
    hole. *)
Definition square : list (list Q) := [[0; 0]; [1; 0]; [1; 1]; [0; 0]]%Q.
Definition small_square : list (list Q) :=
  [[1 # 10; 1 # 10]; [1 # 5; 1 # 10]; [1 # 5; 1 # 5]; [1 # 10; 1 # 10]]%Q.

Definition square_with_hole : geo.Geometry Q :=
  geo.Polygon square [small_square].

(** A multi-geometry element with a LinearRing child, and a collection of
    two polygons. *)
Definition ring_in_multi_geometry : Element :=
  Elem (kml "MultiGeometry") None [ring_element "0,0 1,0 1,1 0,0"].

Definition two_squares : geo.Geometry Q :=
  geo.GeometryCollection [geo.Polygon square []; geo.Polygon square []].

(** ** The computation monad *)

Section MonadFacts.
Context {A B : Type}.

Lemma bind_ret (x : A) (f : A → M B) : (mret x ≫= f) = f x.
Proof. unfold mbind, M_bind, mret, M_ret. by destruct (f x). Qed.

Lemma bind_raise (e : exn) (f : A → M B) : (raise e ≫= f) = raise e.
Proof. reflexivity. Qed.

Lemma bind_silent (m : M A) (x : A) (f : A → M B) :
  m = ([], inr x) → (m ≫= f) = f x.
Proof. intros ->. apply bind_ret. Qed.

Lemma bind_outcome_inl (m : M A) (f : A → M B) l e :
  m = (l, inl e) → (m ≫= f) = (l, inl e).
Proof. by intros ->. Qed.

Lemma bind_outcome_inr (m : M A) (f : A → M B) l x :
  m = (l, inr x) → (m ≫= f) = (l ++ logged (f x), outcome (f x)).
Proof. intros ->. unfold mbind, M_bind. by destruct (f x). Qed.

End MonadFacts.

Section MapM.
Context {A B : Type} (f : A → M B).

(** A comprehension whose every element evaluates silently. *)
Lemma mapM_M_ok (l : list A) (ys : list B) :
  Forall2 (fun x y => f x = ([], inr y)) l ys →
  mapM_M f l = ([], inr ys).
Proof.
  induction 1 as [|x y l ys Hx _ IH]; [reflexivity|].
  cbn [mapM_M]. rewrite (bind_silent _ _ _ Hx), (bind_silent _ _ _ IH).
  reflexivity.
Qed.

(** A comprehension over silent elements stops at the first that
    raises. *)
Lemma mapM_M_first_error (l : list A) :
  Forall (fun x => ∃ r, f x = ([], r)) l →
  Exists (fun x => ∃ e, f x = ([], inl e)) l →
  ∃ x e, x ∈ l ∧ f x = ([], inl e) ∧ mapM_M f l = ([], inl e).
Proof.
  induction l as [|x l IH]; intros Hs Hex; [by inversion Hex|].
  inversion_clear Hs as [|? ? [r Hr] Hs'].
  destruct r as [e|y].
  - exists x, e. split; [by left|]. split; [done|].
    cbn [mapM_M]. by rewrite Hr.
  - inversion_clear Hex as [? ? [e He]|? ? Hex']; [congruence|].
    destruct (IH Hs' Hex') as (x' & e & Hin & Hx' & Hm).
    exists x', e. split; [by right|]. split; [done|].
    cbn [mapM_M]. rewrite (bind_silent _ _ _ Hr). by rewrite Hm.
Qed.

End MapM.

Section MapMSilent.
Context {A B : Type} (f : A → M B).

Lemma mapM_M_silent (l : list A) :
  Forall (fun x => ∃ r, f x = ([], r)) l → ∃ r, mapM_M f l = ([], r).
Proof.
  induction 1 as [|x l [r Hr] _ [rs IH]]; [by eexists|].
  cbn [mapM_M]. destruct r as [e|y]; [rewrite Hr; by eexists|].
  rewrite (bind_silent _ _ _ Hr), IH. destruct rs as [e|ys]; by eexists.
Qed.

(** The exception of a comprehension is the exception of one of its
    elements. *)
Lemma mapM_M_error_inv (l : list A) lg e :
  mapM_M f l = (lg, inl e) → ∃ x lg', x ∈ l ∧ f x = (lg', inl e).
Proof.
  revert lg. induction l as [|x l IH]; intros lg; [discriminate|].
  cbn [mapM_M]. destruct (f x) as [l1 [e1|y]] eqn:Hx.
  - intros [= <- <-]. exists x, l1. split; [by left|done].
  - unfold mbind at 1, M_bind at 1.
    destruct (mapM_M f l) as [l2 [e2|ys]] eqn:Hl; cbn.
    + intros [= <- <-]. destruct (IH _ eq_refl) as (x' & lg' & ? & ?).
      exists x', lg'. split; [by right|done].
    + discriminate.
Qed.

End MapMSilent.

(** ** Parsing coordinate text *)

Section ParseFacts.
Context {F : Type} {Fl : PyFloat F} {Cf : Config}.

Lemma parse_tuple_silent (latlon : string) :
  ∃ r, parse_tuple (F:=F) latlon = ([], r).
Proof.
  apply mapM_M_silent, Forall_forall. intros c _.
  destruct (py_float c); by eexists.
Qed.

Lemma parse_tuple_ok (latlon : string) (c : list F) :
  Forall2 (fun fld x => py_float fld = inr x) (PyStr.split_on "," latlon) c →
  parse_tuple latlon = ([], inr c).
Proof.
  intros H. apply mapM_M_ok.
  eapply Forall2_impl; [exact H|]. by intros fld x ->.
Qed.

Lemma parse_tuple_error_inv (latlon : string) lg e :
  parse_tuple (F:=F) latlon = (lg, inl e) →
  ∃ c msg, c ∈ PyStr.split_on "," latlon ∧ py_float (F:=F) c = inl msg ∧
           e = Exn ValueError msg.
Proof.
  intros H. apply mapM_M_error_inv in H as (c & lg' & Hin & Hc).
  exists c. destruct (py_float c) as [msg|x]; [|discriminate].
  exists msg. by inversion Hc.
Qed.

Lemma parse_tuple_error (latlon : string) :
  (∃ c msg, c ∈ PyStr.split_on "," latlon ∧ py_float (F:=F) c = inl msg) →
  ∃ e, parse_tuple (F:=F) latlon = ([], inl e).
Proof.
  intros (c & msg & Hin & Hc).
  destruct (mapM_M_first_error
    (fun c => match py_float (F:=F) c with
              | inl msg => raise (Exn ValueError msg)
              | inr x => mret x
              end) (PyStr.split_on "," latlon)) as (c' & e & Hin' & He & Hm).
  - apply Forall_forall. intros x _. destruct (py_float x); by eexists.
  - apply Exists_exists. exists c. split; [done|]. rewrite Hc. by eexists.
  - by exists e.
Qed.

Lemma parse_sequence_ok (latlons : list string) (cs : list (list F)) :
  Forall2 (fun latlon c =>
             Forall2 (fun fld x => py_float fld = inr x)
               (PyStr.split_on "," latlon) c) latlons cs →
  mapM_M parse_tuple latlons = ([], inr cs).
Proof.
  intros H. apply mapM_M_ok.
  eapply Forall2_impl; [exact H|]. intros. by apply parse_tuple_ok.
Qed.

(** A text with a field that is not numeric: the comprehension raises
    the [ValueError] of one such field. *)
Lemma parse_sequence_error (latlons : list string) :
  (∃ latlon c msg, latlon ∈ latlons ∧ c ∈ PyStr.split_on "," latlon ∧
                   py_float (F:=F) c = inl msg) →
  ∃ latlon c msg, latlon ∈ latlons ∧ c ∈ PyStr.split_on "," latlon ∧
    py_float (F:=F) c = inl msg ∧
    mapM_M (parse_tuple (F:=F)) latlons = ([], inl (Exn ValueError msg)).
Proof.
  intros (latlon & c & msg & Hin & Hc & Hmsg).
  destruct (mapM_M_first_error (parse_tuple (F:=F)) latlons)
    as (latlon' & e & Hin' & He & Hm).
  - apply Forall_forall. intros x _. apply parse_tuple_silent.
  - apply Exists_exists. exists latlon. split; [done|].
    apply parse_tuple_error. eauto.
  - destruct (parse_tuple_error_inv _ _ _ He) as (c' & msg' & ? & ? & ->).
    by exists latlon', c', msg'.
Qed.

Lemma latlons_of_text (t : string) :
  latlons_of (Some t) = ([], inr (tokens t)).
Proof. reflexivity. Qed.

Lemma subelement_coordinates_kwarg_text element t kwarg strict :
  text element = Some t →
  subelement_coordinates_kwarg (F:=F) element kwarg strict =
    try_except
      (cs ← mapM_M parse_tuple (tokens t); mret {[ kwarg := cs ]})
      [ValueError]
      (fun error =>
         _ ← handle_invalid_geometry_error error element strict;
         mret ∅).
Proof.
  intros Ht. unfold subelement_coordinates_kwarg. rewrite Ht, latlons_of_text.
  unfold try_except_else. by destruct (try_except _ _ _).
Qed.

Lemma get_coordinates_text ns element coordinates t strict :
  find (ns +:+ "coordinates") element = Some coordinates →
  text coordinates = Some t →
  _get_coordinates (F:=F) ns element strict =
    try_except (mapM_M parse_tuple (tokens t)) [ValueError]
      (fun error =>
         _ ← handle_invalid_geometry_error error element strict;
         mret []).
Proof.
  intros Hf Ht. unfold _get_coordinates. rewrite Hf, Ht, latlons_of_text.
  unfold try_except_else. by destruct (try_except _ _ _).
Qed.

Lemma handle_invalid_strict error element :
  handle_invalid_geometry_error error element true =
    ([invalid_coordinates_msg element (exn_str error)],
     inl (Exn KMLParseError
            (invalid_coordinates_msg element (exn_str error)))).
Proof. reflexivity. Qed.

Lemma handle_invalid_lenient error element :
  handle_invalid_geometry_error error element false =
    ([invalid_coordinates_msg element (exn_str error)], inr tt).
Proof. reflexivity. Qed.

End ParseFacts.

Section ParseInversion.
Context {A B : Type} (f : A → M B).

Lemma mapM_M_ok_inv (l : list A) lg (ys : list B) :
  mapM_M f l = (lg, inr ys) →
  Forall2 (fun x y => ∃ lg', f x = (lg', inr y)) l ys.
Proof.
  revert lg ys. induction l as [|x l IH]; intros lg ys.
  - intros [= <- <-]. constructor.
  - cbn [mapM_M]. destruct (f x) as [l1 [e1|y]] eqn:Hx; [discriminate|].
    unfold mbind at 1, M_bind at 1.
    destruct (mapM_M f l) as [l2 [e2|ys']] eqn:Hl; cbn; [discriminate|].
    intros [= <- <-]. constructor; [by eexists|]. by eapply IH.
Qed.

End ParseInversion.

Section CodecClaims.
Context {F : Type} {Fl : PyFloat F} {Cf : Config}.

Lemma parse_tuple_ok_inv (latlon : string) lg (c : list F) :
  parse_tuple latlon = (lg, inr c) →
  Forall2 (fun fld x => py_float fld = inr x) (PyStr.split_on "," latlon) c.
Proof.
  intros H. apply mapM_M_ok_inv in H.
  eapply Forall2_impl; [exact H|]. intros fld x [lg' Hx]. cbn in Hx.
  destruct (py_float fld); [discriminate|]. by inversion Hx.
Qed.

Lemma split_on_nonempty sep s : PyStr.split_on sep s ≠ [].
Proof.
  destruct s as [|c s]; [done|]. cbn.
  destruct (Ascii.eqb c sep); [done|]. by destruct (PyStr.split_on sep s).
Qed.

(** C10: when the coordinates child of an element is present but has no
    text, decoding yields an empty coordinate sequence, logs nothing and
    raises nothing, whatever [strict] is; this is the outcome for an
    element [absent] that has no coordinates child at all. *)
Theorem coordinates_without_text_decode_to_nothing
    (ns kwarg : string) (element coordinates absent : Element)
    (strict : bool) :
  find (ns +:+ "coordinates") element = Some coordinates →
  text coordinates = None →
  find (ns +:+ "coordinates") absent = None →
  subelement_coordinates_kwarg (F:=F) coordinates kwarg strict
    = ([], inr ∅) ∧
  _get_coordinates (F:=F) ns element strict = ([], inr []) ∧
  _get_coordinates (F:=F) ns element strict
    = _get_coordinates ns absent strict.
Proof.
  intros Hfind Htext Habsent.
  assert (_get_coordinates (F:=F) ns element strict = ([], inr [])) as He.
  { unfold _get_coordinates. by rewrite Hfind, Htext. }
  repeat split.
  - unfold subelement_coordinates_kwarg. by rewrite Htext.
  - exact He.
  - rewrite He. unfold _get_coordinates. by rewrite Habsent.
Qed.

(** C3: when the text of a coordinates element has a field that [float]
    refuses, decoding with [strict = true] logs and raises the
    [KMLParseError] whose message holds the serialised element and the
    message of the [ValueError] of such a field; decoding with
    [strict = false] raises nothing, logs that message and yields no
    coordinates. *)
Theorem non_numeric_field_raises_when_strict_else_logs
    (element : Element) (t kwarg : string) :
  text element = Some t →
  has_non_numeric_field (F:=F) t →
  ∃ latlon c cause,
    latlon ∈ tokens t ∧ c ∈ PyStr.split_on "," latlon ∧
    py_float (F:=F) c = inl cause ∧
    subelement_coordinates_kwarg (F:=F) element kwarg true
      = ([invalid_coordinates_msg element cause],
         inl (Exn KMLParseError (invalid_coordinates_msg element cause))) ∧
    subelement_coordinates_kwarg (F:=F) element kwarg false
      = ([invalid_coordinates_msg element cause], inr ∅).
Proof.
  intros Ht Hbad.
  destruct (parse_sequence_error (tokens t) Hbad)
    as (latlon & c & cause & Hl & Hc & Hf & Hm).
  exists latlon, c, cause. repeat split; try done.
  - rewrite (subelement_coordinates_kwarg_text _ _ _ _ Ht), Hm. reflexivity.
  - rewrite (subelement_coordinates_kwarg_text _ _ _ _ Ht), Hm. reflexivity.
Qed.

(** Numeric fields throughout: both decoders return their values. *)
Lemma fields_parse_to_kwarg element t kwarg strict (cs : list (list F)) :
  text element = Some t → fields_parse_to t cs →
  subelement_coordinates_kwarg element kwarg strict
    = ([], inr {[ kwarg := cs ]}).
Proof.
  intros Htext Hcs.
  rewrite (subelement_coordinates_kwarg_text _ _ _ _ Htext).
  by rewrite (parse_sequence_ok _ _ Hcs).
Qed.

Lemma fields_parse_to_coordinates ns element coordinates t strict
    (cs : list (list F)) :
  find (ns +:+ "coordinates") element = Some coordinates →
  text coordinates = Some t → fields_parse_to t cs →
  _get_coordinates ns element strict = ([], inr cs).
Proof.
  intros Hfind Htext Hcs.
  rewrite (get_coordinates_text _ _ _ _ _ Hfind Htext).
  by rewrite (parse_sequence_ok _ _ Hcs).
Qed.

(** C8 (amended): coordinate text is parsed by normalising every comma
    followed by spaces to a bare comma and splitting on runs of
    whitespace; decoding succeeds, in both modes and without logging,
    exactly when every comma-separated field of every token is numeric,
    and then each tuple has one field per comma-separated field of its
    token: at least one, with no check that there are 2 or 3. *)
Theorem coordinate_text_is_normalised_then_split
    (ns kwarg t : string) (element coordinates : Element) (strict : bool)
    (cs : list (list F)) :
  find (ns +:+ "coordinates") element = Some coordinates →
  text coordinates = Some t →
  (fields_parse_to t cs ↔
     subelement_coordinates_kwarg coordinates kwarg strict
       = ([], inr {[ kwarg := cs ]})) ∧
  (fields_parse_to t cs →
     _get_coordinates ns element strict = ([], inr cs) ∧
     Forall2 (fun latlon c =>
                length c = length (PyStr.split_on "," latlon) ∧
                (1 ≤ length c)%nat) (tokens t) cs).
Proof.
  intros Hfind Htext. split; [split|].
  - intros Hcs. by apply (fields_parse_to_kwarg _ t).
  - rewrite (subelement_coordinates_kwarg_text _ _ _ _ Htext).
    destruct (mapM_M parse_tuple (tokens t)) as [lg [e|cs']] eqn:Hm.
    + cbn. case_bool_decide.
      * destruct strict; cbn; intros Heq; apply (f_equal fst) in Heq;
          cbn in Heq; by apply app_eq_nil in Heq as [_ ?].
      * intros Heq. apply (f_equal snd) in Heq. discriminate.
    + cbn. intros Heq. apply (f_equal snd) in Heq. cbn in Heq.
      apply (inj inr) in Heq.
      assert (cs' = cs) as ->.
      { apply (f_equal (fun m : gmap string (list (list F)) => m !! kwarg))
          in Heq.
        rewrite !lookup_singleton_eq in Heq. by inversion Heq. }
      apply mapM_M_ok_inv in Hm.
      eapply Forall2_impl; [exact Hm|].
      intros latlon c [lg' Hp]. by eapply parse_tuple_ok_inv.
  - intros Hcs. split.
    + by apply (fields_parse_to_coordinates _ _ coordinates t).
    + eapply Forall2_impl; [exact Hcs|]. intros latlon c Hc.
      pose proof (Forall2_length _ _ _ Hc) as Hlen.
      pose proof (split_on_nonempty "," latlon).
      destruct (PyStr.split_on "," latlon); [done|].
      cbn in Hlen. split; [done|lia].
Qed.

End CodecClaims.

(** ** The kind dispatcher *)

Section Dispatcher.
Context {F : Type}.
Implicit Types geometries : list (geo.Geometry F).

Lemma geom_types_all_same geometries k :
  geometries ≠ [] → Forall (fun g => geo.geom_type g = k) geometries →
  geom_types_of geometries = {[ k ]}.
Proof.
  intros Hne Hall. unfold geom_types_of.
  induction Hall as [|g gs Hg Hall IH]; [done|].
  cbn. rewrite Hg. destruct gs as [|g' gs].
  - cbn. by rewrite (right_id_L ∅ (∪)).
  - rewrite IH by done. by rewrite (idemp_L (∪)).
Qed.

Lemma geom_types_singleton_inv geometries k :
  geom_types_of geometries = {[ k ]} →
  Forall (fun g => geo.geom_type g = k) geometries.
Proof.
  intros Hs. apply Forall_forall. intros g Hg.
  assert (geo.geom_type g ∈ geom_types_of geometries) as Hin.
  { unfold geom_types_of. apply elem_of_list_to_set, list_elem_of_fmap. eauto. }
  rewrite Hs in Hin. set_solver.
Qed.

Lemma geom_types_empty geometries :
  geom_types_of geometries = ∅ ↔ geometries = [].
Proof.
  split; [|by intros ->].
  destruct geometries as [|g gs]; [done|]. unfold geom_types_of. cbn.
  intros Hs.
  assert (geo.geom_type g ∈ (∅ : gset string)) by (rewrite <- Hs; set_solver).
  set_solver.
Qed.

(** Members of one kind [k]: the constructor registered for [k], if any. *)
Lemma create_multigeometry_same geometries k :
  geometries ≠ [] → Forall (fun g => geo.geom_type g = k) geometries →
  create_multigeometry geometries =
    Some (if decide (k = "Point") then geo.MultiPoint geometries
          else if decide (k = "LineString") then geo.MultiLineString geometries
          else if decide (k = "Polygon") then geo.MultiPolygon geometries
          else geo.GeometryCollection geometries).
Proof.
  intros Hne Hall. unfold create_multigeometry.
  fold (geom_types_of geometries).
  rewrite (geom_types_all_same _ _ Hne Hall).
  rewrite bool_decide_eq_false_2 by set_solver.
  rewrite size_singleton, bool_decide_eq_true_2 by done.
  rewrite elements_singleton. cbn.
  repeat (case_decide; cbn; try done; try congruence).
Qed.

Lemma create_multigeometry_mixed geometries :
  geometries ≠ [] →
  (∀ k, ¬ Forall (fun g => geo.geom_type g = k) geometries) →
  create_multigeometry geometries = Some (geo.GeometryCollection geometries).
Proof.
  intros Hne Hmix. unfold create_multigeometry.
  fold (geom_types_of geometries).
  rewrite bool_decide_eq_false_2 by (by rewrite geom_types_empty).
  case_bool_decide as Hsz; [|done].
  apply size_1_elem_of in Hsz as [k Hk]. apply leibniz_equiv in Hk.
  destruct (Hmix k). by apply geom_types_singleton_inv.
Qed.

(** C5: [create_multigeometry] returns nothing for an empty list of
    members; for members that all are Points (LineStrings, Polygons) the
    MultiPoint (MultiLineString, MultiPolygon) of the members in their
    order; in every other case, mixed kinds or one kind outside the three,
    the GeometryCollection of the members in their order. *)
Theorem create_multigeometry_resolves_collection geometries :
  (geometries = [] → create_multigeometry geometries = None) ∧
  (geometries ≠ [] →
   Forall (fun g => geo.geom_type g = "Point") geometries →
   create_multigeometry geometries = Some (geo.MultiPoint geometries)) ∧
  (geometries ≠ [] →
   Forall (fun g => geo.geom_type g = "LineString") geometries →
   create_multigeometry geometries = Some (geo.MultiLineString geometries)) ∧
  (geometries ≠ [] →
   Forall (fun g => geo.geom_type g = "Polygon") geometries →
   create_multigeometry geometries = Some (geo.MultiPolygon geometries)) ∧
  (geometries ≠ [] →
   (∀ k, k ∈ ["Point"; "LineString"; "Polygon"] →
         ¬ Forall (fun g => geo.geom_type g = k) geometries) →
   create_multigeometry geometries
     = Some (geo.GeometryCollection geometries)).
Proof.
  split; [by intros ->|].
  split; [intros Hne Hall; by rewrite (create_multigeometry_same _ _ Hne Hall)|].
  split; [intros Hne Hall; by rewrite (create_multigeometry_same _ _ Hne Hall)|].
  split; [intros Hne Hall; by rewrite (create_multigeometry_same _ _ Hne Hall)|].
  intros Hne Hnot. destruct geometries as [|g gs]; [done|].
  destruct (decide (Forall (fun g' => geo.geom_type g' = geo.geom_type g)
                      (g :: gs))) as [Hall|Hmix].
  - rewrite (create_multigeometry_same _ _ Hne Hall).
    repeat case_decide; try done;
      exfalso; eapply Hnot; try exact Hall; set_solver.
  - apply create_multigeometry_mixed; [done|]. intros k Hk. apply Hmix.
    inversion Hk; by subst.
Qed.

End Dispatcher.

(** ** Construction of the wrappers *)

Section Construction.
Context {F : Type} {Fl : PyFloat F} {Cf : Config}.

(** C9: constructing a Point, LineString or LinearRing wrapper with both a
    geometry and a [kml_coordinates] object raises the [ValueError] of the
    mutual exclusion; with one of the two, or neither, the construction
    succeeds, and a given [kml_coordinates] object is the wrapper's. *)
Theorem geometry_and_kml_coordinates_are_mutually_exclusive
    (ns : option string) (extrude tessellate : option bool)
    (altitude_mode : option AltitudeMode)
    (geometry : option (geo.Geometry F)) (obj : option (@Coordinates F)) :
  (is_Some geometry ∧ is_Some obj →
   Point.__init__ ns extrude tessellate altitude_mode geometry obj
     = raise mutually_exclusive ∧
   LineString.__init__ KLineString ns extrude tessellate altitude_mode
     geometry obj = raise mutually_exclusive ∧
   LinearRing.__init__ ns extrude tessellate altitude_mode geometry obj
     = raise mutually_exclusive) ∧
  (¬ (is_Some geometry ∧ is_Some obj) →
   ∃ point line ring,
     Point.__init__ ns extrude tessellate altitude_mode geometry obj
       = mret point ∧
     LineString.__init__ KLineString ns extrude tessellate altitude_mode
       geometry obj = mret line ∧
     LinearRing.__init__ ns extrude tessellate altitude_mode geometry obj
       = mret ring ∧
     cls point = KPoint ∧ cls line = KLineString ∧ cls ring = KLinearRing ∧
     (is_Some obj →
      kml_coordinates point = obj ∧ kml_coordinates line = obj ∧
      kml_coordinates ring = obj)).
Proof.
  split.
  - intros Hboth.
    unfold LinearRing.__init__, LineString.__init__, Point.__init__.
    by rewrite bool_decide_eq_true_2.
  - intros Hnot.
    unfold LinearRing.__init__, LineString.__init__, Point.__init__.
    rewrite bool_decide_eq_false_2 by done.
    eexists _, _, _. do 6 (split; [reflexivity|]).
    by intros [c ->].
Qed.

End Construction.

Section MapMMore.
Context {A B : Type} (f : A → M B).

Lemma mapM_M_fails (l : list A) x :
  x ∈ l → (∃ lg e, f x = (lg, inl e)) → ∃ lg e, mapM_M f l = (lg, inl e).
Proof.
  induction l as [|y l IH]; intros Hin Hx; [by apply elem_of_nil in Hin|].
  cbn [mapM_M]. destruct (f y) as [l1 [e1|b]] eqn:Hy; [by eexists _, _|].
  apply elem_of_cons in Hin as [->|Hin].
  - destruct Hx as (? & ? & Hx). congruence.
  - destruct (IH Hin Hx) as (lg & e & ->). by eexists _, _.
Qed.

Lemma mapM_M_ext (g : A → M B) (l : list A) :
  (∀ x, x ∈ l → f x = g x) → mapM_M f l = mapM_M g l.
Proof.
  induction l as [|y l IH]; intros Hfg; [done|].
  cbn [mapM_M]. rewrite Hfg by (by left). rewrite IH; [done|].
  intros x Hx. apply Hfg. by right.
Qed.

Lemma mapM_M_fmap {C} (h : C → A) (l : list C) :
  mapM_M f (h <$> l) = mapM_M (fun x => f (h x)) l.
Proof. induction l as [|y l IH]; [done|]. cbn. by rewrite IH. Qed.
End MapMMore.

Section BindInv.
Context {A B : Type}.
Lemma bind_error_inv (m : M A) (f : A → M B) lg e :
  (m ≫= f) = (lg, inl e) →
  (∃ l, m = (l, inl e)) ∨ (∃ l x l', m = (l, inr x) ∧ f x = (l', inl e)).
Proof.
  destruct m as [l [e'|x]]; cbn.
  - intros [= <- <-]. left. by eexists.
  - destruct (f x) as [l' r] eqn:Hf. intros [= <- ->]. right. by eexists _, _, _.
Qed.
End BindInv.


(** ** Formatting coordinates *)

Section Fmt.
Context {F : Type} {Fl : PyFloat F} {Cf : Config}.

Lemma format_field_error p (c : list F) i lg e :
  format_field p c i = (lg, inl e) →
  exn_type e = IndexError ∨ exn_type e = ValueError.
Proof.
  unfold format_field, getitem. destruct (c !! i) as [x|].
  - rewrite bind_ret. destruct (format_f p x); intros [= <- <-]; by right.
  - intros [= <- <-]. by left.
Qed.

Lemma format_field_short p (c : list F) i :
  (length c ≤ i)%nat →
  format_field p c i = raise (Exn IndexError "tuple index out of range").
Proof.
  intros Hlen. unfold format_field, getitem.
  by rewrite (lookup_ge_None_2 c i Hlen).
Qed.

Lemma format_field_take p (c : list F) n i :
  (i < n)%nat → format_field p (take n c) i = format_field p c i.
Proof. intros Hi. unfold format_field, getitem. by rewrite lookup_take_lt. Qed.

Lemma format_field_silent p (c : list F) i : ∃ r, format_field p c i = ([], r).
Proof.
  unfold format_field, getitem. destruct (c !! i) as [x|]; [|by eexists].
  rewrite bind_ret. destruct (format_f p x); by eexists.
Qed.

Lemma format_2d_error p (c : list F) lg e :
  format_2d p c = (lg, inl e) →
  exn_type e = IndexError ∨ exn_type e = ValueError.
Proof.
  unfold format_2d. intros H.
  apply bind_error_inv in H as [[l H]|(l & a & l' & _ & H)];
    [eauto using format_field_error|].
  apply bind_error_inv in H as [[l1 H]|(l1 & b & l1' & _ & H)];
    [eauto using format_field_error|discriminate].
Qed.

Lemma format_3d_error p (c : list F) lg e :
  format_3d p c = (lg, inl e) →
  exn_type e = IndexError ∨ exn_type e = ValueError.
Proof.
  unfold format_3d. intros H.
  apply bind_error_inv in H as [[l H]|(l & a & l' & _ & H)];
    [eauto using format_field_error|].
  apply bind_error_inv in H as [[l1 H]|(l1 & b & l1' & _ & H)];
    [eauto using format_field_error|].
  apply bind_error_inv in H as [[l2 H]|(l2 & d & l2' & _ & H)];
    [eauto using format_field_error|discriminate].
Qed.

Lemma format_3d_short p (c : list F) :
  (length c < 3)%nat → ∃ lg e, format_3d p c = (lg, inl e).
Proof.
  intros Hlen. unfold format_3d.
  destruct (format_field p c 0) as [l0 [e0|a]] eqn:H0; [by eexists _, _|].
  destruct (format_field p c 1) as [l1 [e1|b]] eqn:H1; [by eexists _, _|].
  rewrite (format_field_short p c 2) by lia. by eexists _, _.
Qed.

Lemma format_2d_take p (c : list F) :
  format_2d p (take 2 c) = format_2d p c.
Proof. unfold format_2d. by rewrite !format_field_take by lia. Qed.

Lemma coordinates_subelement_nonempty (obj : @Coordinates F) element
    precision c0 rest :
  coords obj = c0 :: rest →
  coordinates_subelement obj element precision =
    t ← coordinates_text (coords obj) precision;
    mret (Elem (tag element) (Some t) (children element)).
Proof.
  intros Hc. unfold coordinates_subelement, Coordinates__bool__. by rewrite Hc.
Qed.

Lemma coordinates_text_error (cs : list (list F)) precision c0 rest lg e :
  cs = c0 :: rest → length c0 = 2%nat ∨ length c0 = 3%nat →
  coordinates_text cs precision = (lg, inl e) →
  exn_type e = IndexError ∨ exn_type e = ValueError.
Proof.
  intros -> Hlen. unfold coordinates_text.
  destruct Hlen as [Hlen|Hlen]; rewrite Hlen; cbn [Nat.eqb]; intros H.
  - apply bind_error_inv in H as [[l H]|(l & a & l' & _ & H)]; [|discriminate].
    apply mapM_M_error_inv in H as (c & lg' & _ & H).
    eauto using format_2d_error.
  - apply bind_error_inv in H as [[l H]|(l & a & l' & _ & H)]; [|discriminate].
    apply mapM_M_error_inv in H as (c & lg' & _ & H).
    eauto using format_3d_error.
Qed.

Lemma coordinates_text_take_2 (c0 : list F) rest precision :
  length c0 = 2%nat →
  coordinates_text (take 2 <$> c0 :: rest) precision
    = coordinates_text (c0 :: rest) precision.
Proof.
  intros Hlen. unfold coordinates_text. rewrite fmap_cons.
  rewrite length_take, Hlen. cbn [Nat.min Nat.eqb].
  rewrite <- fmap_cons, mapM_M_fmap.
  by rewrite (mapM_M_ext _ (format_2d _) (c0 :: rest))
    by (intros; apply format_2d_take).
Qed.

(** C2 (amended): the encoder looks at the arity of the first tuple only.
    It raises the "Invalid dimensions" error exactly when that arity is
    neither 2 nor 3; when it is 2 or 3 the only errors are an [IndexError]
    or the [ValueError] of the format.  After a first tuple of 2 fields
    every tuple is written by its first two fields, so a later 3-tuple is
    cut to two fields; after a first tuple of 3 fields a tuple of fewer
    fields makes the encoding fail (it is not padded), with such an error
    and not with the dimension error.  [xx_etree_coordinates] does the
    same. *)
Theorem dimension_error_depends_on_first_tuple
    (obj : @Coordinates F) (element : Element) (precision : option Z)
    (ns : string) (c0 : list F) (rest : list (list F)) :
  coords obj = c0 :: rest →
  (length c0 ≠ 2%nat → length c0 ≠ 3%nat →
   coordinates_subelement obj element precision
     = raise (dimension_error (coords obj))) ∧
  (length c0 = 2%nat ∨ length c0 = 3%nat →
   ∀ lg e, coordinates_subelement obj element precision = (lg, inl e) →
           exn_type e = IndexError ∨ exn_type e = ValueError) ∧
  (length c0 = 2%nat →
   coordinates_subelement obj element precision
     = coordinates_subelement
         (mkCoordinates (coordinates_ns obj) (take 2 <$> coords obj))
         element precision) ∧
  (length c0 = 3%nat → (∃ c, c ∈ coords obj ∧ (length c < 3)%nat) →
   ∃ lg e, coordinates_subelement obj element precision = (lg, inl e) ∧
           (exn_type e = IndexError ∨ exn_type e = ValueError)) ∧
  xx_etree_coordinates ns (coords obj) precision
    = coordinates_subelement obj (Elem (ns +:+ "coordinates") None [])
        precision.
Proof.
  intros Hc. rewrite !(coordinates_subelement_nonempty _ _ _ _ _ Hc).
  assert (∀ lg e,
    (t ← coordinates_text (coords obj) precision;
     mret (Elem (tag element) (Some t) (children element))) = (lg, inl e) →
    length c0 = 2%nat ∨ length c0 = 3%nat →
    exn_type e = IndexError ∨ exn_type e = ValueError) as Herr.
  { intros lg e H Hlen.
    apply bind_error_inv in H as [[l H]|(l & a & l' & _ & H)]; [|discriminate].
    by eapply coordinates_text_error. }
  split; [|split; [|split; [|split]]].
  - intros H2 H3. rewrite Hc. unfold coordinates_text.
    apply Nat.eqb_neq in H2, H3. by rewrite H2, H3.
  - intros Hlen lg e H. by eapply Herr.
  - intros Hlen.
    erewrite (coordinates_subelement_nonempty (mkCoordinates _ _));
      [|by rewrite Hc]. cbn [coords].
    by rewrite Hc, coordinates_text_take_2.
  - intros Hlen (c & Hin & Hshort).
    destruct (mapM_M_fails
                (format_3d (default 6%Z precision)) (coords obj) c Hin
                (format_3d_short _ c Hshort)) as (lg & e & Hm).
    assert (coordinates_text (coords obj) precision = (lg, inl e)) as Ht.
    { rewrite Hc in *. unfold coordinates_text. rewrite Hlen. cbn [Nat.eqb].
      by rewrite Hm. }
    exists lg, e. rewrite Ht. split; [done|].
    eapply coordinates_text_error; [exact Hc| by right | exact Ht].
  - unfold xx_etree_coordinates. by rewrite Hc.
Qed.

End Fmt.

(** ** Decoding rings and polygons *)

Section PolygonDecode.
Context {F : Type} {Fl : PyFloat F} {Cf : Config} {Pg : Pygeoif F}.

Lemma get_coordinates_cases ns element strict :
  (∃ lg cs, _get_coordinates (F:=F) ns element strict = (lg, inr cs)) ∨
  (strict = true ∧ ∃ lg cause,
     _get_coordinates (F:=F) ns element strict
       = (lg, inl (Exn KMLParseError (invalid_coordinates_msg element cause)))).
Proof.
  unfold _get_coordinates.
  destruct (find _ element) as [coordinates|]; [|left; by eexists _, _].
  destruct (text coordinates) as [t|]; [|left; by eexists _, _].
  rewrite latlons_of_text. unfold try_except_else.
  destruct (mapM_M parse_tuple (tokens t)) as [lg [e|cs]] eqn:Hm.
  - apply mapM_M_error_inv in Hm as (latlon & lg' & _ & Hp).
    apply parse_tuple_error_inv in Hp as (c & msg & _ & _ & ->).
    destruct strict; cbn.
    + right. split; [done|]. by eexists _, _.
    + left. by eexists _, _.
  - left. cbn. by eexists _, _.
Qed.

Lemma ring_get_geometry_cases ns element strict :
  ring_errors_are_handled (F:=F) →
  (∃ lg r, LinearRing._get_geometry (F:=F) ns element strict = (lg, inr r)) ∨
  (strict = true ∧ ∃ lg cause,
     LinearRing._get_geometry (F:=F) ns element strict
       = (lg, inl (Exn KMLParseError (invalid_coordinates_msg element cause)))).
Proof.
  intros Hh. unfold LinearRing._get_geometry.
  destruct (get_coordinates_cases ns element strict)
    as [(lg & cs & ->)|(-> & lg & cause & ->)].
  2:{ right. split; [done|]. by eexists _, _. }
  cbn. destruct (LinearRing_from_coordinates cs) as [e|cs'] eqn:Hr.
  - cbn. rewrite bool_decide_eq_true_2 by (by eapply Hh).
    destruct strict; cbn.
    + right. split; [done|]. by eexists _, _.
    + left. by eexists _, _.
  - cbn. left. by eexists _, _.
Qed.

Lemma usable_ring_eq ns element lg r :
  LinearRing._get_geometry (F:=F) ns element false = (lg, inr r) →
  usable_ring ns element = usable r.
Proof. intros H. unfold usable_ring. by rewrite H. Qed.

Lemma collect_hole_lenient ns element interiors inner_boundary inner_ring :
  ring_errors_are_handled (F:=F) →
  find (ns +:+ "LinearRing") inner_boundary = Some inner_ring →
  ∃ lg, Polygon.collect_hole ns element false interiors inner_boundary
        = (lg, inr (interiors ++ option_list (usable_ring ns inner_ring))).
Proof.
  intros Hh Hf. unfold Polygon.collect_hole. rewrite Hf.
  destruct (ring_get_geometry_cases ns inner_ring false Hh)
    as [(lg & r & Hr)|[? _]]; [|done].
  rewrite (usable_ring_eq _ _ _ _ Hr), Hr. exists (lg ++ []).
  destruct r as [h|]; cbn; [|by rewrite !app_nil_r].
  destruct (geo_bool.truthy h); cbn; by rewrite ?app_nil_r.
Qed.

Lemma holes_lenient ns element interiors inner_boundaries :
  ring_errors_are_handled (F:=F) →
  Forall (fun ib => is_Some (find (ns +:+ "LinearRing") ib))
    inner_boundaries →
  ∃ lg, foldlM (Polygon.collect_hole ns element false) interiors
          inner_boundaries
        = (lg, inr (interiors ++
                    omap (fun ib => find (ns +:+ "LinearRing") ib
                                    ≫= usable_ring ns) inner_boundaries)).
Proof.
  intros Hh Hall. revert interiors.
  induction Hall as [|ib ibs [ring Hring] _ IH]; intros interiors.
  - exists []. cbn. by rewrite app_nil_r.
  - cbn [foldlM]. destruct (collect_hole_lenient ns element interiors ib ring
                              Hh Hring) as [lg ->].
    destruct (IH (interiors ++ option_list (usable_ring ns ring))) as [lg' Hf].
    exists (lg ++ lg'). cbn. rewrite Hf. f_equal. f_equal.
    cbn [omap list_omap]. rewrite Hring. cbn.
    destruct (usable_ring ns ring); cbn; by rewrite <- ?app_assoc, ?app_nil_r.
Qed.

(** C7: under non-strict decoding of a Polygon element that has its
    outer boundary with a LinearRing, and a LinearRing in every inner
    boundary, no error is raised; when the exterior ring decodes to no
    usable ring the geometry is absent; otherwise the polygon has that
    exterior and, as holes, the inner rings that decode to a usable ring,
    in document order, the others skipped.  (The ring constructor is taken
    to raise only the exceptions [LinearRing._get_geometry] handles.) *)
Theorem polygon_without_usable_exterior_is_absent
    ns element outer_boundary outer_ring :
  ring_errors_are_handled (F:=F) →
  find (ns +:+ "outerBoundaryIs") element = Some outer_boundary →
  find (ns +:+ "LinearRing") outer_boundary = Some outer_ring →
  Forall (fun ib => is_Some (find (ns +:+ "LinearRing") ib))
    (findall (ns +:+ "innerBoundaryIs") element) →
  (usable_ring ns outer_ring = None →
   outcome (Polygon._get_geometry ns element false) = inr None) ∧
  (∀ exterior, usable_ring ns outer_ring = Some exterior →
   outcome (Polygon._get_geometry ns element false)
   = inr (Some (geo.from_linear_rings exterior (usable_holes ns element)))).
Proof.
  intros Hh Ho Hr Hall.
  assert (outcome (Polygon._get_geometry ns element false)
          = inr (match usable_ring ns outer_ring with
                 | Some exterior =>
                     Some (geo.from_linear_rings exterior
                             (usable_holes ns element))
                 | None => None
                 end)) as Hout.
  { unfold Polygon._get_geometry. rewrite Ho, Hr.
    destruct (ring_get_geometry_cases ns outer_ring false Hh)
      as [(lg & r & Hext)|[? _]]; [|done].
    rewrite (usable_ring_eq _ _ _ _ Hext), Hext.
    destruct (holes_lenient ns element [] _ Hh Hall) as [lg' Hholes].
    cbn. rewrite Hholes. cbn. fold (usable_holes ns element).
    destruct r as [ext|]; [|done]. cbn. by destruct (geo_bool.truthy ext). }
  rewrite Hout. split; [by intros ->|by intros exterior ->].
Qed.

Lemma collect_hole_missing ns element strict interiors inner_boundary :
  lacks_ring ns inner_boundary →
  Polygon.collect_hole (F:=F) ns element strict interiors inner_boundary
  = raise (missing_exn "LinearRing" element).
Proof. intros Hl. unfold Polygon.collect_hole. by rewrite Hl. Qed.

Lemma collect_hole_cases ns element strict interiors inner_boundary ring :
  ring_errors_are_handled (F:=F) →
  find (ns +:+ "LinearRing") inner_boundary = Some ring →
  (∃ lg acc, Polygon.collect_hole ns element strict interiors inner_boundary
             = (lg, inr acc)) ∨
  (strict = true ∧
   ∃ lg e, Polygon.collect_hole ns element strict interiors inner_boundary
           = (lg, inl e) ∧ is_invalid_coordinates e).
Proof.
  intros Hh Hring. unfold Polygon.collect_hole. rewrite Hring.
  destruct (ring_get_geometry_cases ns ring strict Hh)
    as [(lg & r & ->)|(-> & lg & cause & ->)].
  - left. destruct r as [h|]; cbn; [|by eexists _, _].
    destruct (geo_bool.truthy h); by eexists _, _.
  - right. split; [done|]. eexists _, _. split; [done|]. by eexists _, _.
Qed.

Lemma holes_missing ns element strict interiors inner_boundaries :
  ring_errors_are_handled (F:=F) →
  Exists (lacks_ring ns) inner_boundaries →
  ∃ lg e, foldlM (Polygon.collect_hole ns element strict) interiors
            inner_boundaries = (lg, inl e) ∧
          (e = missing_exn "LinearRing" element ∨
           strict = true ∧ is_invalid_coordinates e).
Proof.
  intros Hh Hex. revert interiors.
  induction inner_boundaries as [|ib ibs IH]; intros interiors;
    [by inversion Hex|].
  cbn [foldlM].
  destruct (find (ns +:+ "LinearRing") ib) as [ring|] eqn:Hring.
  - assert (Exists (lacks_ring ns) ibs) as Hex'.
    { inversion Hex as [? ? Hl|]; [|done]. unfold lacks_ring in Hl. congruence. }
    destruct (collect_hole_cases ns element strict interiors ib ring Hh Hring)
      as [(lg & acc & ->)|(-> & lg & e & -> & He)].
    + destruct (IH Hex' acc) as (lg' & e & Hf & He). cbn. rewrite Hf.
      by eexists _, _.
    + eexists _, _. split; [done|]. by right.
  - rewrite collect_hole_missing by done. eexists _, _. split; [done|]. by left.
Qed.

Lemma collect_hole_valid ns element interiors inner_boundary ring :
  find (ns +:+ "LinearRing") inner_boundary = Some ring →
  decodes_strictly (F:=F) ns ring →
  ∃ lg acc, Polygon.collect_hole ns element true interiors inner_boundary
            = (lg, inr acc).
Proof.
  intros Hring [r Hr]. unfold Polygon.collect_hole. rewrite Hring.
  destruct (LinearRing._get_geometry ns ring true) as [lg [e|r']];
    [discriminate|].
  destruct r' as [h|]; cbn; [|by eexists _, _].
  destruct (geo_bool.truthy h); by eexists _, _.
Qed.

Lemma collect_hole_invalid ns element interiors inner_boundary ring lg e :
  find (ns +:+ "LinearRing") inner_boundary = Some ring →
  LinearRing._get_geometry (F:=F) ns ring true = (lg, inl e) →
  Polygon.collect_hole ns element true interiors inner_boundary = (lg, inl e).
Proof.
  intros Hring Hbad. unfold Polygon.collect_hole. by rewrite Hring, Hbad.
Qed.

Lemma holes_missing_valid ns element interiors inner_boundaries :
  Exists (lacks_ring ns) inner_boundaries →
  Forall (decodes_strictly (F:=F) ns)
    (rings_before_missing ns inner_boundaries) →
  ∃ lg, foldlM (Polygon.collect_hole ns element true) interiors
          inner_boundaries
        = (lg, inl (missing_exn "LinearRing" element)).
Proof.
  intros Hex. revert interiors.
  induction inner_boundaries as [|ib ibs IH]; intros interiors Hok;
    [by inversion Hex|].
  cbn [foldlM]. cbn [rings_before_missing] in Hok.
  destruct (find (ns +:+ "LinearRing") ib) as [ring|] eqn:Hring.
  - assert (Exists (lacks_ring ns) ibs) as Hex'.
    { inversion Hex as [? ? Hl|]; [|done]. unfold lacks_ring in Hl. congruence. }
    inversion_clear Hok as [|? ? Hv Hok'].
    destruct (collect_hole_valid ns element interiors ib ring Hring Hv)
      as (lg & acc & ->).
    destruct (IH Hex' acc Hok') as [lg' Hf].
    cbn. rewrite Hf. by eexists.
  - rewrite collect_hole_missing by done. by eexists.
Qed.

Lemma holes_first_invalid ns element valid :
  ∀ inner_boundaries interiors ring rest lg e,
  rings_before_missing ns inner_boundaries = valid ++ ring :: rest →
  Forall (decodes_strictly (F:=F) ns) valid →
  LinearRing._get_geometry (F:=F) ns ring true = (lg, inl e) →
  ∃ lg', foldlM (Polygon.collect_hole ns element true) interiors
           inner_boundaries = (lg', inl e).
Proof.
  induction valid as [|v valid IH];
    intros [|ib ibs] interiors ring rest lg e Heq Hok Hbad;
    cbn [rings_before_missing] in Heq; try discriminate.
  - destruct (find (ns +:+ "LinearRing") ib) as [r0|] eqn:Hring;
      [|discriminate].
    injection Heq as -> _. cbn [foldlM].
    rewrite (collect_hole_invalid ns element interiors ib ring lg e Hring Hbad).
    by eexists.
  - destruct (find (ns +:+ "LinearRing") ib) as [r0|] eqn:Hring;
      [|discriminate].
    injection Heq as -> Heq. inversion_clear Hok as [|? ? Hv Hok'].
    cbn [foldlM].
    destruct (collect_hole_valid ns element interiors ib v Hring Hv)
      as (lg0 & acc & ->).
    destruct (IH ibs acc ring rest lg e Heq Hok' Hbad) as [lg' Hf].
    cbn. rewrite Hf. by eexists.
Qed.

(** C4 (amended): decoding a Polygon element without an outer boundary,
    or whose outer boundary has no LinearRing, raises in both modes the
    [KMLParseError] that names the missing piece and holds the serialised
    Polygon element.  When it is an inner boundary that has no LinearRing,
    decoding raises a [KMLParseError] in both modes: the one that names
    the missing LinearRing, except that under strict decoding the error of
    invalid coordinates of a ring decoded before (the exterior is decoded
    first, then the inner rings in document order) is raised instead.
    Precisely: the error names the missing LinearRing when decoding is
    not strict, and when every ring decoded before decodes strictly;
    otherwise it is the error of the first of those rings that does not,
    an error of invalid coordinates that quotes that ring.  (The ring
    constructor is taken to raise only the exceptions
    [LinearRing._get_geometry] handles.) *)
Theorem polygon_missing_piece_is_fatal ns element strict :
  (find (ns +:+ "outerBoundaryIs") element = None →
   Polygon._get_geometry ns element strict
   = raise (missing_exn "outerBoundaryIs" element)) ∧
  (∀ outer_boundary,
     find (ns +:+ "outerBoundaryIs") element = Some outer_boundary →
     lacks_ring ns outer_boundary →
     Polygon._get_geometry ns element strict
     = raise (missing_exn "LinearRing" element)) ∧
  (ring_errors_are_handled (F:=F) →
   ∀ outer_boundary outer_ring,
     find (ns +:+ "outerBoundaryIs") element = Some outer_boundary →
     find (ns +:+ "LinearRing") outer_boundary = Some outer_ring →
     Exists (lacks_ring ns) (findall (ns +:+ "innerBoundaryIs") element) →
     (∃ e, outcome (Polygon._get_geometry ns element strict) = inl e ∧
           exn_type e = KMLParseError ∧
           (e = missing_exn "LinearRing" element ∨
            strict = true ∧ is_invalid_coordinates e)) ∧
     (strict = false ∨
      Forall (decodes_strictly ns)
        (outer_ring ::
         rings_before_missing ns
           (findall (ns +:+ "innerBoundaryIs") element)) →
      outcome (Polygon._get_geometry ns element strict)
      = inl (missing_exn "LinearRing" element)) ∧
     (strict = true →
      ∀ valid ring rest lg e,
        outer_ring ::
        rings_before_missing ns (findall (ns +:+ "innerBoundaryIs") element)
        = valid ++ ring :: rest →
        Forall (decodes_strictly ns) valid →
        LinearRing._get_geometry ns ring true = (lg, inl e) →
        outcome (Polygon._get_geometry ns element strict) = inl e ∧
        ∃ cause, e = Exn KMLParseError (invalid_coordinates_msg ring cause))).
Proof.
  unfold Polygon._get_geometry. split; [|split].
  - by intros ->.
  - intros ob -> Hl. by rewrite Hl.
  - intros Hh ob ring -> -> Hex. split; [|split].
    + assert (∀ e, e = missing_exn "LinearRing" element ∨
                   strict = true ∧ is_invalid_coordinates e →
                   exn_type e = KMLParseError) as Hty.
      { intros e [->|[_ (? & ? & ->)]]; reflexivity. }
      destruct (ring_get_geometry_cases ns ring strict Hh)
        as [(lg & r & ->)|(-> & lg & cause & ->)].
      * destruct (holes_missing ns element strict [] _ Hh Hex)
          as (lg' & e & Hf & He).
        cbn. rewrite Hf. exists e. split; [done|]. split; [by apply Hty|done].
      * eexists. split; [done|]. split; [done|].
        right. split; [done|]. by eexists _, _.
    + intros [->|Hok].
      * destruct (ring_get_geometry_cases ns ring false Hh)
          as [(lg & r & ->)|[? _]]; [|done].
        destruct (holes_missing ns element false [] _ Hh Hex)
          as (lg' & e & Hf & [->|[? _]]); [|done].
        cbn. by rewrite Hf.
      * destruct strict.
        -- inversion_clear Hok as [|? ? [r Hr] Hok'].
           destruct (LinearRing._get_geometry ns ring true)
             as [lg [e|r']] eqn:Hd; [discriminate|].
           destruct (holes_missing_valid ns element [] _ Hex Hok')
             as [lg' Hf].
           cbn. by rewrite Hf.
        -- destruct (ring_get_geometry_cases ns ring false Hh)
             as [(lg & r & ->)|[? _]]; [|done].
           destruct (holes_missing ns element false [] _ Hh Hex)
             as (lg' & e & Hf & [->|[? _]]); [|done].
           cbn. by rewrite Hf.
    + intros -> valid bad rest lg e Heq Hok Hbad. split.
      * destruct valid as [|v valid].
        -- injection Heq as -> _. by rewrite Hbad.
        -- injection Heq as -> Heq.
           inversion_clear Hok as [|? ? [r Hr] Hok'].
           destruct (LinearRing._get_geometry ns v true)
             as [lg0 [e0|r']] eqn:Hd; [discriminate|].
           destruct (holes_first_invalid ns element valid _ [] bad rest lg e
                       Heq Hok' Hbad) as [lg' Hf].
           cbn. by rewrite Hf.
      * destruct (ring_get_geometry_cases ns bad true Hh)
          as [(lg' & r & Hr)|(_ & lg' & cause & Hr)]; rewrite Hr in Hbad;
          [discriminate|].
        injection Hbad as _ <-. by exists cause.
Qed.

End PolygonDecode.

Section Laws.
Context {A B C : Type}.

Lemma bind_assoc (m : M A) (f : A → M B) (g : B → M C) :
  ((m ≫= f) ≫= g) = (m ≫= fun x => f x ≫= g).
Proof.
  destruct m as [l [e|x]]; [done|]. cbn.
  destruct (f x) as [l1 [e1|y]]; [done|]. cbn.
  destruct (g y) as [l2 r]. by rewrite app_assoc.
Qed.

Lemma bind_ext (m : M A) (f g : A → M B) :
  (∀ x, f x = g x) → (m ≫= f) = (m ≫= g).
Proof. intros Hfg. destruct m as [l [e|x]]; [done|]. cbn. by rewrite Hfg. Qed.
End Laws.

Section Loops.
Context {A B C : Type}.

(** A loop that appends to an accumulator is the comprehension of what it
    appends. *)
Lemma foldlM_append (f : A → M B) (h : B → list C) (acc : list C) (l : list A) :
  foldlM (fun acc x => y ← f x; mret (acc ++ h y)) acc l
  = (ys ← mapM_M f l; mret (acc ++ concat (h <$> ys))).
Proof.
  revert acc. induction l as [|x l IH]; intros acc.
  - cbn [foldlM mapM_M]. rewrite bind_ret. cbn. by rewrite app_nil_r.
  - cbn [foldlM mapM_M]. rewrite !bind_assoc. apply bind_ext. intros y.
    rewrite bind_ret, IH, bind_assoc. apply bind_ext. intros ys.
    rewrite bind_ret. cbn. by rewrite app_assoc.
Qed.
End Loops.

(** ** Decoding multi-geometries *)

Section Multi.
Context {F : Type} {Fl : PyFloat F} {Cf : Config} {Pg : Pygeoif F}.

Lemma each_child_findall (decode : kml_class → Element → M (option (geo.Geometry F)))
    ns g geometries es :
  MultiGeometry.each_child decode ns g geometries es
  = foldlM (fun geometries e =>
              geometry ← decode g e;
              mret (geometries ++ option_list geometry))
      geometries (filter (fun e => tag e = ns +:+ __name__ g) es).
Proof.
  revert geometries. induction es as [|e es IH]; intros geometries; [done|].
  cbn [MultiGeometry.each_child]. rewrite filter_cons.
  case_decide; [|apply IH].
  cbn [foldlM]. rewrite bind_assoc. apply bind_ext. intros [x|].
  - by rewrite bind_ret, IH.
  - rewrite bind_ret, IH. cbn. by rewrite app_nil_r.
Qed.

Lemma get_geometry_unfold ns element strict :
  MultiGeometry._get_geometry (F:=F) ns element strict
  = (geometries ←
       foldlM (fun geometries g =>
                 MultiGeometry.each_child (class_get_geometry ns strict) ns g
                   geometries (children element))
         [] MultiGeometry.allowed_geometries;
     mret (create_multigeometry geometries)).
Proof. by destruct element. Qed.

Lemma omap_id_concat (rs : list (option (geo.Geometry F))) :
  concat (option_list <$> rs) = omap id rs.
Proof.
  induction rs as [|[x|] rs IH]; cbn; [done| |done]. by rewrite IH.
Qed.

(** The outer loop over the tags is the comprehension of the groups. *)
Lemma tag_loops_are_groups ns element strict acc order :
  foldlM (fun geometries g =>
            MultiGeometry.each_child (class_get_geometry (F:=F) ns strict)
              ns g geometries (children element)) acc order
  = (groups ← mapM_M (decode_group ns strict element) order;
     mret (acc ++ concat groups)).
Proof.
  revert acc. induction order as [|g order IH]; intros acc.
  - cbn [foldlM mapM_M]. rewrite bind_ret. cbn. by rewrite app_nil_r.
  - cbn [foldlM mapM_M]. rewrite each_child_findall.
    rewrite (foldlM_append _ option_list).
    fold (findall (ns +:+ __name__ g) element).
    change (decode_group ns strict element g)
      with (rs ← mapM_M (class_get_geometry ns strict g)
                   (findall (ns +:+ __name__ g) element);
            mret (omap id rs)).
    rewrite !bind_assoc. apply bind_ext. intros rs.
    rewrite !bind_ret, IH, bind_assoc. apply bind_ext. intros groups.
    rewrite bind_ret. cbn. by rewrite omap_id_concat, app_assoc.
Qed.

(** C6 (amended): decoding a multi-geometry element collects the child
    geometries tag by tag, in the fixed order of the container's own tag,
    Point, LineString, Polygon and then LinearRing; within a tag the
    children are decoded in document order and the results that are not
    null kept; the groups are concatenated in that order, not interleaved
    by document position, and the list is passed to
    [create_multigeometry]. *)
Theorem multi_geometry_decode_groups_by_tag ns element strict :
  MultiGeometry._get_geometry (F:=F) ns element strict
  = grouped_decode MultiGeometry.allowed_geometries ns element strict.
Proof.
  rewrite get_geometry_unfold. unfold grouped_decode.
  rewrite tag_loops_are_groups, bind_assoc. apply bind_ext. intros groups.
  by rewrite bind_ret.
Qed.

End Multi.

(** ** Text that the encoder writes parses back *)

Section Strings.

Lemma append_cons c (a b : string) : String c a +:+ b = String c (a +:+ b).
Proof. reflexivity. Qed.

Lemma append_nil (b : string) : EmptyString +:+ b = b.
Proof. reflexivity. Qed.

Lemma append_empty_r (a : string) : a +:+ EmptyString = a.
Proof. induction a as [|c a IH]; [done|]. by rewrite append_cons, IH. Qed.

Lemma isspace_space : PyStr.isspace " " = true.
Proof. reflexivity. Qed.

Lemma eqb_space_isspace c : Ascii.eqb c " " = true → PyStr.isspace c = true.
Proof. intros H. apply Ascii.eqb_eq in H. by subst. Qed.

Lemma token_ok_cons c s :
  token_ok (String c s) = true →
  PyStr.isspace c = false ∧
  (s = EmptyString ∧ Ascii.eqb c "," = false ∨ token_ok s = true).
Proof.
  cbn. destruct s as [|c' s'].
  - intros [H1 H2]%andb_prop. apply negb_true_iff in H1, H2. eauto.
  - intros [H1 H2]%andb_prop. apply negb_true_iff in H1. eauto.
Qed.

(** [split_on]: a field without the separator, then the separator. *)
Lemma split_on_field (a b : string) :
  no_space_no_comma a = true →
  PyStr.split_on "," (a +:+ String "," b) = a :: PyStr.split_on "," b.
Proof.
  induction a as [|c a IH]; [done|].
  rewrite append_cons. cbn [no_space_no_comma PyStr.split_on].
  intros [[_ H2]%andb_prop H3]%andb_prop. apply negb_true_iff in H2.
  rewrite H2. by rewrite (IH H3).
Qed.

Lemma split_on_last (a : string) :
  no_space_no_comma a = true → PyStr.split_on "," a = [a].
Proof.
  induction a as [|c a IH]; [done|].
  cbn [no_space_no_comma PyStr.split_on].
  intros [[_ H2]%andb_prop H3]%andb_prop. apply negb_true_iff in H2.
  rewrite H2. by rewrite (IH H3).
Qed.

Lemma split_on_join (fields : list string) :
  fields ≠ [] → Forall (fun s => clean_field s = true) fields →
  PyStr.split_on "," (PyStr.join "," fields) = fields.
Proof.
  intros Hne Hall. induction Hall as [|a fields Ha Hall IH]; [done|].
  assert (no_space_no_comma a = true) as Ha' by (by destruct a).
  destruct fields as [|b fields].
  - cbn. by apply split_on_last.
  - change (PyStr.join "," (a :: b :: fields))
      with (a +:+ String "," (PyStr.join "," (b :: fields))).
    rewrite split_on_field by done. by rewrite IH.
Qed.

(** A joined tuple is a token. *)
Lemma no_space_no_comma_token a :
  clean_field a = true → token_ok a = true.
Proof.
  destruct a as [|c a]; [done|]. cbn [clean_field].
  revert c. induction a as [|c' a IH]; intros c.
  - cbn. by rewrite andb_true_r.
  - intros H. cbn in H. apply andb_prop in H as [[H1 H2]%andb_prop H3].
    change (negb (PyStr.isspace c) && token_ok (String c' a) = true).
    rewrite H1. cbn. by apply IH.
Qed.

Lemma token_ok_app a b :
  no_space_no_comma a = true → token_ok b = true → token_ok (a +:+ b) = true.
Proof.
  induction a as [|c a IH]; [done|]. cbn [no_space_no_comma].
  intros [[H1 _]%andb_prop H3]%andb_prop Hb.
  specialize (IH H3 Hb). rewrite append_cons.
  destruct (a +:+ b) as [|c' r] eqn:Hr; [done|].
  change (negb (PyStr.isspace c) && token_ok (String c' r) = true).
  by rewrite H1.
Qed.

Lemma token_ok_join (fields : list string) :
  fields ≠ [] → Forall (fun s => clean_field s = true) fields →
  token_ok (PyStr.join "," fields) = true.
Proof.
  intros Hne Hall. induction Hall as [|a fields Ha Hall IH]; [done|].
  destruct fields as [|b fields].
  - cbn. by apply no_space_no_comma_token.
  - change (PyStr.join "," (a :: b :: fields))
      with (a +:+ String "," (PyStr.join "," (b :: fields))).
    apply token_ok_app; [by destruct a|].
    specialize (IH ltac:(done)).
    destruct (PyStr.join "," (b :: fields)) as [|c r] eqn:Hj; [done|].
    change (negb (PyStr.isspace ",") && token_ok (String c r) = true).
    done.
Qed.

(** The normalisation leaves a token, and what follows it, alone. *)
Lemma re_sub_go_token b (t r : string) :
  token_ok t = true →
  PyStr.re_sub_go b (t +:+ r) = t +:+ PyStr.re_sub_go false r.
Proof.
  revert b. induction t as [|c t IH]; intros b; [done|].
  intros Ht. apply token_ok_cons in Ht as [Hc Ht].
  rewrite !append_cons. cbn [PyStr.re_sub_go].
  assert (Ascii.eqb c " " = false) as Hsp.
  { destruct (Ascii.eqb c " ") eqn:E; [|done].
    apply eqb_space_isspace in E. congruence. }
  rewrite Hsp, andb_false_r. f_equal.
  destruct Ht as [[-> Hcomma]|Ht].
  - rewrite !append_nil. by rewrite Hcomma.
  - by apply IH.
Qed.

Lemma re_sub_join (toks : list string) :
  Forall (fun t => token_ok t = true) toks →
  PyStr.re_sub_comma_spaces (PyStr.join " " toks) = PyStr.join " " toks.
Proof.
  unfold PyStr.re_sub_comma_spaces.
  induction 1 as [|t toks Ht Hall IH]; [done|].
  destruct toks as [|t' toks].
  - cbn [PyStr.join String.concat]. rewrite <- (append_empty_r t) at 1.
    rewrite re_sub_go_token by done. cbn [PyStr.re_sub_go].
    apply append_empty_r.
  - change (PyStr.join " " (t :: t' :: toks))
      with (t +:+ String " " (PyStr.join " " (t' :: toks))).
    rewrite re_sub_go_token by done. cbn [PyStr.re_sub_go andb].
    change (Ascii.eqb " " ",") with false. by rewrite IH.
Qed.

(** [split] reads a token up to the whitespace that ends it. *)
Lemma split_token (t r : string) :
  token_ok t = true →
  (r = EmptyString ∨ ∃ r', r = String " " r') →
  PyStr.split (t +:+ r) = t :: PyStr.split r.
Proof.
  intros Ht Hr. induction t as [|c t IH]; [done|].
  apply token_ok_cons in Ht as [Hc Ht].
  rewrite append_cons. cbn [PyStr.split]. rewrite Hc.
  destruct Ht as [[-> _]|Ht].
  - rewrite append_nil. destruct Hr as [->|[r' ->]]; [done|].
    by rewrite isspace_space.
  - specialize (IH Ht). destruct t as [|c' t']; [done|].
    rewrite append_cons in *.
    apply token_ok_cons in Ht as [Hc' _]. rewrite Hc'. by rewrite IH.
Qed.

Lemma split_join (toks : list string) :
  Forall (fun t => token_ok t = true) toks →
  PyStr.split (PyStr.join " " toks) = toks.
Proof.
  induction 1 as [|t toks Ht Hall IH]; [done|].
  destruct toks as [|t' toks].
  - cbn [PyStr.join String.concat]. rewrite <- (append_empty_r t) at 1.
    by rewrite split_token by eauto.
  - change (PyStr.join " " (t :: t' :: toks))
      with (t +:+ String " " (PyStr.join " " (t' :: toks))).
    rewrite split_token by eauto. cbn [PyStr.split].
    rewrite isspace_space. by rewrite IH.
Qed.

(** [strip] leaves a text alone that starts and ends with a token. *)
Lemma lstrip_token (t r : string) :
  token_ok t = true → PyStr.lstrip (t +:+ r) = t +:+ r.
Proof.
  destruct t as [|c t]; [done|]. intros [Hc _]%token_ok_cons.
  rewrite append_cons. cbn [PyStr.lstrip]. by rewrite Hc.
Qed.

Lemma rstrip_token (t : string) : token_ok t = true → PyStr.rstrip t = t.
Proof.
  induction t as [|c t IH]; [done|]. intros [Hc Ht]%token_ok_cons.
  cbn. destruct Ht as [[-> _]|Ht]; [cbn; by rewrite Hc|].
  rewrite (IH Ht). by destruct t.
Qed.

Lemma rstrip_app (s t : string) :
  t ≠ EmptyString → PyStr.rstrip t = t → PyStr.rstrip (s +:+ t) = s +:+ t.
Proof.
  intros Hne Ht. induction s as [|c s IH]; [done|].
  rewrite append_cons. cbn [PyStr.rstrip]. rewrite IH.
  destruct (s +:+ t) eqn:E; [|done].
  destruct s; [|done]. rewrite append_nil in E. congruence.
Qed.

Lemma rstrip_join (toks : list string) :
  Forall (fun t => token_ok t = true) toks →
  PyStr.rstrip (PyStr.join " " toks) = PyStr.join " " toks.
Proof.
  induction 1 as [|t toks Ht Hall IH]; [done|].
  destruct toks as [|t' toks]; [by apply rstrip_token|].
  change (PyStr.join " " (t :: t' :: toks))
    with (t +:+ String " " (PyStr.join " " (t' :: toks))).
  change (t +:+ String " " (PyStr.join " " (t' :: toks)))
    with (t +:+ (String " " EmptyString +:+ PyStr.join " " (t' :: toks))).
  apply rstrip_app.
  - done.
  - apply (rstrip_app (String " " EmptyString)); [|done].
    inversion Hall as [|? ? Ht' _]; subst.
    destruct toks; cbn; by destruct t'.
Qed.

Lemma strip_join (toks : list string) :
  Forall (fun t => token_ok t = true) toks →
  PyStr.strip (PyStr.join " " toks) = PyStr.join " " toks.
Proof.
  intros Hall. unfold PyStr.strip.
  assert (PyStr.lstrip (PyStr.join " " toks) = PyStr.join " " toks) as ->.
  { destruct Hall as [|t toks Ht Hall]; [done|].
    destruct toks as [|t' toks].
    - cbn [PyStr.join String.concat]. rewrite <- (append_empty_r t) at 1.
      rewrite lstrip_token by done. apply append_empty_r.
    - change (PyStr.join " " (t :: t' :: toks))
        with (t +:+ String " " (PyStr.join " " (t' :: toks))).
      by apply lstrip_token. }
  by apply rstrip_join.
Qed.

(** The tokens of the text of a sequence of tuples. *)
Lemma tokens_join (toks : list string) :
  Forall (fun t => token_ok t = true) toks →
  tokens (PyStr.join " " toks) = toks.
Proof.
  intros Hall. unfold tokens.
  by rewrite strip_join, re_sub_join, split_join.
Qed.

End Strings.

Section CodecRoundTrip.
Context {F : Type} {Fl : PyFloat F} {Cf : Config}.

Lemma format_field_ok p (c : list F) i x s :
  c !! i = Some x → format_f p x = inr s → format_field p c i = mret s.
Proof. intros Hc Hs. unfold format_field, getitem. by rewrite Hc, bind_ret, Hs. Qed.

Lemma tuple_round_trip p n (c c' : list F) :
  (n = 2 ∨ n = 3)%nat → length c = n → Forall2 (rounds_to p) c c' →
  ∃ t, format_nd n p c = mret t ∧ token_ok t = true ∧
       parse_tuple t = mret c'.
Proof.
  intros Hn Hlen Hr.
  assert (∃ ss, Forall2 (fun x s => format_f p x = inr s) c ss ∧
                Forall (fun s => clean_field s = true) ss ∧
                Forall2 (fun s y => py_float s = inr y) ss c') as (ss & Hf & Hc & Hp).
  { clear Hlen. induction Hr as [|x y c c' (s & ? & ? & ?) _ (ss & ? & ? & ?)].
    - exists []. by repeat constructor.
    - exists (s :: ss). by repeat constructor. }
  exists (PyStr.join "," ss).
  assert (ss ≠ []) as Hne.
  { apply Forall2_length in Hf. destruct ss; [|done]. cbn in Hf. lia. }
  split; [|split].
  - unfold format_nd. destruct Hn as [-> | ->].
    + destruct Hf as [|a sa ? ? Ha Hf]; [done|].
      destruct Hf as [|b sb ? ? Hb Hf]; [done|].
      destruct Hf; [|done]. cbn [Nat.eqb]. unfold format_2d.
      rewrite (format_field_ok p _ 0 a sa), bind_ret by done.
      by rewrite (format_field_ok p _ 1 b sb), bind_ret by done.
    + destruct Hf as [|a sa ? ? Ha Hf]; [done|].
      destruct Hf as [|b sb ? ? Hb Hf]; [done|].
      destruct Hf as [|d sd ? ? Hd Hf]; [done|].
      destruct Hf; [|done]. cbn [Nat.eqb]. unfold format_3d.
      rewrite (format_field_ok p _ 0 a sa), bind_ret by done.
      rewrite (format_field_ok p _ 1 b sb), bind_ret by done.
      by rewrite (format_field_ok p _ 2 d sd), bind_ret by done.
  - by apply token_ok_join.
  - apply parse_tuple_ok. by rewrite split_on_join.
Qed.

Lemma sequence_round_trip p n (cs cs' : list (list F)) :
  (n = 2 ∨ n = 3)%nat → Forall (fun c => length c = n) cs →
  coords_round_to p cs cs' →
  ∃ toks, mapM_M (format_nd n p) cs = mret toks ∧
          Forall (fun t => token_ok t = true) toks ∧
          mapM_M (parse_tuple (F:=F)) toks = mret cs'.
Proof.
  intros Hn Hlen Hr. induction Hr as [|c c' cs cs' Hc _ IH].
  - exists []. by repeat constructor.
  - inversion_clear Hlen as [|? ? Hl Hlen'].
    destruct (IH Hlen') as (toks & Hf & Ht & Hp).
    destruct (tuple_round_trip p n c c' Hn Hl Hc) as (t & Hft & Htt & Hpt).
    exists (t :: toks). split; [|split].
    + cbn [mapM_M]. by rewrite Hft, bind_ret, Hf, bind_ret.
    + by constructor.
    + cbn [mapM_M]. by rewrite Hpt, bind_ret, Hp, bind_ret.
Qed.

(** The text of a uniform sequence parses back to the rounded sequence. *)
Lemma coordinates_text_round_trip (cs cs' : list (list F)) precision :
  uniform cs → coords_round_to (default 6%Z precision) cs cs' →
  ∃ t, coordinates_text cs precision = mret t ∧
       mapM_M (parse_tuple (F:=F)) (tokens t) = mret cs'.
Proof.
  intros [Hne (n & Hn & Hlen)] Hr.
  destruct (sequence_round_trip _ n cs cs' Hn Hlen Hr) as (toks & Hf & Ht & Hp).
  exists (PyStr.join " " toks). split.
  - destruct cs as [|c0 rest]; [done|]. unfold coordinates_text.
    inversion Hlen as [|? ? Hl _]; subst. cbv zeta.
    destruct Hn as [Hn|Hn]; rewrite Hn in *; cbn [Nat.eqb].
    + assert (mapM_M (format_2d (default 6%Z precision)) (c0 :: rest)
              = mret toks) as -> by exact Hf.
      by rewrite bind_ret.
    + assert (mapM_M (format_3d (default 6%Z precision)) (c0 :: rest)
              = mret toks) as -> by exact Hf.
      by rewrite bind_ret.
  - by rewrite tokens_join.
Qed.

Lemma codec_round_trip (cs cs' : list (list F)) precision element kwarg strict :
  uniform cs → coords_round_to (default 6%Z precision) cs cs' →
  (e ← coordinates_subelement (Coordinates__init__ None (Some cs)) element
         precision;
   subelement_coordinates_kwarg e kwarg strict) = mret {[ kwarg := cs' ]}.
Proof.
  intros Hu Hr.
  destruct (coordinates_text_round_trip cs cs' precision Hu Hr) as (t & Ht & Hp).
  destruct Hu as [Hne _]. destruct cs as [|c0 rest]; [done|].
  rewrite (coordinates_subelement_nonempty _ _ _ c0 rest) by done.
  cbn [Coordinates__init__ coords default from_option id].
  rewrite Ht, !bind_ret.
  rewrite (subelement_coordinates_kwarg_text _ t) by done.
  by rewrite Hp, bind_ret.
Qed.
End CodecRoundTrip.

Section Tags.
Lemma append_inj (s a b : string) : s +:+ a = s +:+ b → a = b.
Proof.
  induction s as [|c s IH]; [done|]. rewrite !append_cons.
  intros [= H]. by apply IH.
Qed.
End Tags.

Ltac tag_neq := let H := fresh in intros H; apply append_inj in H; discriminate.

Section TryFacts.
Context {A : Type}.
Lemma try_except_ret (x : A) classes handler :
  try_except (mret x) classes handler = mret x.
Proof. reflexivity. Qed.
End TryFacts.


Section Structure.
Context {F : Type} {Fl : PyFloat F} {Cf : Config} {Pg : Pygeoif F}.

Lemma find_first path tg tx a b rest :
  find path (Elem tg tx (Elem path a b :: rest)) = Some (Elem path a b).
Proof.
  unfold find, findall. cbn [children]. rewrite filter_cons.
  by rewrite decide_True.
Qed.

Lemma findall_all path tg tx es :
  Forall (fun e => tag e = path) es → findall path (Elem tg tx es) = es.
Proof.
  unfold findall. cbn [children]. induction 1 as [|e es He _ IH]; [done|].
  rewrite filter_cons, decide_True by done. by rewrite IH.
Qed.

Lemma findall_none path tg tx es :
  Forall (fun e => tag e ≠ path) es → findall path (Elem tg tx es) = [].
Proof.
  unfold findall. cbn [children]. induction 1 as [|e es He _ IH]; [done|].
  by rewrite filter_cons, decide_False by done.
Qed.

Lemma findall_skip path tg tx e es :
  tag e ≠ path → findall path (Elem tg tx (e :: es)) = findall path (Elem tg tx es).
Proof.
  intros He. unfold findall. cbn [children].
  by rewrite filter_cons, decide_False by done.
Qed.

Lemma ring_element_encode (cs : list (list F)) precision t :
  cs ≠ [] → coordinates_text cs precision = mret t →
  Polygon.ring_element KMLNS (geo.LinearRing cs) precision = mret (ring_markup t).
Proof.
  intros Hne Ht. unfold Polygon.ring_element, LinearRing.__init__,
    LineString.__init__.
  rewrite bool_decide_eq_false_2 by (intros [_ [? ?]]; done).
  rewrite bind_ret. unfold _Geometry.etree_element, _Geometry.__init__.
  cbn [kml_coordinates geo_bool.truthy].
  destruct cs as [|c0 rest]; [done|]. cbn [negb].
  unfold _Geometry.Coordinates_etree_element.
  rewrite (coordinates_subelement_nonempty _ _ _ c0 rest) by done.
  cbn [Coordinates__init__ coords default from_option id geo.coords].
  by rewrite Ht, !bind_ret.
Qed.

Lemma ring_markup_decode (cs' : list (list F)) t strict :
  mapM_M (parse_tuple (F:=F)) (tokens t) = mret cs' →
  LinearRing_from_coordinates cs' = inr cs' →
  LinearRing._get_geometry KMLNS (ring_markup t) strict
  = mret (Some (geo.LinearRing cs')).
Proof.
  intros Hp Hr. unfold LinearRing._get_geometry.
  rewrite (get_coordinates_text KMLNS (ring_markup t)
             (Elem (KMLNS +:+ "coordinates") (Some t) []) t)
    by (done || apply find_first).
  rewrite Hp, try_except_ret, bind_ret.
  unfold lift. by rewrite Hr.
Qed.

Lemma ring_round_trip (cs cs' : list (list F)) precision strict :
  ring_round_trips (default 6%Z precision) cs cs' →
  ∃ t, Polygon.ring_element KMLNS (geo.LinearRing cs) precision
         = mret (ring_markup t) ∧
       LinearRing._get_geometry KMLNS (ring_markup t) strict
         = mret (Some (geo.LinearRing cs')).
Proof.
  intros (Hu & Hr & Hv).
  destruct (coordinates_text_round_trip cs cs' precision Hu Hr) as (t & Ht & Hp).
  exists t. split.
  - apply ring_element_encode; [by destruct Hu|done].
  - by apply ring_markup_decode.
Qed.

Lemma ring_round_trips_nonempty p (cs cs' : list (list F)) :
  ring_round_trips p cs cs' → cs ≠ [] ∧ cs' ≠ [].
Proof.
  intros ([Hne _] & Hr & _). split; [done|].
  apply Forall2_length in Hr. destruct cs, cs'; done.
Qed.

Lemma find_ring_in_boundary name t :
  find (KMLNS +:+ "LinearRing") (boundary_markup name t) = Some (ring_markup t).
Proof. apply find_first. Qed.

Lemma find_outer_boundary t ts :
  find (KMLNS +:+ "outerBoundaryIs") (polygon_markup t ts)
  = Some (boundary_markup "outerBoundaryIs" t).
Proof. apply find_first. Qed.

Lemma findall_inner_boundaries t ts :
  findall (KMLNS +:+ "innerBoundaryIs") (polygon_markup t ts)
  = boundary_markup "innerBoundaryIs" <$> ts.
Proof.
  unfold polygon_markup. rewrite findall_skip by (cbn [tag]; tag_neq).
  apply findall_all, Forall_fmap, Forall_true. done.
Qed.

Lemma inner_boundaries_encode (interiors : list (list (list F))) ts precision
    tg tx ch :
  Forall2 (fun cs t => Polygon.ring_element KMLNS (geo.LinearRing cs) precision
                       = mret (ring_markup t)) interiors ts →
  foldlM (fun element interior =>
            r ← Polygon.ring_element KMLNS (geo.LinearRing interior) precision;
            mret (append element
                    (Elem (KMLNS +:+ "innerBoundaryIs") None [r])))
    (Elem tg tx ch) interiors
  = mret (Elem tg tx (ch ++ (boundary_markup "innerBoundaryIs" <$> ts))).
Proof.
  intros Hall. revert ch.
  induction Hall as [|cs t interiors ts Ht _ IH]; intros ch.
  - cbn. by rewrite app_nil_r.
  - cbn [foldlM]. rewrite Ht, !bind_ret. unfold append. cbn [tag text children].
    rewrite IH. by rewrite <- app_assoc.
Qed.

Lemma polygon_encode (exterior : list (list F)) interiors t ts precision :
  exterior ≠ [] →
  Polygon.ring_element KMLNS (geo.LinearRing exterior) precision
    = mret (ring_markup t) →
  Forall2 (fun cs t => Polygon.ring_element KMLNS (geo.LinearRing cs) precision
                       = mret (ring_markup t)) interiors ts →
  Polygon.etree_element
    (Polygon.__init__ None None None None (geo.Polygon exterior interiors))
    precision
  = mret (polygon_markup t ts).
Proof.
  intros Hne Hext Hints. unfold Polygon.etree_element.
  unfold _Geometry.etree_element at 1.
  cbn [Polygon.__init__ _Geometry.__init__ kml_coordinates _geometry ns cls
       extrude tessellate altitude_mode _Geometry.bool_subelement
       _Geometry.enum_subelement default from_option id app __name__].
  rewrite bind_ret. cbn [geo_bool.truthy].
  destruct exterior as [|c0 rest]; [done|]. cbn [negb].
  rewrite Hext, bind_ret. unfold append at 2. cbn [tag text children app].
  by rewrite (inner_boundaries_encode interiors ts).
Qed.

Lemma collect_hole_markup element strict (acc : list (geo.Geometry F)) name t
    (cs' : list (list F)) :
  cs' ≠ [] →
  LinearRing._get_geometry KMLNS (ring_markup t) strict
    = mret (Some (geo.LinearRing cs')) →
  Polygon.collect_hole KMLNS element strict acc (boundary_markup name t)
  = mret (acc ++ [geo.LinearRing cs']).
Proof.
  intros Hne Ht. unfold Polygon.collect_hole.
  rewrite find_ring_in_boundary, Ht, bind_ret.
  cbn [geo_bool.truthy]. by destruct cs'.
Qed.

Lemma holes_decode (ts : list string) (interiors' : list (list (list F)))
    element strict acc :
  Forall2 (fun t cs' => cs' ≠ [] ∧
             LinearRing._get_geometry KMLNS (ring_markup t) strict
             = mret (Some (geo.LinearRing cs'))) ts interiors' →
  foldlM (Polygon.collect_hole KMLNS element strict) acc
    (boundary_markup "innerBoundaryIs" <$> ts)
  = mret (acc ++ (geo.LinearRing <$> interiors')).
Proof.
  intros Hall. revert acc.
  induction Hall as [|t cs' ts interiors' [Hne Ht] _ IH]; intros acc.
  - cbn. by rewrite app_nil_r.
  - rewrite !fmap_cons. cbn [foldlM].
    rewrite (collect_hole_markup _ _ _ _ _ cs') by done.
    rewrite bind_ret, IH. by rewrite <- app_assoc.
Qed.

Lemma polygon_decode t ts (exterior' : list (list F)) interiors' strict :
  exterior' ≠ [] →
  LinearRing._get_geometry KMLNS (ring_markup t) strict
    = mret (Some (geo.LinearRing exterior')) →
  Forall2 (fun t cs' => cs' ≠ [] ∧
             LinearRing._get_geometry KMLNS (ring_markup t) strict
             = mret (Some (geo.LinearRing cs'))) ts interiors' →
  Polygon._get_geometry KMLNS (polygon_markup t ts) strict
  = mret (Some (geo.Polygon exterior' interiors')).
Proof.
  intros Hne Hext Hints. unfold Polygon._get_geometry.
  rewrite find_outer_boundary, find_ring_in_boundary, Hext, bind_ret.
  rewrite findall_inner_boundaries.
  rewrite (holes_decode ts interiors') by done. rewrite bind_ret.
  cbn [geo_bool.truthy]. destruct exterior' as [|c r]; [done|]. cbn [negb].
  unfold geo.from_linear_rings. cbn [geo.coords app].
  do 3 f_equal. rewrite <- list_fmap_compose. by rewrite list_fmap_id.
Qed.

Lemma polygon_round_trip (g g' : geo.Geometry F) precision strict :
  polygon_round_trips (default 6%Z precision) g g' →
  ∃ t ts, Polygon.etree_element (Polygon.__init__ None None None None g)
            precision = mret (polygon_markup t ts) ∧
          Polygon._get_geometry KMLNS (polygon_markup t ts) strict
            = mret (Some g') ∧
          geo.geom_type g' = "Polygon".
Proof.
  destruct g as [| | |exterior interiors| | | |]; try done.
  destruct g' as [| | |exterior' interiors'| | | |]; try done.
  intros [Hext Hints].
  destruct (ring_round_trip _ _ precision strict Hext) as (t & Het & Hdt).
  assert (∃ ts,
    Forall2 (fun cs t => Polygon.ring_element KMLNS (geo.LinearRing cs)
                           precision = mret (ring_markup t)) interiors ts ∧
    Forall2 (fun t cs' => cs' ≠ [] ∧
               LinearRing._get_geometry KMLNS (ring_markup t) strict
               = mret (Some (geo.LinearRing cs'))) ts interiors')
    as (ts & Hets & Hdts).
  { clear Hext Het Hdt.
    induction Hints as [|cs cs' interiors interiors' Hr _ (ts & ? & ?)].
    - exists []. by split; constructor.
    - destruct (ring_round_trip _ _ precision strict Hr) as (t' & ? & ?).
      destruct (ring_round_trips_nonempty _ _ _ Hr) as [_ ?].
      exists (t' :: ts). split; by constructor. }
  destruct (ring_round_trips_nonempty _ _ _ Hext) as [? ?].
  exists t, ts. split; [by apply polygon_encode|].
  split; [by apply polygon_decode|done].
Qed.
End Structure.

Section MultiRoundTrip.
Context {F : Type} {Fl : PyFloat F} {Cf : Config} {Pg : Pygeoif F}.

Lemma members_polygons encode_multi (gs : list (geo.Geometry F)) ms precision
    tg tx ch :
  Forall2 (fun g m =>
             MultiGeometry._map_to_kml g = KPolygon ∧
             Polygon.etree_element (Polygon.__init__ None None None None g)
               precision = mret m) gs ms →
  MultiGeometry.members encode_multi KMLNS precision (Elem tg tx ch) gs
  = mret (Elem tg tx (ch ++ ms)).
Proof.
  intros Hall. revert ch.
  induction Hall as [|g m gs ms [Hk Hm] _ IH]; intros ch.
  - cbn. by rewrite app_nil_r.
  - cbn [MultiGeometry.members]. rewrite Hk.
    change (Polygon.__init__ (Some KMLNS) None None None g)
      with (Polygon.__init__ None None None None g).
    rewrite Hm, bind_ret. unfold append. cbn [tag text children].
    rewrite IH. by rewrite <- app_assoc.
Qed.

Lemma etree_element_of_unfold ns extrude tessellate altitude_mode
    (geometry : geo.Geometry F) precision :
  MultiGeometry.etree_element_of ns extrude tessellate altitude_mode geometry
    precision
  = (element ← _Geometry.etree_element
                 (MultiGeometry.__init__ (Some ns) extrude tessellate
                    altitude_mode geometry) precision;
     match geometry with
     | geo.MultiPoint geoms | geo.MultiLineString geoms
     | geo.MultiPolygon geoms | geo.GeometryCollection geoms =>
         MultiGeometry.members
           (fun g => MultiGeometry.etree_element_of ns None None None g
                       precision) ns precision element geoms
     | _ => raise (Exn AssertionError "")
     end).
Proof. by destruct geometry. Qed.

Lemma base_element_plain cls ns (g : option (geo.Geometry F)) precision :
  _Geometry.etree_element (_Geometry.__init__ cls ns None None None g None)
    precision
  = mret (Elem (default KMLNS ns +:+ __name__ cls) None []).
Proof. reflexivity. Qed.

Lemma multi_polygon_encode (gs : list (geo.Geometry F)) ms precision :
  Forall2 (fun g m =>
             MultiGeometry._map_to_kml g = KPolygon ∧
             Polygon.etree_element (Polygon.__init__ None None None None g)
               precision = mret m) gs ms →
  encode (geo.MultiPolygon gs) precision = mret (multi_markup ms).
Proof.
  intros Hall. unfold encode. cbn [create_kml_geometry].
  rewrite (bind_ret (MultiGeometry.__init__ _ _ _ _ _)).
  change (MultiGeometry.etree_element_of KMLNS None None None
            (geo.MultiPolygon gs) precision = mret (multi_markup ms)).
  rewrite etree_element_of_unfold. unfold MultiGeometry.__init__.
  rewrite base_element_plain, bind_ret.
  by rewrite (members_polygons _ gs ms).
Qed.

Lemma decode_group_none strict ms g :
  Forall (fun m => tag m ≠ KMLNS +:+ __name__ g) ms →
  decode_group (F:=F) KMLNS strict (multi_markup ms) g = mret [].
Proof.
  intros Hall. unfold decode_group, multi_markup.
  by rewrite findall_none by done.
Qed.

Lemma decode_group_polygons strict ms (gs' : list (geo.Geometry F)) :
  Forall2 (fun m g' => tag m = KMLNS +:+ "Polygon" ∧
             Polygon._get_geometry KMLNS m strict = mret (Some g')) ms gs' →
  decode_group KMLNS strict (multi_markup ms) KPolygon = mret gs'.
Proof.
  intros Hall. unfold decode_group, multi_markup.
  rewrite findall_all.
  2:{ eapply Forall2_Forall_l; [exact Hall|]. apply Forall_true.
      by intros ? ? [? _]. }
  rewrite (bind_silent _ (Some <$> gs')).
  2:{ apply mapM_M_ok, Forall2_fmap_r. eapply Forall2_impl; [exact Hall|].
      by intros ? ? [_ ?]. }
  f_equal. f_equal.
  clear Hall. induction gs' as [|g gs' IH]; [done|]. cbn. by rewrite IH.
Qed.

Lemma multi_polygon_decode strict ms (gs' : list (geo.Geometry F)) :
  gs' ≠ [] → Forall (fun g' => geo.geom_type g' = "Polygon") gs' →
  Forall2 (fun m g' => tag m = KMLNS +:+ "Polygon" ∧
             Polygon._get_geometry KMLNS m strict = mret (Some g')) ms gs' →
  MultiGeometry._get_geometry KMLNS (multi_markup ms) strict
  = mret (Some (geo.MultiPolygon gs')).
Proof.
  intros Hne Hty Hall. rewrite get_geometry_unfold, tag_loops_are_groups.
  assert (Forall (fun m => tag m = KMLNS +:+ "Polygon") ms) as Htags.
  { eapply Forall2_Forall_l; [exact Hall|]. apply Forall_true.
    by intros ? ? [? _]. }
  assert (∀ g, g ≠ KPolygon →
            Forall (fun m => tag m ≠ KMLNS +:+ __name__ g) ms) as Hother.
  { intros g Hg. eapply Forall_impl; [exact Htags|].
    intros m -> Heq. apply append_inj in Heq. by destruct g. }
  unfold MultiGeometry.allowed_geometries. cbn [mapM_M].
  rewrite (decode_group_none strict ms KMultiGeometry), bind_ret
    by (by apply Hother).
  rewrite (decode_group_none strict ms KPoint), bind_ret by (by apply Hother).
  rewrite (decode_group_none strict ms KLineString), bind_ret
    by (by apply Hother).
  rewrite (decode_group_polygons strict ms gs'), bind_ret by done.
  rewrite (decode_group_none strict ms KLinearRing) by (by apply Hother).
  rewrite !bind_ret. cbn [concat app]. rewrite app_nil_r.
  by rewrite (create_multigeometry_same gs' "Polygon").
Qed.
End MultiRoundTrip.

(** ** The round trip *)

Section RoundTrip.
Context {F : Type} {Fl : PyFloat F} {Cf : Config} {Pg : Pygeoif F}.

Lemma polygon_round_trips_same p (g g' : geo.Geometry F) :
  polygon_round_trips p g g' → same_up_to_rounding p g g'.
Proof.
  destruct g as [| | |exterior interiors| | | |]; try done.
  destruct g' as [| | |exterior' interiors'| | | |]; try done.
  intros [(_ & Hext & _) Hints]. constructor; [done|].
  eapply Forall2_impl; [exact Hints|]. by intros ? ? (_ & ? & _).
Qed.

(** C1 (amended): for every precision, decoding what the encoder writes
    yields the value with each coordinate field replaced by the number
    [float] reads from the field's formatted text, for (a) the coordinate
    sequence of a Coordinates object (what a Point or LineString wrapper
    holds), when it is not empty and its tuples all have 2 or all have 3
    fields, and (b) every LinearRing, every Polygon with its interior
    rings, and every MultiPolygon that is not empty, encoded and decoded
    in the default namespace, when each ring is such a sequence and the
    ring constructor accepts the rounded ring as it is.  The decoded
    value is equal to the encoded one up to rounding. *)
Theorem encoded_geometry_decodes_to_rounded_geometry precision strict :
  (∀ (cs cs' : list (list F)) element kwarg,
     uniform cs → coords_round_to (default 6%Z precision) cs cs' →
     (e ← coordinates_subelement (Coordinates__init__ None (Some cs)) element
            precision;
      subelement_coordinates_kwarg e kwarg strict) = mret {[ kwarg := cs' ]}) ∧
  (∀ g g' : geo.Geometry F,
     round_trips (default 6%Z precision) g g' →
     (e ← encode g precision; decode_as g e strict) = mret (Some g') ∧
     same_up_to_rounding (default 6%Z precision) g g').
Proof.
  split; [intros; by apply codec_round_trip|].
  intros g g' Hrt. destruct Hrt as [cs cs' Hr|g g' Hp|gs gs' Hne Hall].
  - split; [|constructor; by destruct Hr as (_ & ? & _)].
    destruct (ring_round_trip cs cs' precision strict Hr) as (t & He & Hd).
    unfold encode, decode_as. cbn [create_kml_geometry MultiGeometry._map_to_kml
                                   class_get_geometry].
    change (LinearRing.__init__ None None None None (Some (geo.LinearRing cs))
              None ≫= fun w => etree_element w precision)
      with (Polygon.ring_element KMLNS (geo.LinearRing cs) precision).
    by rewrite He, bind_ret.
  - split; [|by apply polygon_round_trips_same].
    destruct (polygon_round_trip g g' precision strict Hp)
      as (t & ts & He & Hd & _).
    destruct g as [| | |exterior interiors| | | |]; try done.
    unfold encode, decode_as. cbn [create_kml_geometry MultiGeometry._map_to_kml
                                   class_get_geometry].
    rewrite bind_ret.
    change (etree_element (Polygon.__init__ None None None None
                             (geo.Polygon exterior interiors)) precision)
      with (Polygon.etree_element
              (Polygon.__init__ None None None None
                 (geo.Polygon exterior interiors)) precision).
    by rewrite He, bind_ret.
  - split.
    2:{ constructor. eapply Forall2_impl; [exact Hall|].
        apply polygon_round_trips_same. }
    assert (∃ ms,
      Forall2 (fun g m =>
                 MultiGeometry._map_to_kml g = KPolygon ∧
                 Polygon.etree_element
                   (Polygon.__init__ None None None None g) precision
                 = mret m) gs ms ∧
      Forall2 (fun m g' => tag m = KMLNS +:+ "Polygon" ∧
                 Polygon._get_geometry KMLNS m strict = mret (Some g'))
        ms gs' ∧
      Forall (fun g' => geo.geom_type g' = "Polygon") gs')
      as (ms & Henc & Hdec & Hty).
    { clear Hne. induction Hall as [|g g' gs gs' Hp _ (ms & ? & ? & ?)].
      - exists []. by repeat constructor.
      - destruct (polygon_round_trip g g' precision strict Hp)
          as (t & ts & He & Hd & Hk).
        exists (polygon_markup t ts :: ms).
        split; [|split]; constructor; try done.
        split; [|done]. by destruct g. }
    rewrite (multi_polygon_encode gs ms) by done. rewrite bind_ret.
    unfold decode_as. cbn [MultiGeometry._map_to_kml class_get_geometry].
    apply multi_polygon_decode; try done.
    apply Forall2_length in Hall. destruct gs, gs'; done.
Qed.
End RoundTrip.

(** ** The model of the constructors raises what the decoder handles *)

Section ModelFacts.
Context {F : Type} {Ed : EqDecision F} {Fl : PyFloat F}.

Lemma set_geoms_from_errors l2 (cs : list (list F)) e :
  PygeoifModel.set_geoms_from l2 cs = inl e →
  exn_type e ∈ [IndexError; TypeError; DimensionError].
Proof.
  induction cs as [|c cs IH]; cbn; [discriminate|].
  destruct (negb (length c =? l2)%nat); [intros [= <-]; set_solver|].
  destruct (negb _); [intros [= <-]; set_solver|].
  destruct (PygeoifModel.set_geoms_from l2 cs); [|discriminate].
  intros [= <-]. by apply IH.
Qed.

Lemma model_ring_errors_are_handled :
  ring_errors_are_handled (F:=F) (Pygeoif0:=PygeoifModel.pygeoif_model).
Proof.
  intros cs e. cbn. unfold PygeoifModel.linear_ring, PygeoifModel.line_string.
  destruct cs as [|c0 cs]; [discriminate|].
  destruct (PygeoifModel.set_geoms_from _ _) as [e'|[|c r]] eqn:Hs.
  - intros [= <-]. by eapply set_geoms_from_errors.
  - discriminate.
  - by case_decide.
Qed.

End ModelFacts.

(** ** The claims on examples *)

Lemma coordinates_without_text_witness :
  subelement_coordinates_kwarg (F:=Q) (Elem (kml "coordinates") None [])
    "coords" true = ([], inr ∅) ∧
  _get_coordinates (F:=Q) KMLNS
    (Elem (kml "LinearRing") None [Elem (kml "coordinates") None []]) true
    = ([], inr []) ∧
  _get_coordinates (F:=Q) KMLNS
    (Elem (kml "LinearRing") None [Elem (kml "coordinates") None []]) true
    = _get_coordinates KMLNS (Elem (kml "LinearRing") None []) true.
Proof.
  apply (coordinates_without_text_decode_to_nothing (F:=Q)
           KMLNS "coords"
           (Elem (kml "LinearRing") None [Elem (kml "coordinates") None []])
           (Elem (kml "coordinates") None [])
           (Elem (kml "LinearRing") None []) true); reflexivity.
Defined.

Lemma non_numeric_field_witness :
  ∃ latlon c cause,
    latlon ∈ tokens "abc,def" ∧ c ∈ PyStr.split_on "," latlon ∧
    py_float (F:=Q) c = inl cause ∧
    subelement_coordinates_kwarg (F:=Q)
      (Elem (kml "coordinates") (Some "abc,def") []) "coords" true
      = ([invalid_coordinates_msg
            (Elem (kml "coordinates") (Some "abc,def") []) cause],
         inl (Exn KMLParseError
                (invalid_coordinates_msg
                   (Elem (kml "coordinates") (Some "abc,def") []) cause))) ∧
    subelement_coordinates_kwarg (F:=Q)
      (Elem (kml "coordinates") (Some "abc,def") []) "coords" false
      = ([invalid_coordinates_msg
            (Elem (kml "coordinates") (Some "abc,def") []) cause], inr ∅).
Proof.
  apply (non_numeric_field_raises_when_strict_else_logs (F:=Q)
           (Elem (kml "coordinates") (Some "abc,def") []) "abc,def" "coords").
  - reflexivity.
  - exists "abc,def", "abc", "could not convert string to float: 'abc'".
    repeat split; [by left | by left].
Defined.

(** The text "abc,def" under both modes. *)
Example abc_def_strict :
  subelement_coordinates_kwarg (F:=Q)
    (Elem (kml "coordinates") (Some "abc,def") []) "coords" true
  = (["Invalid coordinates in '<{http://www.opengis.net/kml/2.2}coordinates>abc,def</{http://www.opengis.net/kml/2.2}coordinates>' caused by 'could not convert string to float: 'abc''"],
     inl (Exn KMLParseError
            "Invalid coordinates in '<{http://www.opengis.net/kml/2.2}coordinates>abc,def</{http://www.opengis.net/kml/2.2}coordinates>' caused by 'could not convert string to float: 'abc''")).
Proof. vm_compute. reflexivity. Qed.

Example abc_def_lenient :
  outcome (subelement_coordinates_kwarg (F:=Q)
    (Elem (kml "coordinates") (Some "abc,def") []) "coords" false)
  = inr ∅.
Proof. vm_compute. reflexivity. Qed.

Lemma coordinate_text_witness :
  ((fields_parse_to "1.0, 2.0 3.0,4.0" [[1; 2]; [3; 4]]%Q ↔
      subelement_coordinates_kwarg sloppy "coords" true
        = ([], inr {[ "coords" := [[1; 2]; [3; 4]]%Q ]})) ∧
   (fields_parse_to "1.0, 2.0 3.0,4.0" [[1; 2]; [3; 4]]%Q →
      _get_coordinates KMLNS (Elem (kml "LineString") None [sloppy]) true
        = ([], inr [[1; 2]; [3; 4]]%Q) ∧
      Forall2 (fun latlon c =>
                 length c = length (PyStr.split_on "," latlon) ∧
                 (1 ≤ length c)%nat)
        (tokens "1.0, 2.0 3.0,4.0") [[1; 2]; [3; 4]]%Q)) ∧
  fields_parse_to "1.0, 2.0 3.0,4.0" [[1; 2]; [3; 4]]%Q.
Proof.
  split.
  - apply (coordinate_text_is_normalised_then_split (F:=Q) KMLNS "coords"
             "1.0, 2.0 3.0,4.0" (Elem (kml "LineString") None [sloppy])
             sloppy true [[1; 2]; [3; 4]]%Q); reflexivity.
  - repeat constructor.
Defined.

(** The text "1.0, 2.0 3.0,4.0" parses to [(1.0, 2.0), (3.0, 4.0)] in both
    modes, without logging. *)
Example sloppy_text_parses (strict : bool) :
  subelement_coordinates_kwarg sloppy "coords" strict
    = ([], inr {[ "coords" := [[1; 2]; [3; 4]]%Q ]}) ∧
  _get_coordinates KMLNS (Elem (kml "LineString") None [sloppy]) strict
    = ([], inr [[1; 2]; [3; 4]]%Q).
Proof.
  assert (fields_parse_to "1.0, 2.0 3.0,4.0" [[1; 2]; [3; 4]]%Q) as Hp
    by repeat constructor.
  split.
  - by apply (fields_parse_to_kwarg _ "1.0, 2.0 3.0,4.0").
  - by apply (fields_parse_to_coordinates _ _ sloppy "1.0, 2.0 3.0,4.0").
Qed.

(** C8, the sentence as the spec has it: the text "1,2,3,4" parses, in
    strict mode, to one tuple of four fields. *)
Lemma parsed_tuple_of_four_fields :
  ¬ spec_parsed_tuples_have_arity_2_or_3 (F:=Q).
Proof.
  intros Hspec.
  specialize (Hspec (Elem (kml "coordinates") (Some "1,2,3,4") []) "coords"
                true [] {[ "coords" := [[1; 2; 3; 4]]%Q ]}
                [[1; 2; 3; 4]]%Q).
  assert (fields_parse_to "1,2,3,4" [[1; 2; 3; 4]]%Q) as Hp
    by repeat constructor.
  apply (fields_parse_to_kwarg
           (Elem (kml "coordinates") (Some "1,2,3,4") []) _ "coords" true)
    in Hp; [|reflexivity].
  specialize (Hspec Hp (lookup_singleton_eq _ _)).
  inversion_clear Hspec as [|? ? [Hl|Hl] _]; discriminate.
Qed.

Lemma mutually_exclusive_witness :
  (Point.__init__ None None None None (Some (geo.Point [1; 2]%Q))
     (Some (Coordinates__init__ None (Some [[1; 2]%Q])))
     = raise mutually_exclusive ∧
   LineString.__init__ KLineString None None None None
     (Some (geo.Point [1; 2]%Q))
     (Some (Coordinates__init__ None (Some [[1; 2]%Q])))
     = raise mutually_exclusive ∧
   LinearRing.__init__ None None None None (Some (geo.Point [1; 2]%Q))
     (Some (Coordinates__init__ None (Some [[1; 2]%Q])))
     = raise mutually_exclusive) ∧
  (∃ point line ring,
     Point.__init__ None None None None (Some (geo.Point [1; 2]%Q)) None
       = mret point ∧
     LineString.__init__ KLineString None None None None
       (Some (geo.Point [1; 2]%Q)) None = mret line ∧
     LinearRing.__init__ None None None None (Some (geo.Point [1; 2]%Q)) None
       = mret ring ∧
     cls point = KPoint ∧ cls line = KLineString ∧ cls ring = KLinearRing ∧
     (is_Some (@None (@Coordinates Q)) →
      kml_coordinates point = None ∧ kml_coordinates line = None ∧
      kml_coordinates ring = None)).
Proof.
  split.
  - apply (geometry_and_kml_coordinates_are_mutually_exclusive (F:=Q)
             None None None None (Some (geo.Point [1; 2]%Q))
             (Some (Coordinates__init__ None (Some [[1; 2]%Q])))).
    split; by eexists.
  - apply (geometry_and_kml_coordinates_are_mutually_exclusive (F:=Q)
             None None None None (Some (geo.Point [1; 2]%Q)) None).
    intros [_ [c Hc]]. discriminate.
Defined.

Lemma resolve_collection_witness :
  create_multigeometry (F:=Q) [] = None ∧
  create_multigeometry [geo.Point [1; 2]%Q; geo.Point [3; 4]%Q]
    = Some (geo.MultiPoint [geo.Point [1; 2]%Q; geo.Point [3; 4]%Q]) ∧
  create_multigeometry
    [geo.LineString [[1; 2]; [3; 4]]%Q; geo.LineString [[5; 6]; [7; 8]]%Q]
    = Some (geo.MultiLineString
              [geo.LineString [[1; 2]; [3; 4]]%Q;
               geo.LineString [[5; 6]; [7; 8]]%Q]) ∧
  create_multigeometry [geo.Polygon [[1; 2]%Q] []]
    = Some (geo.MultiPolygon [geo.Polygon [[1; 2]%Q] []]) ∧
  create_multigeometry [geo.Point [1; 2]%Q; geo.LineString [[1; 2]; [3; 4]]%Q]
    = Some (geo.GeometryCollection
              [geo.Point [1; 2]%Q; geo.LineString [[1; 2]; [3; 4]]%Q]).
Proof.
  split; [|split; [|split; [|split]]].
  - by apply (create_multigeometry_resolves_collection (F:=Q) []).
  - apply (create_multigeometry_resolves_collection
             [geo.Point [1; 2]%Q; geo.Point [3; 4]%Q]);
      [done | by repeat constructor].
  - apply (create_multigeometry_resolves_collection
             [geo.LineString [[1; 2]; [3; 4]]%Q;
              geo.LineString [[5; 6]; [7; 8]]%Q]);
      [done | by repeat constructor].
  - apply (create_multigeometry_resolves_collection
             [geo.Polygon [[1; 2]%Q] []]);
      [done | by repeat constructor].
  - apply (create_multigeometry_resolves_collection
             [geo.Point [1; 2]%Q; geo.LineString [[1; 2]; [3; 4]]%Q]);
      [done|].
    intros k Hk Hall. inversion Hall as [|? ? H1 Hrest]; subst.
    inversion Hrest as [|? ? H2 _]; subst. cbn in *. congruence.
Defined.

(** A ring alone, and a nested collection alone, resolve to the generic
    collection. *)
Example resolve_collection_of_a_ring :
  create_multigeometry [geo.LinearRing [[1; 2]%Q]]
    = Some (geo.GeometryCollection [geo.LinearRing [[1; 2]%Q]]).
Proof. vm_compute. reflexivity. Qed.

(** C2, the sentence as the spec has it: a 2-tuple followed by a 3-tuple
    is encoded without an error, the third field of the 3-tuple dropped. *)
Lemma mixed_sequence_is_encoded :
  coordinates_subelement mixed_2_then_3 (Elem (kml "coordinates") None [])
    None
  = mret (Elem (kml "coordinates")
            (Some "1.000000,2.000000 3.000000,4.000000") []) ∧
  ¬ spec_mixed_arity_is_rejected (F:=Q).
Proof.
  assert (coordinates_subelement mixed_2_then_3
            (Elem (kml "coordinates") None []) None
          = mret (Elem (kml "coordinates")
                    (Some "1.000000,2.000000 3.000000,4.000000") [])) as He
    by (vm_compute; reflexivity).
  split; [exact He|]. intros Hspec.
  destruct (Hspec mixed_2_then_3 (Elem (kml "coordinates") None []) None
              [1; 2]%Q [3; 4; 5]%Q) as (lg & msg & Hm);
    [by left | by right; left | done | done |].
  rewrite He in Hm. discriminate.
Qed.

Lemma first_tuple_witness :
  (length [1; 2]%Q ≠ 2%nat → length [1; 2]%Q ≠ 3%nat →
   coordinates_subelement mixed_2_then_3 (Elem (kml "coordinates") None [])
     None = raise (dimension_error (coords mixed_2_then_3))) ∧
  (length [1; 2]%Q = 2%nat ∨ length [1; 2]%Q = 3%nat →
   ∀ lg e,
     coordinates_subelement mixed_2_then_3 (Elem (kml "coordinates") None [])
       None = (lg, inl e) →
     exn_type e = IndexError ∨ exn_type e = ValueError) ∧
  (length [1; 2]%Q = 2%nat →
   coordinates_subelement mixed_2_then_3 (Elem (kml "coordinates") None [])
     None
   = coordinates_subelement
       (mkCoordinates (coordinates_ns mixed_2_then_3)
          (take 2 <$> coords mixed_2_then_3))
       (Elem (kml "coordinates") None []) None) ∧
  (length [1; 2]%Q = 3%nat →
   (∃ c, c ∈ coords mixed_2_then_3 ∧ (length c < 3)%nat) →
   ∃ lg e,
     coordinates_subelement mixed_2_then_3 (Elem (kml "coordinates") None [])
       None = (lg, inl e) ∧
     (exn_type e = IndexError ∨ exn_type e = ValueError)) ∧
  xx_etree_coordinates KMLNS (coords mixed_2_then_3) None
  = coordinates_subelement mixed_2_then_3
      (Elem (KMLNS +:+ "coordinates") None []) None.
Proof.
  apply (dimension_error_depends_on_first_tuple (F:=Q) mixed_2_then_3
           (Elem (kml "coordinates") None []) None KMLNS [1; 2]%Q
           [[3; 4; 5]%Q]).
  reflexivity.
Defined.

(** A 3-tuple followed by a 2-tuple: an [IndexError], no padding. *)
Example mixed_3_then_2_raises :
  coordinates_subelement mixed_3_then_2 (Elem (kml "coordinates") None [])
    None
  = raise (Exn IndexError "tuple index out of range").
Proof. vm_compute. reflexivity. Qed.

(** A first tuple of one field: the dimension error. *)
Example one_field_is_a_dimension_error :
  coordinates_subelement (mkCoordinates KMLNS [[1]; [3; 4]]%Q)
    (Elem (kml "coordinates") None []) None
  = raise (Exn KMLWriteError
             "Invalid dimensions in coordinates '[(1.0,), (3.0, 4.0)]'").
Proof. vm_compute. reflexivity. Qed.

Ltac rings_present := apply (bool_decide_unpack _); vm_compute; exact I.

Lemma polygon_exterior_witness :
  outcome (Polygon._get_geometry KMLNS
             (polygon_element [ring_element "abc"]
                [[ring_element "0.1,0.1 0.2,0.1 0.2,0.2 0.1,0.1"]]) false)
  = inr None ∧
  outcome (Polygon._get_geometry KMLNS
             (polygon_element [ring_element "0,0 1,0 1,1 0,0"]
                [[ring_element "abc"];
                 [ring_element "0.1,0.1 0.2,0.1 0.2,0.2 0.1,0.1"]]) false)
  = inr (Some (geo.Polygon square [small_square])).
Proof.
  split.
  - apply (polygon_without_usable_exterior_is_absent (F:=Q) KMLNS
             (polygon_element [ring_element "abc"]
                [[ring_element "0.1,0.1 0.2,0.1 0.2,0.2 0.1,0.1"]])
             (Elem (kml "outerBoundaryIs") None [ring_element "abc"])
             (ring_element "abc")).
    + apply model_ring_errors_are_handled.
    + reflexivity.
    + reflexivity.
    + rings_present.
    + vm_compute. reflexivity.
  - destruct (polygon_without_usable_exterior_is_absent (F:=Q) KMLNS
             (polygon_element [ring_element "0,0 1,0 1,1 0,0"]
                [[ring_element "abc"];
                 [ring_element "0.1,0.1 0.2,0.1 0.2,0.2 0.1,0.1"]])
             (Elem (kml "outerBoundaryIs") None
                [ring_element "0,0 1,0 1,1 0,0"])
             (ring_element "0,0 1,0 1,1 0,0")
             model_ring_errors_are_handled) as [_ Hsome];
      [reflexivity | reflexivity | rings_present |].
    rewrite (Hsome (geo.LinearRing square)) by (vm_compute; reflexivity).
    vm_compute. reflexivity.
Defined.

Lemma polygon_missing_piece_witness :
  (Polygon._get_geometry (F:=Q) KMLNS (Elem (kml "Polygon") None []) false
   = raise (missing_exn "outerBoundaryIs" (Elem (kml "Polygon") None []))) ∧
  (Polygon._get_geometry (F:=Q) KMLNS (polygon_element [] []) true
   = raise (missing_exn "LinearRing" (polygon_element [] []))) ∧
  (outcome (Polygon._get_geometry (F:=Q) KMLNS
              (polygon_element [ring_element "0,0 1,0 1,1 0,0"] [[]]) false)
   = inl (missing_exn "LinearRing"
            (polygon_element [ring_element "0,0 1,0 1,1 0,0"] [[]]))) ∧
  (outcome (Polygon._get_geometry (F:=Q) KMLNS
              (polygon_element [ring_element "0,0 1,0 1,1 0,0"]
                 [[ring_element "0.1,0.1 0.2,0.1 0.2,0.2 0.1,0.1"]; []]) true)
   = inl (missing_exn "LinearRing"
            (polygon_element [ring_element "0,0 1,0 1,1 0,0"]
               [[ring_element "0.1,0.1 0.2,0.1 0.2,0.2 0.1,0.1"]; []]))) ∧
  (outcome (Polygon._get_geometry (F:=Q) KMLNS
              (polygon_element [ring_element "0,0 1,0 1,1 0,0"]
                 [[ring_element "abc"]; []]) true)
   = inl (Exn KMLParseError
            (invalid_coordinates_msg (ring_element "abc")
               "could not convert string to float: 'abc'")) ∧
   ∃ cause,
     Exn KMLParseError
       (invalid_coordinates_msg (ring_element "abc")
          "could not convert string to float: 'abc'")
     = Exn KMLParseError (invalid_coordinates_msg (ring_element "abc") cause)).
Proof.
  split; [|split; [|split; [|split]]].
  - by apply (polygon_missing_piece_is_fatal (F:=Q) KMLNS
                (Elem (kml "Polygon") None []) false).
  - by apply (polygon_missing_piece_is_fatal (F:=Q) KMLNS
                (polygon_element [] []) true
                ) with (Elem (kml "outerBoundaryIs") None []).
  - destruct (polygon_missing_piece_is_fatal (F:=Q) KMLNS
                (polygon_element [ring_element "0,0 1,0 1,1 0,0"] [[]]) false)
      as (_ & _ & Hinner).
    destruct (Hinner model_ring_errors_are_handled
                (Elem (kml "outerBoundaryIs") None
                   [ring_element "0,0 1,0 1,1 0,0"])
                (ring_element "0,0 1,0 1,1 0,0") eq_refl eq_refl)
      as (_ & Hmissing & _); [by left|].
    apply Hmissing. by left.
  - destruct (polygon_missing_piece_is_fatal (F:=Q) KMLNS
                (polygon_element [ring_element "0,0 1,0 1,1 0,0"]
                   [[ring_element "0.1,0.1 0.2,0.1 0.2,0.2 0.1,0.1"]; []])
                true) as (_ & _ & Hinner).
    destruct (Hinner model_ring_errors_are_handled
                (Elem (kml "outerBoundaryIs") None
                   [ring_element "0,0 1,0 1,1 0,0"])
                (ring_element "0,0 1,0 1,1 0,0") eq_refl eq_refl)
      as (_ & Hmissing & _); [by right; left|].
    apply Hmissing. right.
    repeat (constructor; [eexists; vm_compute; reflexivity|]). constructor.
  - destruct (polygon_missing_piece_is_fatal (F:=Q) KMLNS
                (polygon_element [ring_element "0,0 1,0 1,1 0,0"]
                   [[ring_element "abc"]; []]) true) as (_ & _ & Hinner).
    destruct (Hinner model_ring_errors_are_handled
                (Elem (kml "outerBoundaryIs") None
                   [ring_element "0,0 1,0 1,1 0,0"])
                (ring_element "0,0 1,0 1,1 0,0") eq_refl eq_refl)
      as (_ & _ & Hfirst); [by right; left|].
    apply (Hfirst eq_refl [ring_element "0,0 1,0 1,1 0,0"]
             (ring_element "abc") []
             [invalid_coordinates_msg (ring_element "abc")
                "could not convert string to float: 'abc'"]).
    + reflexivity.
    + constructor; [eexists; vm_compute; reflexivity|constructor].
    + vm_compute. reflexivity.
Defined.

(** The messages of the missing pieces. *)
Example polygon_without_outer_boundary (strict : bool) :
  Polygon._get_geometry (F:=Q) KMLNS (Elem (kml "Polygon") None []) strict
  = raise (Exn KMLParseError
             "Missing outerBoundaryIs in <{http://www.opengis.net/kml/2.2}Polygon></{http://www.opengis.net/kml/2.2}Polygon>").
Proof. by destruct strict. Qed.

(** C4, the sentence as the spec has it: under strict decoding, an
    exterior ring whose coordinates are not numeric is reported, not the
    LinearRing that the inner boundary misses. *)
Lemma invalid_exterior_is_reported_first :
  outcome (Polygon._get_geometry (F:=Q) KMLNS
             (polygon_element [ring_element "abc"] [[]]) true)
  = inl (Exn KMLParseError
           (invalid_coordinates_msg (ring_element "abc")
              "could not convert string to float: 'abc'")) ∧
  ¬ spec_missing_inner_ring_is_named (F:=Q).
Proof.
  assert (outcome (Polygon._get_geometry (F:=Q) KMLNS
                     (polygon_element [ring_element "abc"] [[]]) true)
          = inl (Exn KMLParseError
                   (invalid_coordinates_msg (ring_element "abc")
                      "could not convert string to float: 'abc'"))) as He
    by (vm_compute; reflexivity).
  split; [exact He|]. intros Hspec.
  specialize (Hspec KMLNS (polygon_element [ring_element "abc"] [[]]) true
                (Elem (kml "outerBoundaryIs") None [ring_element "abc"])
                (ring_element "abc") eq_refl eq_refl).
  rewrite He in Hspec.
  assert (Exists (lacks_ring KMLNS)
            (findall (KMLNS +:+ "innerBoundaryIs")
               (polygon_element [ring_element "abc"] [[]]))) as Hex
    by (by left).
  specialize (Hspec Hex). vm_compute in Hspec. discriminate.
Qed.

(** C6, the sentence as the spec has it: a LinearRing child of a
    multi-geometry element is decoded and collected, after the four tags
    the spec lists. *)
Lemma linear_ring_child_is_collected :
  MultiGeometry._get_geometry KMLNS ring_in_multi_geometry true
    = mret (Some (geo.GeometryCollection [geo.LinearRing square])) ∧
  grouped_decode (F:=Q) spec_preference_order KMLNS ring_in_multi_geometry
    true = mret None ∧
  MultiGeometry._get_geometry (F:=Q) KMLNS ring_in_multi_geometry true
    ≠ grouped_decode spec_preference_order KMLNS ring_in_multi_geometry true.
Proof.
  assert (MultiGeometry._get_geometry KMLNS ring_in_multi_geometry true
          = mret (Some (geo.GeometryCollection [geo.LinearRing square])))
    as Hcode by (vm_compute; reflexivity).
  assert (grouped_decode (F:=Q) spec_preference_order KMLNS
            ring_in_multi_geometry true = mret None)
    as Hspec by (vm_compute; reflexivity).
  split; [exact Hcode|]. split; [exact Hspec|].
  rewrite Hcode, Hspec. discriminate.
Qed.

(** Members come out grouped by tag, not in document order: the nested
    collection first, then the polygons, then the ring. *)
Example members_are_grouped_by_tag :
  MultiGeometry._get_geometry KMLNS
    (Elem (kml "MultiGeometry") None
       [polygon_element [ring_element "0,0 1,0 1,1 0,0"] [];
        ring_element "0,0 1,0 1,1 0,0";
        Elem (kml "MultiGeometry") None
          [polygon_element [ring_element "0,0 1,0 1,1 0,0"] []];
        polygon_element [ring_element "0.1,0.1 0.2,0.1 0.2,0.2 0.1,0.1"] []])
    false
  = mret (Some (geo.GeometryCollection
                  [geo.MultiPolygon [geo.Polygon square []];
                   geo.Polygon square [];
                   geo.Polygon small_square [];
                   geo.LinearRing square])).
Proof. vm_compute. reflexivity. Qed.

Ltac round_field :=
  unfold rounds_to; eexists; split; [vm_compute; reflexivity|];
  split; vm_compute; reflexivity.
Ltac round_tuple :=
  repeat (apply List.Forall2_cons; [round_field|]); apply List.Forall2_nil.
Ltac rounds :=
  repeat (apply List.Forall2_cons; [round_tuple|]); apply List.Forall2_nil.

Lemma square_round_trips : ring_round_trips 6 square square.
Proof.
  split; [|split].
  - split; [done|]. exists 2%nat. split; [by left|]. by repeat constructor.
  - unfold coords_round_to, square. rounds.
  - vm_compute. reflexivity.
Qed.

Lemma small_square_round_trips : ring_round_trips 6 small_square small_square.
Proof.
  split; [|split].
  - split; [done|]. exists 2%nat. split; [by left|]. by repeat constructor.
  - unfold coords_round_to, small_square. rounds.
  - vm_compute. reflexivity.
Qed.

Lemma square_with_hole_round_trips :
  polygon_round_trips 6 square_with_hole square_with_hole.
Proof.
  split; [apply square_round_trips|].
  constructor; [apply small_square_round_trips|constructor].
Qed.

Lemma round_trip_witness :
  ((e ← coordinates_subelement (Coordinates__init__ None (Some square))
          (Elem (kml "coordinates") None []) None;
    subelement_coordinates_kwarg e "coords" true)
   = mret {[ "coords" := square ]}) ∧
  ((e ← encode square_with_hole None; decode_as square_with_hole e true)
   = mret (Some square_with_hole) ∧
   same_up_to_rounding 6 square_with_hole square_with_hole) ∧
  ((e ← encode (geo.MultiPolygon [square_with_hole; geo.Polygon square []])
          None;
    decode_as (geo.MultiPolygon [square_with_hole; geo.Polygon square []])
      e true)
   = mret (Some (geo.MultiPolygon [square_with_hole; geo.Polygon square []])) ∧
   same_up_to_rounding 6
     (geo.MultiPolygon [square_with_hole; geo.Polygon square []])
     (geo.MultiPolygon [square_with_hole; geo.Polygon square []])).
Proof.
  destruct (encoded_geometry_decodes_to_rounded_geometry (F:=Q) None true)
    as [Hcodec Hvalue].
  split; [|split].
  - apply Hcodec; apply square_round_trips.
  - apply Hvalue, round_trips_polygon, square_with_hole_round_trips.
  - apply Hvalue, round_trips_multi_polygon; [done|].
    constructor; [apply square_with_hole_round_trips|].
    constructor; [|constructor].
    split; [apply square_round_trips|constructor].
Defined.

(** Rounding at two digits: 0.125 is written "0.12" and read back as
    0.12. *)
Example rounding_at_two_digits :
  (e ← coordinates_subelement
         (Coordinates__init__ None (Some [[1 # 8; 5 # 2]%Q]))
         (Elem (kml "coordinates") None []) (Some 2%Z);
   subelement_coordinates_kwarg e "coords" true)
  = mret {[ "coords" := [[3 # 25; 5 # 2]%Q] ]}.
Proof.
  apply codec_round_trip.
  - split; [done|]. exists 2%nat. split; [by left|]. by repeat constructor.
  - unfold coords_round_to. cbn [default from_option id]. rounds.
Qed.

Lemma valid_two_squares : valid_value two_squares.
Proof.
  assert (valid_ring square) as Hsq.
  { split; [split; [cbn; lia|left; by repeat constructor]|reflexivity]. }
  assert (valid_ring square ∧ Forall valid_ring (@nil (list (list Q)))) as Hp
    by (split; [exact Hsq|constructor]).
  cbn [valid_value two_squares].
  exact (conj Hp (conj I (conj Hp (conj I I)))).
Qed.

(** C1, the sentence as the spec has it: a GeometryCollection of two
    polygons is a valid value; its encoding decodes to a MultiPolygon,
    which is not the collection up to rounding. *)
Lemma collection_of_polygons_decodes_to_multi_polygon :
  (e ← encode two_squares None; decode_as two_squares e true)
  = mret (Some (geo.MultiPolygon
                  [geo.Polygon square []; geo.Polygon square []])) ∧
  ¬ spec_round_trip (F:=Q).
Proof.
  assert ((e ← encode two_squares None; decode_as two_squares e true)
          = mret (Some (geo.MultiPolygon
                          [geo.Polygon square []; geo.Polygon square []])))
    as He by (vm_compute; reflexivity).
  split; [exact He|]. intros Hspec.
  destruct (Hspec None true two_squares valid_two_squares)
    as (g' & Hout & Hsame).
  rewrite He in Hout. unfold outcome, mret, M_ret in Hout.
  cbn [snd] in Hout. injection Hout as <-. inversion Hsame.
Qed.

(** The Point and LineString children of a multi-geometry element are
    decoded by [_Geometry._get_geometry], which yields nothing: the
    encoding of a MultiPoint decodes to no geometry. *)
Example multi_point_members_are_dropped :
  (e ← encode (geo.MultiPoint [geo.Point [1; 2]%Q; geo.Point [3; 4]%Q]) None;
   decode_as (geo.MultiPoint [geo.Point [1; 2]%Q; geo.Point [3; 4]%Q]) e true)
  = mret None.
Proof. vm_compute. reflexivity. Qed.

(** * Further properties of the module *)

(** ** Coordinate decoding: errors, diagnostics and modes *)

Section DecodeModes.
Context {F : Type} {Fl : PyFloat F} {Cf : Config}.

(** The comprehension over the tokens yields the tuples or raises the
    [ValueError] of a field, without logging. *)
Lemma parse_sequence_cases (latlons : list string) :
  (∃ cs, mapM_M (parse_tuple (F:=F)) latlons = ([], inr cs)) ∨
  (∃ msg, mapM_M (parse_tuple (F:=F)) latlons
          = ([], inl (Exn ValueError msg))).
Proof.
  destruct (mapM_M_silent (parse_tuple (F:=F)) latlons) as [[e|cs] Hm].
  - apply Forall_forall. intros x _. apply parse_tuple_silent.
  - right. pose proof Hm as Hm'.
    apply mapM_M_error_inv in Hm' as (latlon & lg' & _ & Hp).
    apply parse_tuple_error_inv in Hp as (c & msg & _ & _ & ->). by exists msg.
  - left. by exists cs.
Qed.

(** The outcomes of [subelement_coordinates_kwarg], in both modes. *)
Lemma kwarg_decoder_cases element kwarg :
  (∀ strict, subelement_coordinates_kwarg (F:=F) element kwarg strict
             = ([], inr ∅)) ∨
  (∃ cs, ∀ strict, subelement_coordinates_kwarg (F:=F) element kwarg strict
                   = ([], inr {[ kwarg := cs ]})) ∨
  (∃ cause, ∀ strict,
     subelement_coordinates_kwarg (F:=F) element kwarg strict
     = ([invalid_coordinates_msg element cause],
        if strict
        then inl (Exn KMLParseError (invalid_coordinates_msg element cause))
        else inr ∅)).
Proof.
  destruct (text element) as [t|] eqn:Ht.
  - destruct (parse_sequence_cases (tokens t)) as [[cs Hm]|[msg Hm]].
    + right; left. exists cs. intros strict.
      by rewrite (subelement_coordinates_kwarg_text _ _ _ _ Ht), Hm.
    + right; right. exists msg. intros strict.
      rewrite (subelement_coordinates_kwarg_text _ _ _ _ Ht), Hm.
      by destruct strict.
  - left. intros strict. unfold subelement_coordinates_kwarg. by rewrite Ht.
Qed.

(** The outcomes of [_get_coordinates], in both modes. *)
Lemma coordinates_decoder_cases ns element :
  (∃ cs, ∀ strict, _get_coordinates (F:=F) ns element strict = ([], inr cs)) ∨
  (∃ cause, ∀ strict,
     _get_coordinates (F:=F) ns element strict
     = ([invalid_coordinates_msg element cause],
        if strict
        then inl (Exn KMLParseError (invalid_coordinates_msg element cause))
        else inr [])).
Proof.
  destruct (find (ns +:+ "coordinates") element) as [coordinates|] eqn:Hf.
  2:{ left. exists []. intros strict. unfold _get_coordinates. by rewrite Hf. }
  destruct (text coordinates) as [t|] eqn:Ht.
  - destruct (parse_sequence_cases (tokens t)) as [[cs Hm]|[msg Hm]].
    + left. exists cs. intros strict.
      by rewrite (get_coordinates_text _ _ _ _ _ Hf Ht), Hm.
    + right. exists msg. intros strict.
      rewrite (get_coordinates_text _ _ _ _ _ Hf Ht), Hm. by destruct strict.
  - left. exists []. intros strict. unfold _get_coordinates. by rewrite Hf, Ht.
Qed.

(** X1: an exception that [subelement_coordinates_kwarg] or
    [_get_coordinates] raises is raised under strict decoding only, is a
    [KMLParseError], and its message is the one message logged before it
    was raised.  So non-strict decoding of coordinates never raises, and no
    [ValueError] or [AttributeError] of the parsing escapes. *)
Theorem coordinate_decoding_raises_only_logged_parse_errors
    ns element kwarg strict lg e :
  subelement_coordinates_kwarg (F:=F) element kwarg strict = (lg, inl e) ∨
  _get_coordinates (F:=F) ns element strict = (lg, inl e) →
  strict = true ∧ exn_type e = KMLParseError ∧ lg = [exn_str e].
Proof.
  intros [H|H].
  - destruct (kwarg_decoder_cases element kwarg)
      as [Hc|[[cs Hc]|[cause Hc]]]; rewrite Hc in H; try discriminate.
    destruct strict; [|discriminate]. by injection H as <- <-.
  - destruct (coordinates_decoder_cases ns element)
      as [[cs Hc]|[cause Hc]]; rewrite Hc in H; try discriminate.
    destruct strict; [|discriminate]. by injection H as <- <-.
Qed.

(** X2: the dict [subelement_coordinates_kwarg] returns is empty or holds
    the one key [kwarg]; a decoding that returns after logging was not
    strict, logged one message and returns no coordinates (the empty dict,
    or the empty list for [_get_coordinates]): coordinates are never
    returned together with a diagnostic. *)
Theorem logged_decoding_yields_no_coordinates ns element kwarg strict :
  (∀ lg d, subelement_coordinates_kwarg (F:=F) element kwarg strict
           = (lg, inr d) →
     (d = ∅ ∨ ∃ cs, d = {[ kwarg := cs ]}) ∧
     (lg ≠ [] → strict = false ∧ d = ∅ ∧ length lg = 1%nat)) ∧
  (∀ lg cs, _get_coordinates (F:=F) ns element strict = (lg, inr cs) →
     lg ≠ [] → strict = false ∧ cs = [] ∧ length lg = 1%nat).
Proof.
  split.
  - intros lg d H.
    destruct (kwarg_decoder_cases element kwarg)
      as [Hc|[[cs Hc]|[cause Hc]]]; rewrite Hc in H.
    + injection H as <- <-. split; [by left|done].
    + injection H as <- <-. split; [right; by exists cs|done].
    + destruct strict; [discriminate|]. injection H as <- <-.
      split; [by left|done].
  - intros lg cs H.
    destruct (coordinates_decoder_cases ns element)
      as [[cs' Hc]|[cause Hc]]; rewrite Hc in H.
    + by injection H as <- <-.
    + destruct strict; [discriminate|]. by injection H as <- <-.
Qed.

(** X3: strictness only adds failures.  When strict decoding of
    coordinates returns a value it has logged nothing, and non-strict
    decoding of the same element returns the same value, without
    logging. *)
Theorem strict_coordinates_are_the_lenient_coordinates ns element kwarg :
  (∀ lg d, subelement_coordinates_kwarg (F:=F) element kwarg true
           = (lg, inr d) →
     lg = [] ∧
     subelement_coordinates_kwarg (F:=F) element kwarg false = ([], inr d)) ∧
  (∀ lg cs, _get_coordinates (F:=F) ns element true = (lg, inr cs) →
     lg = [] ∧ _get_coordinates (F:=F) ns element false = ([], inr cs)).
Proof.
  split.
  - intros lg d H.
    destruct (kwarg_decoder_cases element kwarg)
      as [Hc|[[cs Hc]|[cause Hc]]]; rewrite Hc in H |- *;
      try discriminate; by injection H as <- <-.
  - intros lg cs H.
    destruct (coordinates_decoder_cases ns element)
      as [[cs' Hc]|[cause Hc]]; rewrite Hc in H |- *;
      try discriminate; by injection H as <- <-.
Qed.

(** A text of whitespace has no tokens. *)
Lemma lstrip_blank (t : string) : blank t = true → PyStr.lstrip t = "".
Proof.
  induction t as [|c t IH]; [done|]. cbn.
  intros [Hc Ht]%andb_prop. rewrite Hc. by apply IH.
Qed.

Lemma tokens_blank (t : string) : blank t = true → tokens t = [].
Proof.
  intros Hb. unfold tokens, PyStr.strip. by rewrite (lstrip_blank _ Hb).
Qed.

Lemma get_coordinates_blank ns element coordinates t strict :
  find (ns +:+ "coordinates") element = Some coordinates →
  text coordinates = Some t → blank t = true →
  _get_coordinates (F:=F) ns element strict = ([], inr []).
Proof.
  intros Hf Ht Hb. rewrite (get_coordinates_text _ _ _ _ _ Hf Ht).
  by rewrite (tokens_blank _ Hb).
Qed.

(** X4: a coordinates element whose text is empty or holds only
    whitespace decodes, in both modes and without logging, to a sequence
    of no tuples: [subelement_coordinates_kwarg] returns the dict that
    maps [kwarg] to the empty list (not the empty dict it returns for a
    missing text), [_get_coordinates] the empty list. *)
Theorem blank_coordinate_text_decodes_to_no_tuples
    ns kwarg t element coordinates strict :
  find (ns +:+ "coordinates") element = Some coordinates →
  text coordinates = Some t →
  blank t = true →
  subelement_coordinates_kwarg (F:=F) coordinates kwarg strict
    = ([], inr {[ kwarg := [] ]}) ∧
  _get_coordinates (F:=F) ns element strict = ([], inr []).
Proof.
  intros Hf Ht Hb. split.
  - rewrite (subelement_coordinates_kwarg_text _ _ _ _ Ht).
    by rewrite (tokens_blank _ Hb).
  - by apply (get_coordinates_blank ns element coordinates t).
Qed.

(** X5: the two decoders of coordinate text agree.  On the coordinates
    child of an element, [_get_coordinates] of the element returns what
    [subelement_coordinates_kwarg] of the child returns under its key (the
    empty list when the key is missing), after as many log messages; and
    when the one raises so does the other, for the same cause.  They
    differ in the element their message quotes: the child for
    [subelement_coordinates_kwarg], the parent for [_get_coordinates]. *)
Theorem both_coordinate_decoders_agree
    ns kwarg element coordinates strict :
  find (ns +:+ "coordinates") element = Some coordinates →
  (∀ lg d, subelement_coordinates_kwarg (F:=F) coordinates kwarg strict
           = (lg, inr d) →
     ∃ lg', _get_coordinates ns element strict
            = (lg', inr (default [] (d !! kwarg))) ∧
            length lg' = length lg) ∧
  (∀ lg e, subelement_coordinates_kwarg (F:=F) coordinates kwarg strict
           = (lg, inl e) →
     ∃ cause,
       lg = [invalid_coordinates_msg coordinates cause] ∧
       e = Exn KMLParseError (invalid_coordinates_msg coordinates cause) ∧
       _get_coordinates (F:=F) ns element strict
       = ([invalid_coordinates_msg element cause],
          inl (Exn KMLParseError (invalid_coordinates_msg element cause)))).
Proof.
  intros Hf.
  destruct (text coordinates) as [t|] eqn:Ht.
  - rewrite (subelement_coordinates_kwarg_text _ _ _ _ Ht),
      (get_coordinates_text _ _ _ _ _ Hf Ht).
    destruct (parse_sequence_cases (tokens t)) as [[cs ->]|[msg ->]].
    + split; [|discriminate]. intros lg d [= <- <-]. exists [].
      by rewrite lookup_singleton_eq.
    + destruct strict; cbn.
      * split; [discriminate|]. intros lg e [= <- <-]. by exists msg.
      * split; [|discriminate]. intros lg d [= <- <-].
        exists [invalid_coordinates_msg element msg]. split; [|done].
        by rewrite lookup_empty.
  - unfold subelement_coordinates_kwarg, _get_coordinates. rewrite Hf, Ht.
    split; [|discriminate]. intros lg d [= <- <-]. exists [].
    by rewrite lookup_empty.
Qed.

End DecodeModes.

(** ** Writing coordinates *)

Section Encoders.
Context {F : Type} {Fl : PyFloat F} {Cf : Config}.

Lemma format_2d_silent p (c : list F) : ∃ r, format_2d p c = ([], r).
Proof.
  unfold format_2d.
  destruct (format_field_silent p c 0) as [[e|a] ->]; [by eexists|].
  destruct (format_field_silent p c 1) as [[e|b] ->]; by eexists.
Qed.

Lemma format_3d_silent p (c : list F) : ∃ r, format_3d p c = ([], r).
Proof.
  unfold format_3d.
  destruct (format_field_silent p c 0) as [[e|a] ->]; [by eexists|].
  destruct (format_field_silent p c 1) as [[e|b] ->]; [by eexists|].
  destruct (format_field_silent p c 2) as [[e|d] ->]; by eexists.
Qed.

Lemma coordinates_text_silent (cs : list (list F)) precision :
  ∃ r, coordinates_text cs precision = ([], r).
Proof.
  unfold coordinates_text. destruct cs as [|c0 rest]; [by eexists|].
  cbv zeta. destruct (length c0 =? 2)%nat.
  - destruct (mapM_M_silent (format_2d (default 6%Z precision)) (c0 :: rest))
      as [[e|toks] ->]; [|by eexists..].
    apply Forall_forall. intros c _. apply format_2d_silent.
  - destruct (length c0 =? 3)%nat; [|by eexists].
    destruct (mapM_M_silent (format_3d (default 6%Z precision)) (c0 :: rest))
      as [[e|toks] ->]; [|by eexists..].
    apply Forall_forall. intros c _. apply format_3d_silent.
Qed.

(** X6: [coordinates_subelement] writes nothing but the text of the
    element.  It never logs; for an object without coordinates it returns
    the element as it is, a text it already has included; and when it
    returns, the tag and the children of the element are unchanged, and
    for an object with coordinates the element has a text. *)
Theorem coordinates_subelement_writes_only_the_text
    (obj : @Coordinates F) element precision :
  logged (coordinates_subelement obj element precision) = [] ∧
  (coords obj = [] →
   coordinates_subelement obj element precision = mret element) ∧
  (∀ e, outcome (coordinates_subelement obj element precision) = inr e →
     tag e = tag element ∧ children e = children element ∧
     (coords obj ≠ [] → is_Some (text e))).
Proof.
  unfold coordinates_subelement, Coordinates__bool__.
  destruct (coords obj) as [|c0 rest] eqn:Hc.
  - split; [done|]. split; [done|]. by intros e [= <-].
  - destruct (coordinates_text_silent (c0 :: rest) precision) as [[err|t] ->].
    + split; [done|]. split; [done|]. discriminate.
    + split; [done|]. split; [done|]. intros e [= <-]. by eauto.
Qed.

Lemma find_after path tg tx before a b after :
  Forall (fun c => tag c ≠ path) before →
  find path (Elem tg tx (before ++ Elem path a b :: after))
  = Some (Elem path a b).
Proof.
  intros Hb. unfold find, findall. cbn [children].
  induction Hb as [|c before Hc _ IH]; cbn [app].
  - by rewrite filter_cons_True.
  - by rewrite filter_cons_False.
Qed.

(** X7: the round trip of [xx_etree_coordinates] and [_get_coordinates],
    in any namespace.  For a sequence that is not empty and whose tuples
    all have 2 fields or all have 3, the coordinates element that
    [xx_etree_coordinates] builds, placed in any element as its first
    coordinates child, is decoded by [_get_coordinates] in both modes,
    without logging, to the sequence with each field replaced by the
    number [float] reads from the field's formatted text. *)
Theorem xx_etree_coordinates_round_trip
    ns (cs cs' : list (list F)) precision strict tg tx before after :
  uniform cs → coords_round_to (default 6%Z precision) cs cs' →
  Forall (fun c => tag c ≠ ns +:+ "coordinates") before →
  (e ← xx_etree_coordinates ns cs precision;
   _get_coordinates ns (Elem tg tx (before ++ e :: after)) strict)
  = mret cs'.
Proof.
  intros Hu Hr Hb.
  destruct (coordinates_text_round_trip cs cs' precision Hu Hr)
    as (t & Ht & Hp).
  unfold xx_etree_coordinates. destruct cs as [|c0 rest]; [by destruct Hu|].
  rewrite Ht, !bind_ret. cbn [tag children].
  rewrite (get_coordinates_text ns _ _ t strict
             (find_after _ tg tx before _ _ after Hb) eq_refl).
  rewrite Hp. apply try_except_ret.
Qed.

Lemma rounded_tuples_keep_their_arity p n (cs cs' : list (list F)) :
  coords_round_to p cs cs' →
  Forall (fun c => length c = n) cs → Forall (fun c => length c = n) cs'.
Proof.
  induction 1 as [|c c' l l' Hc _ IH]; [done|].
  intros Hall. inversion Hall; subst. constructor; [|by apply IH].
  apply Forall2_length in Hc. congruence.
Qed.

(** X17: a sequence whose first tuple has 2 fields loses every further
    field on the round trip.  When each later tuple has at least 2
    fields, encoding the sequence and decoding the text yields, in both
    modes and without logging, the first two fields of every tuple,
    rounded: a tuple of 3 fields comes back without its altitude, and
    every decoded tuple has 2 fields. *)
Theorem first_tuple_of_two_fields_drops_the_altitudes
    (c0 : list F) rest cs' precision element kwarg strict :
  length c0 = 2%nat →
  Forall (fun c => (2 ≤ length c)%nat) rest →
  coords_round_to (default 6%Z precision) (take 2 <$> c0 :: rest) cs' →
  (e ← coordinates_subelement (Coordinates__init__ None (Some (c0 :: rest)))
         element precision;
   subelement_coordinates_kwarg e kwarg strict) = mret {[ kwarg := cs' ]} ∧
  Forall (fun c => length c = 2%nat) cs'.
Proof.
  intros Hlen Hrest Hr.
  assert (Forall (fun c : list F => length c = 2%nat)
            (take 2 <$> c0 :: rest)) as Hall.
  { apply Forall_fmap, Forall_cons. split.
    - cbn. rewrite length_take. lia.
    - eapply Forall_impl; [exact Hrest|]. cbn. intros c Hc.
      rewrite length_take. lia. }
  assert (uniform (take 2 <$> c0 :: rest)) as Hu.
  { split; [done|]. exists 2%nat. split; [by left|done]. }
  split.
  - rewrite <- (codec_round_trip _ _ precision element kwarg strict Hu Hr).
    f_equal.
    rewrite (coordinates_subelement_nonempty
               (Coordinates__init__ None (Some (c0 :: rest))) _ _ c0 rest)
      by done.
    rewrite (coordinates_subelement_nonempty
               (Coordinates__init__ None (Some (take 2 <$> c0 :: rest)))
               _ _ (take 2 c0) (take 2 <$> rest)) by done.
    cbn [coords Coordinates__init__ default from_option id].
    by rewrite (coordinates_text_take_2 c0 rest precision Hlen).
  - by apply (rounded_tuples_keep_their_arity _ _ _ _ Hr).
Qed.

End Encoders.

(** ** Transfer of properties along the monad *)

Section Transfer.

Lemma succeeds_alike_ret {A} (x : A) : succeeds_alike (mret x) (mret x).
Proof. by intros lg v [= <- <-]. Qed.

Lemma succeeds_alike_bind {A B} (m m' : M A) (f f' : A → M B) :
  succeeds_alike m m' → (∀ x, succeeds_alike (f x) (f' x)) →
  succeeds_alike (m ≫= f) (m' ≫= f').
Proof.
  intros Hm Hf lg v. destruct m as [l [e|x]]; [discriminate|].
  destruct (Hm l x eq_refl) as [-> ->]. cbn.
  destruct (f x) as [l1 [e1|y]] eqn:Hx; [discriminate|].
  intros [= <- <-]. destruct (Hf x l1 y Hx) as [-> ->]. done.
Qed.

Lemma succeeds_alike_mapM {A B} (f f' : A → M B) (l : list A) :
  Forall (fun x => succeeds_alike (f x) (f' x)) l →
  succeeds_alike (mapM_M f l) (mapM_M f' l).
Proof.
  induction 1 as [|x l Hx _ IH]; [apply succeeds_alike_ret|].
  cbn [mapM_M]. apply succeeds_alike_bind; [done|]. intros y.
  apply succeeds_alike_bind; [done|]. intros ys. apply succeeds_alike_ret.
Qed.

Lemma succeeds_alike_foldlM {A B} (f f' : B → A → M B) (acc : B)
    (l : list A) :
  Forall (fun x => ∀ acc, succeeds_alike (f acc x) (f' acc x)) l →
  succeeds_alike (foldlM f acc l) (foldlM f' acc l).
Proof.
  intros Hall. revert acc.
  induction Hall as [|x l Hx _ IH]; intros acc; [apply succeeds_alike_ret|].
  cbn [foldlM]. apply succeeds_alike_bind; [apply Hx|]. intros acc'. apply IH.
Qed.

Lemma raises_only_ret {A} P (x : A) : raises_only P (mret x).
Proof. intros lg e. discriminate. Qed.

Lemma raises_only_raise {A} (P : exn → Prop) e :
  P e → raises_only (A:=A) P (raise e).
Proof. by intros He lg e' [= <- <-]. Qed.

Lemma raises_only_bind {A B} P (m : M A) (f : A → M B) :
  raises_only P m → (∀ x, raises_only P (f x)) → raises_only P (m ≫= f).
Proof.
  intros Hm Hf lg e H.
  apply bind_error_inv in H as [[l H]|(l & x & l' & _ & H)].
  - by eapply Hm.
  - by eapply Hf.
Qed.

Lemma raises_only_mapM {A B} P (f : A → M B) (l : list A) :
  Forall (fun x => raises_only P (f x)) l → raises_only P (mapM_M f l).
Proof.
  intros Hall lg e H. apply mapM_M_error_inv in H as (x & lg' & Hin & Hx).
  rewrite Forall_forall in Hall. by eapply Hall.
Qed.

Lemma raises_only_foldlM {A B} P (f : B → A → M B) (acc : B) (l : list A) :
  Forall (fun x => ∀ acc, raises_only P (f acc x)) l →
  raises_only P (foldlM f acc l).
Proof.
  intros Hall. revert acc.
  induction Hall as [|x l Hx _ IH]; intros acc; [apply raises_only_ret|].
  cbn [foldlM]. apply raises_only_bind; [apply Hx|]. intros acc'. apply IH.
Qed.

Lemma bind_ok_inv {A B} (m : M A) (f : A → M B) lg v :
  (m ≫= f) = (lg, inr v) →
  ∃ l x l', m = (l, inr x) ∧ f x = (l', inr v).
Proof.
  destruct m as [l [e|x]]; [discriminate|]. cbn.
  destruct (f x) as [l' r] eqn:Hf. intros [= <- ->]. by eexists _, _, _.
Qed.

End Transfer.

(** Induction on element trees: a property that holds of an element
    whenever it holds of its children holds of every element. *)
Lemma Element_ind (P : Element → Prop) :
  (∀ e, Forall P (children e) → P e) → ∀ e, P e.
Proof.
  intros H. fix IH 1. intros [tg tx cs]. apply H. cbn.
  induction cs as [|c cs IHcs]; constructor; [apply IH|exact IHcs].
Qed.

(** ** Decoding rings *)

Section RingDecode.
Context {F : Type} {Fl : PyFloat F} {Cf : Config} {Pg : Pygeoif F}.

(** X8: what [LinearRing._get_geometry] does with the outcome of the
    ring constructor, for an element whose coordinates decode silently.
    A ring the constructor builds is returned.  An [IndexError],
    [TypeError] or [DimensionError] of the constructor is logged with the
    serialised element, and then raised as a [KMLParseError] under strict
    decoding, turned into an absent geometry otherwise.  Any other
    exception of the constructor propagates unchanged and unlogged, in
    both modes. *)
Theorem ring_constructor_errors_are_handled_by_class ns element strict cs :
  _get_coordinates (F:=F) ns element strict = ([], inr cs) →
  (∀ r, LinearRing_from_coordinates cs = inr r →
     LinearRing._get_geometry ns element strict
     = mret (Some (geo.LinearRing r))) ∧
  (∀ e, LinearRing_from_coordinates cs = inl e → ring_decoder_handles e →
     LinearRing._get_geometry ns element strict
     = ([invalid_coordinates_msg element (exn_str e)],
        if strict
        then inl (Exn KMLParseError
                    (invalid_coordinates_msg element (exn_str e)))
        else inr None)) ∧
  (∀ e, LinearRing_from_coordinates cs = inl e → ¬ ring_decoder_handles e →
     LinearRing._get_geometry ns element strict = raise e).
Proof.
  intros Hc. unfold LinearRing._get_geometry. rewrite (bind_silent _ _ _ Hc).
  split; [|split].
  - by intros r ->.
  - intros e -> He. cbn. rewrite bool_decide_eq_true_2 by exact He.
    by destruct strict.
  - intros e -> He. cbn. by rewrite bool_decide_eq_false_2 by exact He.
Qed.

(** X9: a LinearRing element without a coordinates child, or whose
    coordinates child has no text or a text of whitespace only, is decoded
    as the ring of the empty sequence, in both modes and without logging:
    the geometry returned is the ring that the ring constructor builds
    from no coordinates.  When that ring is empty, as it is for [pygeoif],
    the geometry is an empty LinearRing and not [None], and it is no
    usable ring for a Polygon. *)
Theorem ring_without_coordinates_is_the_ring_of_nothing
    ns element strict cs :
  find (ns +:+ "coordinates") element = None ∨
  (∃ coordinates, find (ns +:+ "coordinates") element = Some coordinates ∧
     (text coordinates = None ∨
      ∃ t, text coordinates = Some t ∧ blank t = true)) →
  LinearRing_from_coordinates (F:=F) [] = inr cs →
  LinearRing._get_geometry (F:=F) ns element strict
  = mret (Some (geo.LinearRing cs)) ∧
  (cs = [] → usable_ring ns element = None).
Proof.
  intros Hnone Hcs.
  assert (∀ strict, _get_coordinates (F:=F) ns element strict = ([], inr []))
    as Hc.
  { intros strict'. destruct Hnone as [Hf|(c & Hf & [Ht|(t & Ht & Hb)])].
    - unfold _get_coordinates. by rewrite Hf.
    - unfold _get_coordinates. by rewrite Hf, Ht.
    - by apply (get_coordinates_blank ns element c t). }
  assert (∀ strict, LinearRing._get_geometry (F:=F) ns element strict
                    = mret (Some (geo.LinearRing cs))) as Hg.
  { intros strict'. unfold LinearRing._get_geometry.
    by rewrite (bind_silent _ _ _ (Hc strict')), Hcs. }
  split; [apply Hg|]. intros ->. unfold usable_ring. by rewrite Hg.
Qed.

(** X10: a LinearRing element whose coordinate text has a field that is
    not numeric.  Strict decoding raises the [KMLParseError] of that
    field, after logging it once.  Non-strict decoding logs the same
    message once and goes on with the empty sequence: it returns the ring
    that the ring constructor builds from no coordinates (for [pygeoif]
    an empty LinearRing), not [None]. *)
Theorem lenient_ring_with_invalid_text_is_the_ring_of_nothing
    ns element coordinates t cs :
  find (ns +:+ "coordinates") element = Some coordinates →
  text coordinates = Some t →
  has_non_numeric_field (F:=F) t →
  LinearRing_from_coordinates (F:=F) [] = inr cs →
  ∃ cause,
    LinearRing._get_geometry (F:=F) ns element false
    = ([invalid_coordinates_msg element cause],
       inr (Some (geo.LinearRing cs))) ∧
    LinearRing._get_geometry (F:=F) ns element true
    = ([invalid_coordinates_msg element cause],
       inl (Exn KMLParseError (invalid_coordinates_msg element cause))).
Proof.
  intros Hf Ht Hbad Hcs.
  destruct (parse_sequence_error (tokens t) Hbad)
    as (latlon & c & cause & _ & _ & _ & Hm).
  exists cause.
  assert (_get_coordinates (F:=F) ns element false
          = ([invalid_coordinates_msg element cause], inr [])) as Hl
    by (by rewrite (get_coordinates_text _ _ _ _ _ Hf Ht), Hm).
  assert (_get_coordinates (F:=F) ns element true
          = ([invalid_coordinates_msg element cause],
             inl (Exn KMLParseError (invalid_coordinates_msg element cause))))
    as Hs by (by rewrite (get_coordinates_text _ _ _ _ _ Hf Ht), Hm).
  unfold LinearRing._get_geometry.
  by rewrite (bind_outcome_inr _ _ _ _ Hl), (bind_outcome_inl _ _ _ _ Hs), Hcs.
Qed.

Lemma ring_result_is_a_ring ns element strict lg (h : geo.Geometry F) :
  LinearRing._get_geometry ns element strict = (lg, inr (Some h)) →
  ∃ r, h = geo.LinearRing r.
Proof.
  unfold LinearRing._get_geometry. intros H.
  apply bind_ok_inv in H as (l & cs & l' & _ & H).
  destruct (LinearRing_from_coordinates cs) as [e|r]; cbn in H.
  - case_bool_decide; [|discriminate]. by destruct strict.
  - injection H as _ <-. by exists r.
Qed.

Lemma usable_ring_is_nonempty ns element strict lg (h : geo.Geometry F) :
  LinearRing._get_geometry ns element strict = (lg, inr (Some h)) →
  geo_bool.truthy h = true → nonempty_ring h.
Proof.
  intros H Ht. apply ring_result_is_a_ring in H as [r ->].
  exists r. split; [done|]. by destruct r.
Qed.

Lemma ring_succeeds_alike ns element :
  succeeds_alike (LinearRing._get_geometry (F:=F) ns element true)
    (LinearRing._get_geometry (F:=F) ns element false).
Proof.
  unfold LinearRing._get_geometry.
  destruct (coordinates_decoder_cases (F:=F) ns element)
    as [[cs Hc]|[cause Hc]].
  - rewrite (bind_silent _ _ _ (Hc true)), (bind_silent _ _ _ (Hc false)).
    intros lg v.
    destruct (LinearRing_from_coordinates cs) as [e|r]; cbn.
    + case_bool_decide; discriminate.
    + by intros [= <- <-].
  - rewrite (Hc true). intros lg v. discriminate.
Qed.

Lemma ring_raises_only strict ns element :
  ring_errors_are_handled (F:=F) →
  raises_only (decode_error strict)
    (LinearRing._get_geometry (F:=F) ns element strict).
Proof.
  intros Hh lg e H.
  destruct (ring_get_geometry_cases ns element strict Hh)
    as [(lg' & r & Hr)|(-> & lg' & cause & Hr)]; rewrite Hr in H;
    [discriminate|].
  injection H as <- <-. split; [done|discriminate].
Qed.

End RingDecode.

(** ** Decoding polygons *)

Section PolygonShape.
Context {F : Type} {Fl : PyFloat F} {Cf : Config} {Pg : Pygeoif F}.

Lemma collected_holes_are_nonempty ns element strict inner_boundaries :
  ∀ interiors lg (holes : list (geo.Geometry F)),
  foldlM (Polygon.collect_hole ns element strict) interiors inner_boundaries
    = (lg, inr holes) →
  Forall nonempty_ring interiors →
  Forall nonempty_ring holes ∧
  (length holes ≤ length interiors + length inner_boundaries)%nat.
Proof.
  induction inner_boundaries as [|ib ibs IH]; intros interiors lg holes.
  - intros [= <- <-] Hi. split; [done|]. cbn. lia.
  - cbn [foldlM]. intros H Hi.
    apply bind_ok_inv in H as (l & acc & l' & Hc & H).
    assert (Forall nonempty_ring acc ∧
            (length acc ≤ S (length interiors))%nat) as [Hacc Hlen].
    { unfold Polygon.collect_hole in Hc.
      destruct (find _ ib) as [ring|]; [|discriminate].
      apply bind_ok_inv in Hc as (l1 & hole & l1' & Hr & Hc).
      destruct hole as [h|].
      - destruct (geo_bool.truthy h) eqn:Ht; injection Hc as _ <-.
        + split.
          * apply Forall_app. split; [done|]. constructor; [|done].
            by eapply usable_ring_is_nonempty.
          * rewrite length_app. cbn. lia.
        + split; [done|lia].
      - injection Hc as _ <-. split; [done|lia]. }
    destruct (IH _ _ _ H Hacc) as [Hholes Hl]. split; [done|]. cbn. lia.
Qed.

(** X11: a geometry that [Polygon._get_geometry] returns is a Polygon
    whose exterior ring has at least one point and whose interior rings
    each have at least one point: a ring that decodes to nothing is never
    kept, and an empty polygon is never returned (the geometry is absent
    instead).  It has at most one interior ring per inner boundary of the
    element. *)
Theorem decoded_polygon_has_no_empty_ring ns element strict lg g :
  Polygon._get_geometry (F:=F) ns element strict = (lg, inr (Some g)) →
  ∃ exterior interiors,
    g = geo.Polygon exterior interiors ∧
    exterior ≠ [] ∧ Forall (fun r => r ≠ []) interiors ∧
    (length interiors
     ≤ length (findall (ns +:+ "innerBoundaryIs") element))%nat.
Proof.
  unfold Polygon._get_geometry.
  destruct (find _ element) as [ob|]; [|discriminate].
  destruct (find _ ob) as [ring|]; [|discriminate].
  intros H. apply bind_ok_inv in H as (l & exterior & l' & Hext & H).
  apply bind_ok_inv in H as (l1 & holes & l1' & Hholes & H).
  apply collected_holes_are_nonempty in Hholes as [Hne Hlen]; [|done].
  destruct exterior as [ext|]; [|discriminate].
  destruct (geo_bool.truthy ext) eqn:Ht; [|discriminate].
  injection H as _ <-.
  destruct (usable_ring_is_nonempty _ _ _ _ _ Hext Ht) as (r & -> & Hr).
  exists r, (geo.coords <$> holes). split; [done|]. split; [done|]. split.
  - apply Forall_fmap. eapply Forall_impl; [exact Hne|].
    by intros h (r' & -> & Hr').
  - rewrite length_fmap. cbn in Hlen. lia.
Qed.

Lemma collect_hole_succeeds_alike ns element interiors inner_boundary :
  succeeds_alike
    (Polygon.collect_hole (F:=F) ns element true interiors inner_boundary)
    (Polygon.collect_hole (F:=F) ns element false interiors inner_boundary).
Proof.
  unfold Polygon.collect_hole.
  destruct (find _ inner_boundary) as [ring|]; [|intros lg v; discriminate].
  apply succeeds_alike_bind; [apply ring_succeeds_alike|].
  intros [h|]; [|apply succeeds_alike_ret].
  destruct (geo_bool.truthy h); apply succeeds_alike_ret.
Qed.

Lemma polygon_succeeds_alike ns element :
  succeeds_alike (Polygon._get_geometry (F:=F) ns element true)
    (Polygon._get_geometry (F:=F) ns element false).
Proof.
  unfold Polygon._get_geometry.
  destruct (find _ element) as [ob|]; [|intros lg v; discriminate].
  destruct (find _ ob) as [ring|]; [|intros lg v; discriminate].
  apply succeeds_alike_bind; [apply ring_succeeds_alike|]. intros exterior.
  apply succeeds_alike_bind.
  - apply succeeds_alike_foldlM, Forall_forall. intros ib _ acc.
    apply collect_hole_succeeds_alike.
  - intros interiors. destruct exterior as [ext|]; [|apply succeeds_alike_ret].
    destruct (geo_bool.truthy ext); apply succeeds_alike_ret.
Qed.

Lemma missing_raises_only {A} strict what element :
  what ∈ required_pieces →
  raises_only (A:=A) (decode_error strict) (Polygon.missing what element).
Proof.
  intros Hw. apply raises_only_raise. split; [done|]. intros _.
  by exists what, element.
Qed.

Lemma polygon_raises_only strict ns element :
  ring_errors_are_handled (F:=F) →
  raises_only (decode_error strict)
    (Polygon._get_geometry (F:=F) ns element strict).
Proof.
  intros Hh. unfold Polygon._get_geometry.
  destruct (find _ element) as [ob|];
    [|apply missing_raises_only; set_solver].
  destruct (find _ ob) as [ring|]; [|apply missing_raises_only; set_solver].
  apply raises_only_bind; [by apply ring_raises_only|]. intros exterior.
  apply raises_only_bind.
  - apply raises_only_foldlM, Forall_forall. intros ib _ acc.
    unfold Polygon.collect_hole.
    destruct (find _ ib) as [inner|]; [|apply missing_raises_only; set_solver].
    apply raises_only_bind; [by apply ring_raises_only|].
    intros [h|]; [|apply raises_only_ret].
    destruct (geo_bool.truthy h); apply raises_only_ret.
  - intros interiors. destruct exterior as [ext|]; [|apply raises_only_ret].
    destruct (geo_bool.truthy ext); apply raises_only_ret.
Qed.

End PolygonShape.

(** ** Decoding geometries of every class *)

Section GeometryModes.
Context {F : Type} {Fl : PyFloat F} {Cf : Config} {Pg : Pygeoif F}.

Lemma multi_get_geometry_groups ns element strict :
  MultiGeometry._get_geometry (F:=F) ns element strict
  = (groups ← mapM_M (decode_group ns strict element)
                MultiGeometry.allowed_geometries;
     mret (create_multigeometry (concat groups))).
Proof.
  rewrite get_geometry_unfold, tag_loops_are_groups, bind_assoc.
  apply bind_ext. intros groups. by rewrite bind_ret.
Qed.

Lemma findall_children path element :
  Forall (fun e => e ∈ children element) (findall path element).
Proof.
  apply Forall_forall. intros e He. unfold findall in He.
  by apply list_elem_of_filter in He as [_ ?].
Qed.

(** X12: strictness only adds failures, for the decoder of every class
    (Point, LineString, LinearRing, Polygon and MultiGeometry, nested to
    any depth).  When strict decoding of an element returns, it has logged
    nothing, and non-strict decoding of the element returns the same
    result without logging. *)
Theorem strict_geometry_is_the_lenient_geometry ns g element lg v :
  class_get_geometry (F:=F) ns true g element = (lg, inr v) →
  lg = [] ∧ class_get_geometry (F:=F) ns false g element = ([], inr v).
Proof.
  revert g lg v. induction element as [element IH] using Element_ind.
  intros g.
  change (succeeds_alike (class_get_geometry (F:=F) ns true g element)
            (class_get_geometry (F:=F) ns false g element)).
  destruct g; cbn [class_get_geometry].
  - apply succeeds_alike_ret.
  - apply succeeds_alike_ret.
  - apply ring_succeeds_alike.
  - apply polygon_succeeds_alike.
  - rewrite !multi_get_geometry_groups.
    apply succeeds_alike_bind; [|intros; apply succeeds_alike_ret].
    apply succeeds_alike_mapM, Forall_forall. intros g _.
    unfold decode_group.
    apply succeeds_alike_bind; [|intros; apply succeeds_alike_ret].
    apply succeeds_alike_mapM.
    rewrite Forall_forall in IH. apply Forall_forall. intros e He.
    intros lg v. apply IH.
    pose proof (findall_children (ns +:+ __name__ g) element) as Hc.
    rewrite Forall_forall in Hc. by apply Hc.
Qed.

(** X13: the exceptions of the geometry decoders, for the decoder of
    every class and elements nested to any depth, when the ring
    constructor raises only the exceptions [LinearRing._get_geometry]
    handles.  An exception raised is a [KMLParseError]; under non-strict
    decoding it is the error of a Polygon element that misses its outer
    boundary or a LinearRing, never an error of invalid coordinates. *)
Theorem geometry_decoding_raises_only_parse_errors
    ns strict g element lg e :
  ring_errors_are_handled (F:=F) →
  class_get_geometry (F:=F) ns strict g element = (lg, inl e) →
  exn_type e = KMLParseError ∧
  (strict = false →
   ∃ what polygon, what ∈ required_pieces ∧ e = missing_exn what polygon).
Proof.
  intros Hh. revert g lg e.
  induction element as [element IH] using Element_ind. intros g.
  change (raises_only (decode_error strict)
            (class_get_geometry (F:=F) ns strict g element)).
  destruct g; cbn [class_get_geometry].
  - apply raises_only_ret.
  - apply raises_only_ret.
  - by apply ring_raises_only.
  - by apply polygon_raises_only.
  - rewrite multi_get_geometry_groups.
    apply raises_only_bind; [|intros; apply raises_only_ret].
    apply raises_only_mapM, Forall_forall. intros g _.
    unfold decode_group.
    apply raises_only_bind; [|intros; apply raises_only_ret].
    apply raises_only_mapM.
    rewrite Forall_forall in IH. apply Forall_forall. intros c Hc.
    intros lg e. apply IH.
    pose proof (findall_children (ns +:+ __name__ g) element) as Hch.
    rewrite Forall_forall in Hch. by apply Hch.
Qed.

Lemma decode_group_of_nothing ns strict element g :
  (∀ e, class_get_geometry (F:=F) ns strict g e = mret None) →
  decode_group (F:=F) ns strict element g = mret [].
Proof.
  intros Hg. unfold decode_group.
  induction (findall (ns +:+ __name__ g) element) as [|e es IH]; [done|].
  cbn [mapM_M]. rewrite Hg, bind_ret, bind_assoc.
  destruct (mapM_M (class_get_geometry ns strict g) es) as [lg [err|rs]];
    [discriminate|].
  cbn in IH |- *. injection IH as -> Hrs. by rewrite Hrs.
Qed.

Lemma decode_group_no_child ns strict element g :
  Forall (fun c => tag c ≠ ns +:+ __name__ g) (children element) →
  decode_group (F:=F) ns strict element g = mret [].
Proof.
  intros Hall. unfold decode_group. destruct element as [tg tx es].
  by rewrite (findall_none _ _ _ _ Hall).
Qed.

(** X14: a multi-geometry element none of whose children is a
    MultiGeometry, Polygon or LinearRing element decodes to no geometry,
    in both modes, without logging or raising: so an element without
    children, and so an element whose children are Point and LineString
    elements, which are decoded by the [_get_geometry] of [_Geometry] and
    contribute nothing. *)
Theorem multi_geometry_without_decodable_children_is_absent
    ns element strict :
  Forall (fun c => tag c ∉ [ns +:+ "MultiGeometry"; ns +:+ "Polygon";
                            ns +:+ "LinearRing"]) (children element) →
  MultiGeometry._get_geometry (F:=F) ns element strict = mret None.
Proof.
  intros Hall. rewrite multi_get_geometry_groups.
  assert (∀ g, decode_group (F:=F) ns strict element g = mret []) as Hg.
  { intros g.
    destruct g; try (by apply decode_group_of_nothing);
      apply decode_group_no_child; eapply Forall_impl; try exact Hall;
      cbn; intros c Hc; set_solver. }
  cbn [mapM_M MultiGeometry.allowed_geometries].
  rewrite !Hg, !bind_ret. reflexivity.
Qed.

End GeometryModes.

(** ** The members of a resolved collection *)

Section Members.
Context {F : Type}.
Implicit Types geometries : list (geo.Geometry F).

Lemma create_multigeometry_container geometries :
  geometries ≠ [] →
  ∃ c, c ∈ [geo.MultiPoint; geo.MultiLineString; geo.MultiPolygon;
            @geo.GeometryCollection F] ∧
       create_multigeometry geometries = Some (c geometries).
Proof.
  intros Hne. destruct geometries as [|g gs]; [done|].
  destruct (decide (Forall (fun g' => geo.geom_type g' = geo.geom_type g)
                      (g :: gs))) as [Hall|Hmix].
  - rewrite (create_multigeometry_same _ _ Hne Hall).
    repeat case_decide; eexists; (split; [|reflexivity]); set_solver.
  - rewrite create_multigeometry_mixed; [|done|].
    + eexists; (split; [|reflexivity]); set_solver.
    + intros k Hk. apply Hmix. inversion Hk; by subst.
Qed.

(** X15: [create_multigeometry] returns [None] exactly for the empty
    list, whatever the members are.  For every other list it calls one of
    the four multi-geometry constructors with the whole list, in the
    given order: the value is of a multi-geometry kind, also for a single
    member, never that member itself. *)
Theorem create_multigeometry_keeps_the_members geometries :
  (create_multigeometry geometries = None ↔ geometries = []) ∧
  (∀ m, create_multigeometry geometries = Some m →
     MultiGeometry._map_to_kml m = KMultiGeometry ∧
     ∃ c, c ∈ [geo.MultiPoint; geo.MultiLineString; geo.MultiPolygon;
               @geo.GeometryCollection F] ∧
          m = c geometries).
Proof.
  split.
  - split; [|by intros ->]. intros Hnone.
    destruct geometries as [|g gs]; [done|].
    destruct (create_multigeometry_container (g :: gs)) as (c & _ & Hc);
      [done|congruence].
  - intros m Hm. destruct geometries as [|g gs]; [discriminate|].
    destruct (create_multigeometry_container (g :: gs)) as (c & Hin & Hc);
      [done|].
    rewrite Hc in Hm. injection Hm as <-. split; [|by exists c].
    repeat (apply elem_of_cons in Hin as [->|Hin]; [done|]).
    by apply elem_of_nil in Hin.
Qed.

End Members.

(** ** Wrappers built from a geometry *)

Section Wrappers.
Context {F : Type} {Fl : PyFloat F} {Cf : Config} {Pg : Pygeoif F}.

Lemma point_init_from_geometry namespace e t a (g : geo.Geometry F) :
  Point.__init__ namespace e t a (Some g) None
  = mret (_Geometry.__init__ KPoint namespace e t a None
            (if geo_bool.truthy g
             then Some (Coordinates__init__ None (Some (geo.coords g)))
             else None)).
Proof.
  unfold Point.__init__.
  rewrite bool_decide_eq_false_2 by (intros [_ [? ?]]; discriminate). done.
Qed.

Lemma line_string_init_from_geometry cls namespace e t a
    (g : geo.Geometry F) :
  LineString.__init__ cls namespace e t a (Some g) None
  = mret (_Geometry.__init__ cls namespace e t a None
            (if geo_bool.truthy g
             then Some (Coordinates__init__ None (Some (geo.coords g)))
             else None)).
Proof.
  unfold LineString.__init__.
  rewrite bool_decide_eq_false_2 by (intros [_ [? ?]]; discriminate). done.
Qed.

(** X16: a wrapper built from a geometry, and read back.  Constructing a
    Point, LineString or LinearRing wrapper from a geometry of its kind
    succeeds; the wrapper is truthy exactly when the geometry is; the
    [geometry] property of a wrapper of an empty geometry is [None], and
    otherwise it is what the constructor of [pygeoif] builds from the
    coordinates of the geometry, or the exception that constructor
    raises (so it is the geometry itself when the constructor rebuilds it
    from its coordinates).  A Polygon or MultiGeometry wrapper keeps the
    geometry as it is, and is truthy exactly when the geometry is. *)
Theorem wrapper_of_a_geometry_reads_it_back namespace e t a :
  (∀ c, ∃ w,
     Point.__init__ namespace e t a (Some (geo.Point c)) None = mret w ∧
     Point.__bool__ w = geo_bool.truthy (geo.Point c) ∧
     Point.geometry w
     = if geo_bool.truthy (geo.Point c)
       then c' ← lift (Point_from_coordinates [c]); mret (Some (geo.Point c'))
       else mret None) ∧
  (∀ cs, ∃ w,
     LineString.__init__ KLineString namespace e t a
       (Some (geo.LineString cs)) None = mret w ∧
     LineString.__bool__ w = geo_bool.truthy (geo.LineString cs) ∧
     LineString.geometry w
     = if geo_bool.truthy (geo.LineString cs)
       then cs' ← lift (LineString_from_coordinates cs);
            mret (Some (geo.LineString cs'))
       else mret None) ∧
  (∀ cs, ∃ w,
     LinearRing.__init__ namespace e t a (Some (geo.LinearRing cs)) None
       = mret w ∧
     LineString.__bool__ w = geo_bool.truthy (geo.LinearRing cs) ∧
     LinearRing.geometry w
     = if geo_bool.truthy (geo.LinearRing cs)
       then cs' ← lift (LinearRing_from_coordinates cs);
            mret (Some (geo.LinearRing cs'))
       else mret None) ∧
  (∀ g : geo.Geometry F,
     _Geometry.__bool__ (Polygon.__init__ namespace e t a g)
       = geo_bool.truthy g ∧
     _Geometry.geometry (Polygon.__init__ namespace e t a g) = Some g ∧
     _Geometry.__bool__ (MultiGeometry.__init__ namespace e t a g)
       = geo_bool.truthy g ∧
     _Geometry.geometry (MultiGeometry.__init__ namespace e t a g) = Some g).
Proof.
  split; [|split; [|split]].
  - intros c. rewrite point_init_from_geometry. eexists. split; [done|].
    destruct (geo_bool.truthy (geo.Point c)) eqn:Ht; [|done].
    split; reflexivity.
  - intros cs. rewrite line_string_init_from_geometry.
    eexists. split; [done|]. by destruct cs.
  - intros cs. unfold LinearRing.__init__.
    rewrite line_string_init_from_geometry.
    eexists. split; [done|]. by destruct cs.
  - done.
Qed.

End Wrappers.

(** ** The elements of polygons and multi-geometries *)

Section EncoderStructure.
Context {F : Type} {Fl : PyFloat F} {Cf : Config}.

Lemma bind_ret_r {A} (m : M A) : (m ≫= mret) = m.
Proof.
  destruct m as [l [e|x]]; [done|]. cbn. by rewrite app_nil_r.
Qed.

(** The loop over the interior rings appends one boundary for each. *)
Lemma appended_boundaries (f : list (list F) → M Element) name ns'
    (interiors : list (list (list F))) tg tx ch :
  foldlM (fun element interior =>
            r ← f interior;
            mret (append element (Elem (ns' +:+ name) None [r])))
    (Elem tg tx ch) interiors
  = (rs ← mapM_M f interiors;
     mret (Elem tg tx (ch ++ (boundary ns' name <$> rs)))).
Proof.
  revert ch. induction interiors as [|i interiors IH]; intros ch.
  - cbn [foldlM mapM_M]. rewrite bind_ret. cbn. by rewrite app_nil_r.
  - cbn [foldlM mapM_M]. rewrite !bind_assoc. apply bind_ext. intros r.
    rewrite bind_ret. unfold append. cbn [tag text children].
    rewrite IH, bind_assoc. apply bind_ext. intros rs. rewrite bind_ret.
    cbn. by rewrite <- app_assoc.
Qed.

(** X18: the element [Polygon.etree_element] builds on top of the base
    element.  For a wrapper of an empty geometry it is the base element
    alone.  For a Polygon with an exterior ring, the base element gets,
    after its own children, one outerBoundaryIs child that holds the
    element of the exterior ring, then one innerBoundaryIs child for each
    interior ring, in order, each holding the element of that ring; the
    rings are encoded as LinearRing wrappers in the namespace of the
    polygon, and the first ring that fails to encode fails the whole.  A
    geometry that is not empty and is not a Polygon fails the assertion,
    after the base element was built. *)
Theorem polygon_element_has_a_boundary_per_ring
    namespace e t a (g : geo.Geometry F) precision :
  (geo_bool.truthy g = false →
   Polygon.etree_element (Polygon.__init__ namespace e t a g) precision
   = _Geometry.etree_element (Polygon.__init__ namespace e t a g) precision) ∧
  (∀ exterior interiors, g = geo.Polygon exterior interiors →
     exterior ≠ [] →
     Polygon.etree_element (Polygon.__init__ namespace e t a g) precision
     = (element ← _Geometry.etree_element
                    (Polygon.__init__ namespace e t a g) precision;
        r ← Polygon.ring_element (default KMLNS namespace)
              (geo.LinearRing exterior) precision;
        rs ← mapM_M (fun interior =>
                       Polygon.ring_element (default KMLNS namespace)
                         (geo.LinearRing interior) precision) interiors;
        mret (Elem (tag element) (text element)
                (children element ++
                 boundary (default KMLNS namespace) "outerBoundaryIs" r ::
                 (boundary (default KMLNS namespace) "innerBoundaryIs"
                    <$> rs))))) ∧
  (geo_bool.truthy g = true → MultiGeometry._map_to_kml g ≠ KPolygon →
   Polygon.etree_element (Polygon.__init__ namespace e t a g) precision
   = (element ← _Geometry.etree_element
                  (Polygon.__init__ namespace e t a g) precision;
      raise (Exn AssertionError ""))).
Proof.
  unfold Polygon.etree_element.
  cbn [_geometry Polygon.__init__ _Geometry.__init__ ns].
  split; [|split].
  - intros ->. cbn [negb]. apply bind_ret_r.
  - intros exterior interiors -> Hne.
    assert (geo_bool.truthy (geo.Polygon exterior interiors) = true) as ->
      by (by destruct exterior).
    cbn [negb]. apply bind_ext. intros [tg tx ch].
    apply bind_ext. intros r. unfold append at 2. cbn [tag text children].
    rewrite appended_boundaries. apply bind_ext. intros rs.
    by rewrite <- app_assoc.
  - intros -> Hk. cbn [negb]. apply bind_ext. intros element.
    by destruct g.
Qed.

(** The loop over the members appends the element of each. *)
Lemma appended_members ns' precision (gs : list (geo.Geometry F)) tg tx ch :
  MultiGeometry.members
    (fun g => MultiGeometry.etree_element_of ns' None None None g precision)
    ns' precision (Elem tg tx ch) gs
  = (ms ← mapM_M (member_element ns' precision) gs;
     mret (Elem tg tx (ch ++ ms))).
Proof.
  revert ch. induction gs as [|g gs IH]; intros ch.
  - cbn [MultiGeometry.members mapM_M]. rewrite bind_ret. by rewrite app_nil_r.
  - cbn [MultiGeometry.members mapM_M]. rewrite bind_assoc.
    apply bind_ext. intros m. unfold append. cbn [tag text children].
    rewrite IH, bind_assoc. apply bind_ext. intros ms. rewrite bind_ret.
    by rewrite <- app_assoc.
Qed.

(** X19: the element [MultiGeometry.etree_element] builds on top of the
    base element.  For a multi-geometry of any of the four kinds, the
    base element gets, after its own children, the element of each member
    in the order of the members, none for a geometry without members;
    each member is encoded by the wrapper class of its kind (MultiGeometry
    again for a nested multi-geometry), in the namespace of the container
    and without the rendering hints of the container, and the first member
    that fails to encode fails the whole.  A geometry that is not a
    multi-geometry fails the assertion, after the base element was
    built. *)
Theorem multi_geometry_element_holds_the_members_in_order
    (namespace : string) e t a (g : geo.Geometry F) precision :
  (MultiGeometry._map_to_kml g = KMultiGeometry →
   MultiGeometry.etree_element
     (MultiGeometry.__init__ (Some namespace) e t a g) precision
   = (element ← _Geometry.etree_element
                  (MultiGeometry.__init__ (Some namespace) e t a g) precision;
      ms ← mapM_M (member_element namespace precision) (geo.geoms g);
      mret (Elem (tag element) (text element) (children element ++ ms)))) ∧
  (MultiGeometry._map_to_kml g ≠ KMultiGeometry →
   MultiGeometry.etree_element
     (MultiGeometry.__init__ (Some namespace) e t a g) precision
   = (element ← _Geometry.etree_element
                  (MultiGeometry.__init__ (Some namespace) e t a g) precision;
      raise (Exn AssertionError ""))).
Proof.
  unfold MultiGeometry.etree_element.
  cbn [_geometry MultiGeometry.__init__ _Geometry.__init__ ns extrude
       tessellate altitude_mode default from_option id].
  rewrite etree_element_of_unfold. split.
  - intros Hk. apply bind_ext. intros [tg tx ch].
    destruct g; try discriminate; cbn [geo.geoms tag text children];
      apply appended_members.
  - intros Hk. apply bind_ext. intros element. by destruct g.
Qed.

End EncoderStructure.

(** ** The further properties on examples *)

Lemma parse_error_witness :
  true = true ∧
  exn_type
    (Exn KMLParseError
       (invalid_coordinates_msg (Elem (kml "coordinates") (Some "abc,def") [])
          "could not convert string to float: 'abc'")) = KMLParseError ∧
  [invalid_coordinates_msg (Elem (kml "coordinates") (Some "abc,def") [])
     "could not convert string to float: 'abc'"]
  = [exn_str
       (Exn KMLParseError
          (invalid_coordinates_msg
             (Elem (kml "coordinates") (Some "abc,def") [])
             "could not convert string to float: 'abc'"))].
Proof.
  apply (coordinate_decoding_raises_only_logged_parse_errors (F:=Q) KMLNS
           (Elem (kml "coordinates") (Some "abc,def") []) "coords" true).
  left. vm_compute. reflexivity.
Defined.

Lemma blank_text_witness :
  subelement_coordinates_kwarg (F:=Q)
    (Elem (kml "coordinates") (Some "  ") []) "coords" true
    = ([], inr {[ "coords" := [] ]}) ∧
  _get_coordinates (F:=Q) KMLNS
    (Elem (kml "LineString") None [Elem (kml "coordinates") (Some "  ") []])
    true = ([], inr []).
Proof.
  apply (blank_coordinate_text_decodes_to_no_tuples (F:=Q) KMLNS "coords"
           "  "
           (Elem (kml "LineString") None
              [Elem (kml "coordinates") (Some "  ") []])
           (Elem (kml "coordinates") (Some "  ") []) true); reflexivity.
Defined.

Lemma decoders_agree_witness :
  (∀ lg d, subelement_coordinates_kwarg (F:=Q) sloppy "coords" true
           = (lg, inr d) →
     ∃ lg', _get_coordinates KMLNS (Elem (kml "LineString") None [sloppy])
              true = (lg', inr (default [] (d !! "coords"))) ∧
            length lg' = length lg) ∧
  (∀ lg e, subelement_coordinates_kwarg (F:=Q) sloppy "coords" true
           = (lg, inl e) →
     ∃ cause,
       lg = [invalid_coordinates_msg sloppy cause] ∧
       e = Exn KMLParseError (invalid_coordinates_msg sloppy cause) ∧
       _get_coordinates (F:=Q) KMLNS (Elem (kml "LineString") None [sloppy])
         true
       = ([invalid_coordinates_msg (Elem (kml "LineString") None [sloppy])
             cause],
          inl (Exn KMLParseError
                 (invalid_coordinates_msg
                    (Elem (kml "LineString") None [sloppy]) cause)))).
Proof.
  apply (both_coordinate_decoders_agree (F:=Q) KMLNS "coords"
           (Elem (kml "LineString") None [sloppy]) sloppy true).
  reflexivity.
Defined.

(** The two messages for the text "abc" of a LineString element: the
    child is quoted by the one decoder, the parent by the other. *)
Example decoders_quote_different_elements :
  logged (subelement_coordinates_kwarg (F:=Q)
            (Elem (kml "coordinates") (Some "abc") []) "coords" false)
  = ["Invalid coordinates in '<{http://www.opengis.net/kml/2.2}coordinates>abc</{http://www.opengis.net/kml/2.2}coordinates>' caused by 'could not convert string to float: 'abc''"] ∧
  logged (_get_coordinates (F:=Q) KMLNS
            (Elem (kml "LineString") None
               [Elem (kml "coordinates") (Some "abc") []]) false)
  = ["Invalid coordinates in '<{http://www.opengis.net/kml/2.2}LineString><{http://www.opengis.net/kml/2.2}coordinates>abc</{http://www.opengis.net/kml/2.2}coordinates></{http://www.opengis.net/kml/2.2}LineString>' caused by 'could not convert string to float: 'abc''"].
Proof. split; vm_compute; reflexivity. Qed.

Lemma xx_etree_coordinates_witness :
  (e ← xx_etree_coordinates (kml "") square None;
   _get_coordinates (kml "")
     (Elem (kml "LineString") None
        ([Elem (kml "extrude") (Some "1") []] ++ e :: [])) true)
  = mret square.
Proof.
  apply (xx_etree_coordinates_round_trip (F:=Q) (kml "") square square None
           true (kml "LineString") None [Elem (kml "extrude") (Some "1") []]
           []).
  - apply square_round_trips.
  - apply square_round_trips.
  - constructor; [|constructor]. cbn. discriminate.
Defined.

Lemma ring_constructor_witness :
  (∀ r, LinearRing_from_coordinates square = inr r →
     LinearRing._get_geometry KMLNS (ring_element "0,0 1,0 1,1 0,0") true
     = mret (Some (geo.LinearRing r))) ∧
  (∀ e, LinearRing_from_coordinates square = inl e → ring_decoder_handles e →
     LinearRing._get_geometry KMLNS (ring_element "0,0 1,0 1,1 0,0") true
     = ([invalid_coordinates_msg (ring_element "0,0 1,0 1,1 0,0")
           (exn_str e)],
        inl (Exn KMLParseError
               (invalid_coordinates_msg (ring_element "0,0 1,0 1,1 0,0")
                  (exn_str e))))) ∧
  (∀ e, LinearRing_from_coordinates square = inl e →
     ¬ ring_decoder_handles e →
     LinearRing._get_geometry KMLNS (ring_element "0,0 1,0 1,1 0,0") true
     = raise e).
Proof.
  apply (ring_constructor_errors_are_handled_by_class (F:=Q) KMLNS
           (ring_element "0,0 1,0 1,1 0,0") true square).
  vm_compute. reflexivity.
Defined.

Lemma ring_without_coordinates_witness :
  LinearRing._get_geometry (F:=Q) KMLNS (Elem (kml "LinearRing") None []) true
  = mret (Some (geo.LinearRing [])) ∧
  (@nil (list Q) = [] →
   usable_ring (F:=Q) KMLNS (Elem (kml "LinearRing") None []) = None).
Proof.
  apply (ring_without_coordinates_is_the_ring_of_nothing (F:=Q) KMLNS
           (Elem (kml "LinearRing") None []) true []).
  - left. reflexivity.
  - reflexivity.
Defined.

Lemma invalid_ring_text_witness :
  ∃ cause,
    LinearRing._get_geometry (F:=Q) KMLNS (ring_element "abc") false
    = ([invalid_coordinates_msg (ring_element "abc") cause],
       inr (Some (geo.LinearRing []))) ∧
    LinearRing._get_geometry (F:=Q) KMLNS (ring_element "abc") true
    = ([invalid_coordinates_msg (ring_element "abc") cause],
       inl (Exn KMLParseError
              (invalid_coordinates_msg (ring_element "abc") cause))).
Proof.
  apply (lenient_ring_with_invalid_text_is_the_ring_of_nothing (F:=Q) KMLNS
           (ring_element "abc") (Elem (kml "coordinates") (Some "abc") [])
           "abc" []).
  - reflexivity.
  - reflexivity.
  - exists "abc", "abc", "could not convert string to float: 'abc'".
    repeat split; by left.
  - reflexivity.
Defined.

Lemma decoded_polygon_witness :
  ∃ exterior interiors,
    square_with_hole = geo.Polygon exterior interiors ∧
    exterior ≠ [] ∧ Forall (fun r => r ≠ []) interiors ∧
    (length interiors
     ≤ length (findall (KMLNS +:+ "innerBoundaryIs")
                 (polygon_element [ring_element "0,0 1,0 1,1 0,0"]
                    [[ring_element "abc"];
                     [ring_element "0.1,0.1 0.2,0.1 0.2,0.2 0.1,0.1"]])))%nat.
Proof.
  apply (decoded_polygon_has_no_empty_ring (F:=Q) KMLNS
           (polygon_element [ring_element "0,0 1,0 1,1 0,0"]
              [[ring_element "abc"];
               [ring_element "0.1,0.1 0.2,0.1 0.2,0.2 0.1,0.1"]])
           false
           (logged (Polygon._get_geometry (F:=Q) KMLNS
              (polygon_element [ring_element "0,0 1,0 1,1 0,0"]
                 [[ring_element "abc"];
                  [ring_element "0.1,0.1 0.2,0.1 0.2,0.2 0.1,0.1"]])
              false))).
  vm_compute. reflexivity.
Defined.

Lemma strict_geometry_witness :
  @nil string = [] ∧
  class_get_geometry (F:=Q) KMLNS false KMultiGeometry
    (Elem (kml "MultiGeometry") None
       [polygon_element [ring_element "0,0 1,0 1,1 0,0"] [];
        Elem (kml "MultiGeometry") None [ring_element "0,0 1,0 1,1 0,0"]])
  = ([], inr (Some (geo.GeometryCollection
                      [geo.GeometryCollection [geo.LinearRing square];
                       geo.Polygon square []]))).
Proof.
  apply (strict_geometry_is_the_lenient_geometry (F:=Q) KMLNS KMultiGeometry).
  vm_compute. reflexivity.
Defined.

Lemma lenient_error_witness :
  exn_type (missing_exn "LinearRing" (polygon_element [] [])) = KMLParseError ∧
  (false = false →
   ∃ what polygon,
     what ∈ required_pieces ∧
     missing_exn "LinearRing" (polygon_element [] [])
     = missing_exn what polygon).
Proof.
  apply (geometry_decoding_raises_only_parse_errors (F:=Q) KMLNS false
           KMultiGeometry
           (Elem (kml "MultiGeometry") None [polygon_element [] []]) []).
  - apply model_ring_errors_are_handled.
  - vm_compute. reflexivity.
Defined.

Lemma multi_geometry_of_points_witness :
  MultiGeometry._get_geometry (F:=Q) KMLNS
    (Elem (kml "MultiGeometry") None
       [Elem (kml "Point") None [Elem (kml "coordinates") (Some "1,2") []];
        Elem (kml "LineString") None
          [Elem (kml "coordinates") (Some "1,2 3,4") []]]) true
  = mret None.
Proof.
  apply (multi_geometry_without_decodable_children_is_absent (F:=Q) KMLNS).
  apply (bool_decide_unpack _). vm_compute. exact I.
Defined.

(** A point, read back from its wrapper; an empty line, dropped. *)
Example point_wrapper_reads_back :
  (w ← Point.__init__ None None None None (Some (geo.Point [1; 2]%Q)) None;
   Point.geometry w) = mret (Some (geo.Point [1; 2]%Q)) ∧
  (w ← LineString.__init__ KLineString None None None None
         (Some (geo.LineString (F:=Q) [])) None;
   LineString.geometry w) = mret None.
Proof. split; vm_compute; reflexivity. Qed.

Lemma dropped_altitude_witness :
  (e ← coordinates_subelement
         (Coordinates__init__ None (Some [[1; 2]; [3; 4; 5]]%Q))
         (Elem (kml "coordinates") None []) None;
   subelement_coordinates_kwarg e "coords" true)
  = mret {[ "coords" := [[1; 2]; [3; 4]]%Q ]} ∧
  Forall (fun c => length c = 2%nat) [[1; 2]; [3; 4]]%Q.
Proof.
  apply (first_tuple_of_two_fields_drops_the_altitudes (F:=Q) [1; 2]%Q
           [[3; 4; 5]%Q] [[1; 2]; [3; 4]]%Q None
           (Elem (kml "coordinates") None []) "coords" true).
  - reflexivity.
  - constructor; [cbn; lia|constructor].
  - unfold coords_round_to. cbn [default from_option id fmap list_fmap take].
    rounds.
Defined.

(** The element of a polygon with a hole, and of a collection that holds
    a polygon and a ring, in the default namespace. *)
Example polygon_element_of_square_with_hole :
  Polygon.etree_element
    (Polygon.__init__ None None None None square_with_hole) None
  = mret (polygon_element [ring_element "0.000000,0.000000 1.000000,0.000000 1.000000,1.000000 0.000000,0.000000"]
            [[ring_element "0.100000,0.100000 0.200000,0.100000 0.200000,0.200000 0.100000,0.100000"]]).
Proof. vm_compute. reflexivity. Qed.

Example members_of_a_collection_in_order :
  tag <$> (match outcome
                   (MultiGeometry.etree_element
                      (MultiGeometry.__init__ None None None None
                         (geo.GeometryCollection
                            [geo.LinearRing square; geo.Polygon square [];
                             geo.MultiPolygon [geo.Polygon square []]]))
                      None) with
           | inr element => children element
           | inl _ => []
           end)
  = [kml "LinearRing"; kml "Polygon"; kml "MultiGeometry"].
Proof. vm_compute. reflexivity. Qed.
